(** * EnecoDataPrepare: a shallow embedding of the data-preparation pipeline

    Source: [Datasources/Eneco/EnecoDataPrepare.py].

    The script reads meter exports into pandas data frames, keeps the rows
    with a plausible date, sorts them, optionally filters and accumulates a
    value column, and writes one CSV file per output definition.

    The embedding follows the script function by function:
    - floating-point cells are IEEE binary64 numbers ([spec_float] at
      precision 53), with Python's [round(x, 3)] written out;
    - a data frame is a column list plus an ordered list of labelled rows;
    - data frames live in a heap of Python objects, because the script
      passes the same frame object to several calls and writes cells in
      place ([df.at[...] = ...]);
    - exceptions, the printed lines and the written files are threaded
      through a state-and-error monad. *)

From Stdlib Require Import ZArith Lia List Sorting.Sorted Sorting.Permutation.
From Stdlib Require Import Floats.SpecFloat.
From stdpp Require Import base list gmap strings sorting pretty.

Local Open Scope Z_scope.

(** ** Binary64 arithmetic *)

Module Float64.

Definition float := spec_float.

Definition prec : Z := 53.
Definition emax : Z := 1024.

Definition fadd : float → float → float := SFadd prec emax.
Definition fmul : float → float → float := SFmul prec emax.
Definition fdiv : float → float → float := SFdiv prec emax.
Definition fleb : float → float → bool := SFleb.

Definition nan : float := S754_nan.
Definition zero : float := S754_zero false.

(** [math.isnan] *)
Definition isnan (x : float) : bool :=
  match x with S754_nan => true | _ => false end.

(** Conversion of an integer, rounding to nearest-even when it does not
    fit in 53 bits. *)
Definition of_Z (z : Z) : float := binary_normalize prec emax z 0 false.

(** The double nearest to the decimal fraction [a / b] (how a literal
    such as [0.0004] is read). *)
Definition of_ratio (a b : Z) : float := fdiv (of_Z a) (of_Z b).

(** Truncation towards zero ([astype('int64')] on an in-range value);
    [None] for NaN and the infinities. *)
Definition trunc (x : float) : option Z :=
  match x with
  | S754_zero _ => Some 0
  | S754_finite s m e =>
      let a := if 0 <=? e then Z.pos m * 2 ^ e else Z.pos m / 2 ^ (- e) in
      Some (if s then - a else a)
  | _ => None
  end.

(** Nearest integer to [n / d] for [d > 0], ties to even. *)
Definition div_rne (n d : Z) : Z :=
  let q := n / d in
  match (2 * (n mod d)) ?= d with
  | Lt => q
  | Gt => q + 1
  | Eq => if Z.even q then q else q + 1
  end.

(** Python's [round(x, 3)] on a float: the exact binary value is rounded
    half-to-even to three decimals, and the decimal result is read back
    as the nearest double.  NaN and the infinities round to themselves;
    the sign of a zero result is kept. *)
Definition round3 (x : float) : float :=
  match x with
  | S754_finite s m e =>
      let n := if 0 <=? e then Z.pos m * 2 ^ e * 1000
               else div_rne (Z.pos m * 1000) (2 ^ (- e)) in
      match n with
      | Z.pos p => fdiv (S754_finite s p 0) (S754_finite false 1000 0)
      | _ => S754_zero s
      end
  | _ => x
  end.

(** [rint]: nearest integer, ties to even, as a float. *)
Definition rint (x : float) : float :=
  match x with
  | S754_finite s m e =>
      if 0 <=? e then x
      else match div_rne (Z.pos m) (2 ^ (- e)) with
           | Z.pos p => binary_round prec emax s p 0
           | _ => S754_zero s
           end
  | _ => x
  end.

(** The rounding of a numpy scalar ([numpy.round]): scale by [10**3],
    [rint], scale back.  Which of the two roundings [round] reaches on a
    [numpy.float64] cell depends on the numpy release, so the
    accumulation below takes the rounding as a parameter. *)
Definition np_round3 (x : float) : float :=
  fdiv (rint (fmul x (of_Z 1000))) (of_Z 1000).

End Float64.

Import Float64.

(** ** Cells, rows and data frames *)

(** A cell of a data frame.  [VTime None] is [NaT]; a timestamp counts
    nanoseconds since the epoch, as [datetime64[ns]] does. *)
Inductive value :=
| VFloat (f : float)
| VInt (z : Z)
| VStr (s : string)
| VTime (t : option Z).

(** The exceptions the script can meet.  [LabelError] is the key error of
    an index label, [ReError] is [re.error]. *)
Inductive exn :=
| KeyError (key : string)
| LabelError (label : Z)
| TypeError
| ValueError
| ReError (pattern : string).

Inductive result (A : Type) :=
| Ok (a : A)
| Raise (e : exn).
Arguments Ok {A} a.
Arguments Raise {A} e.

(** A row maps column names to cells; a cell that is not stored reads as
    NaN, pandas' missing value.  Every row carries its index label. *)
Record DataFrame := mkDataFrame {
  columns : list string;
  rows : list (Z * gmap string value)
}.

Definition cell (r : gmap string value) (c : string) : value :=
  default (VFloat nan) (r !! c).

Definition index (d : DataFrame) : list Z := (rows d).*1.

Definition has_column (d : DataFrame) (c : string) : bool :=
  bool_decide (c ∈ columns d).

(** [df[c]]: the column as a list of cells, in row order. *)
Definition getitem (d : DataFrame) (c : string) : result (list value) :=
  if has_column d c then Ok ((λ r, cell r.2 c) <$> rows d)
  else Raise (KeyError c).

(** [df[mask]] and [df.loc[mask]] with a boolean mask: a new frame with the
    rows whose flag is set, labels and order kept. *)
Fixpoint select_rows {A} (l : list A) (mask : list bool) : list A :=
  match l, mask with
  | x :: l', b :: mask' =>
      if b then x :: select_rows l' mask' else select_rows l' mask'
  | _, _ => []
  end.

Definition select (d : DataFrame) (mask : list bool) : DataFrame :=
  mkDataFrame (columns d) (select_rows (rows d) mask).

(** [df.at[label, c]] as the script reads it.  A label that occurs on
    several rows yields a series, on which the [math.isnan] that follows
    raises; a label or column that does not occur raises a key error. *)
Definition at_get (d : DataFrame) (label : Z) (c : string) : result value :=
  if has_column d c then
    match filter (λ r, r.1 = label) (rows d) with
    | [] => Raise (LabelError label)
    | [r] => Ok (cell r.2 c)
    | _ => Raise TypeError
    end
  else Raise (KeyError c).

(** [df.at[label, c] = v]: every row that carries the label gets the cell.
    The script writes a cell only after it has read the same cell, so the
    column and the label exist when this is reached. *)
Definition at_set (d : DataFrame) (label : Z) (c : string) (v : value)
  : DataFrame :=
  mkDataFrame (columns d)
    ((λ r, if bool_decide (r.1 = label) then (r.1, <[c := v]> r.2) else r)
       <$> rows d).

(** ** The interpreter state: object heap, files, printed lines *)

Abbreviation ref := nat (only parsing).

Record World := mkWorld {
  heap : list DataFrame;
  files : gmap string (list (list value));
  stdout : list string
}.

Definition M (A : Type) : Type := World → result A * World.

#[global] Instance M_ret : MRet M := λ A a w, (Ok a, w).
#[global] Instance M_bind : MBind M := λ A B f m w,
  match m w with
  | (Ok a, w') => f a w'
  | (Raise e, w') => (Raise e, w')
  end.

Definition lift {A} (r : result A) : M A := λ w, (r, w).

Definition print (line : string) : M unit := λ w,
  (Ok (), mkWorld (heap w) (files w) (stdout w ++ [line])).

(** Dereference a frame object. *)
Definition load (r : ref) : M DataFrame := λ w,
  match heap w !! r with
  | Some d => (Ok d, w)
  | None => (Raise ValueError, w)
  end.

(** A new frame object. *)
Definition alloc (d : DataFrame) : M ref := λ w,
  (Ok (length (heap w)), mkWorld (heap w ++ [d]) (files w) (stdout w)).

(** In-place update of a frame object. *)
Definition store (r : ref) (d : DataFrame) : M unit := λ w,
  (Ok (), mkWorld (<[r := d]> (heap w)) (files w) (stdout w)).

Definition write_file (name : string) (content : list (list value)) : M unit :=
  λ w, (Ok (), mkWorld (heap w) (<[name := content]> (files w)) (stdout w)).

Definition at_ (df : ref) (label : Z) (c : string) : M value :=
  d ← load df; lift (at_get d label c).

Definition set_at (df : ref) (label : Z) (c : string) (v : value) : M unit :=
  d ← load df; store df (at_set d label c v).

(** ** Configuration (the template set-up of the script) *)

(** [DataFilter = namedtuple('DataFilter', ['column', 'value', 'equal'])] *)
Record DataFilter := mkDataFilter {
  column : string;
  value_ : string;
  equal : bool
}.

Record OutputFileDefinition := mkOutputFileDefinition {
  outputFileName : string;
  valueColumnName : string;
  dataFilters : list DataFilter;
  recalculate : bool
}.

Definition energyProviderName : string := "Eneco".
Definition inputFileDateColumnName : string := "Datum".
Definition inputFileNameExtension : string := ".xlsx".

(** ** Scalar operations on cells *)

Definition wrap64 (z : Z) : Z := (z + 2 ^ 63) mod 2 ^ 64 - 2 ^ 63.

(** [math.isnan(v)]: defined on numbers only. *)
Definition isnan_value (v : value) : result bool :=
  match v with
  | VFloat f => Ok (isnan f)
  | VInt _ => Ok false
  | _ => Raise TypeError
  end.

(** [a + b] on the numeric cells the accumulation can reach (a string or a
    timestamp has already failed [math.isnan]). *)
Definition add_value (a b : value) : result value :=
  match a, b with
  | VFloat x, VFloat y => Ok (VFloat (fadd x y))
  | VInt x, VInt y => Ok (VInt (wrap64 (x + y)))
  | VInt x, VFloat y => Ok (VFloat (fadd (of_Z x) y))
  | VFloat x, VInt y => Ok (VFloat (fadd x (of_Z y)))
  | _, _ => Raise TypeError
  end.

(** ** Dates *)

(** Days from 1970-01-01 to a day of the proleptic Gregorian calendar. *)
Definition days_from_civil (y m d : Z) : Z :=
  let y' := if m <=? 2 then y - 1 else y in
  let era := y' / 400 in
  let yoe := y' - era * 400 in
  let mp := if 2 <? m then m - 3 else m + 9 in
  let doy := (153 * mp + 2) / 5 + d - 1 in
  let doe := yoe * 365 + yoe / 4 - yoe / 100 + doy in
  era * 146097 + doe - 719468.

(** [datetime.datetime.strptime(text, '%d-%m-%Y')] for the day [d-m-y], as
    nanoseconds since the epoch (midnight, no time zone). *)
Definition strptime_dmy (d m y : Z) : Z :=
  days_from_civil y m d * 86400 * 1000000000.

Definition int64_min : Z := - 2 ^ 63.

(** ** pandas operations used by [prepareData] *)

(** One cell of [column >= lo] and [column <= hi] against datetimes: [NaT]
    compares false, a cell that is no timestamp cannot be compared. *)
Definition ge_datetime (v : value) (bound : Z) : result bool :=
  match v with
  | VTime (Some t) => Ok (bound <=? t)
  | VTime None => Ok false
  | _ => Raise TypeError
  end.

Definition le_datetime (v : value) (bound : Z) : result bool :=
  match v with
  | VTime (Some t) => Ok (t <=? bound)
  | VTime None => Ok false
  | _ => Raise TypeError
  end.

Fixpoint traverse {A B} (f : A → result B) (l : list A) : result (list B) :=
  match l with
  | [] => Ok []
  | x :: l' =>
      match f x with
      | Raise e => Raise e
      | Ok y => match traverse f l' with
                | Raise e => Raise e
                | Ok ys => Ok (y :: ys)
                end
      end
  end.

(** The sort key of a datetime cell; [None] for [NaT]. *)
Definition datetime_key (v : value) : result (option Z) :=
  match v with
  | VTime t => Ok t
  | _ => Raise TypeError
  end.

(** [.view('int64')] of a datetime cell. *)
Definition view_int64 (v : value) : result Z :=
  match v with
  | VTime (Some t) => Ok t
  | VTime None => Ok int64_min
  | VInt z => Ok z
  | _ => Raise TypeError
  end.

(** [(ns / 1000000000).astype('int64')]: a float division, then a
    truncation. *)
Definition to_unix (ns : Z) : Z :=
  default 0 (trunc (fdiv (of_Z ns) (of_Z 1000000000))).

(** [df[c] = cells]: the column is replaced row by row. *)
Definition setitem (d : DataFrame) (c : string) (cells : list value)
  : DataFrame :=
  mkDataFrame (if has_column d c then columns d else columns d ++ [c])
    (zip_with (λ r v, (r.1, <[c := v]> r.2)) (rows d) cells).

(** [take]: the rows at the given positions, in that order. *)
Definition take (d : DataFrame) (indexer : list nat) : DataFrame :=
  mkDataFrame (columns d) (omap (λ i, rows d !! i) indexer).

(** [pd.concat(tables, ignore_index = True, sort = True)]: the rows of all
    tables in order, relabelled 0, 1, 2, ...  The columns are the sorted
    union of the tables' columns, also when the tables agree. *)
Definition string_le (a b : string) : Prop := String.leb a b = true.
#[global] Instance string_le_dec : RelDecision string_le.
Proof. intros a b. unfold string_le. apply _. Defined.

Definition concat_columns (tables : list DataFrame) : list string :=
  merge_sort string_le (remove_dups (tables ≫= columns)).

(** The type of a column.  A frame of this model stores cells only, so
    the type of a column is the one its cells fit: [int64] for integers,
    [float64] for floats, [datetime64[ns]] for timestamps, and [object]
    for anything else. *)
Inductive dtype :=
| Int64
| Float64
| Datetime64
| Object.

Definition dtype_of (column : list value) : dtype :=
  if forallb (λ v, match v with VInt _ => true | _ => false end) column
  then Int64
  else if forallb (λ v, match v with VFloat _ => true | _ => false end) column
  then Float64
  else if forallb (λ v, match v with VTime _ => true | _ => false end) column
  then Datetime64
  else Object.

(** A missing cell: NaN or [NaT]. *)
Definition is_na (v : value) : bool :=
  match v with
  | VFloat f => isnan f
  | VTime None => true
  | _ => false
  end.

Definition column_cells (t : DataFrame) (c : string) : list value :=
  (λ r, cell r.2 c) <$> rows t.

(** The common type of the pieces of a column; [na] says that some rows
    have to be filled with a missing value.  Integers and floats meet in
    [float64], and integers cannot hold a missing value; timestamps stay
    timestamps; any other mixture is [object]. *)
Definition common_dtype (pieces : list dtype) (na : bool) : dtype :=
  if forallb (λ t, match t with Int64 | Float64 => true | _ => false end) pieces
  then
    if na || existsb (λ t, match t with Float64 => true | _ => false end) pieces
    then Float64
    else Int64
  else if forallb (λ t, match t with Datetime64 => true | _ => false end) pieces
  then Datetime64
  else Object.

(** The type of column [c] in the joined frame.  Tables without rows have
    no say.  A table that lacks the column, or holds only missing cells
    in it, has no say either, but its rows need a missing value; when no
    table is left to decide, the tables that have the column do. *)
Definition concat_dtype (tables : list DataFrame) (c : string) : dtype :=
  let filled := filter (λ t, rows t ≠ []) tables in
  let present := filter (λ t, c ∈ columns t) filled in
  let holding := filter (λ t, ¬ forallb is_na (column_cells t c)) present in
  common_dtype
    ((λ t, dtype_of (column_cells t c))
       <$> match holding with [] => present | _ => holding end)
    (bool_decide (length holding < length filled)%nat).

(** A cell in a column of the given type: an integer in a float column
    becomes a float, and the missing value is NaN in a float column and
    [NaT] in a datetime column. *)
Definition astype (t : dtype) (v : value) : value :=
  match t, v with
  | Float64, VInt z => VFloat (of_Z z)
  | Float64, VTime None => VFloat nan
  | Datetime64, VFloat f => if isnan f then VTime None else v
  | _, _ => v
  end.

(** A row of table [t] in the joined frame: a cell for every column of
    the joined frame, a missing one where the table lacks the column. *)
Definition reindexed (tables : list DataFrame) (t : DataFrame)
    (r : Z * gmap string value) : gmap string value :=
  list_to_map
    ((λ c, (c, astype (concat_dtype tables c)
                 (if has_column t c then cell r.2 c else VFloat nan)))
       <$> concat_columns tables).

Definition concat (tables : list DataFrame) : result DataFrame :=
  match tables with
  | [] => Raise ValueError
  | _ =>
      Ok (mkDataFrame (concat_columns tables)
            (imap (λ i m, (Z.of_nat i, m))
               (tables ≫= λ t, reindexed tables t <$> rows t)))
  end.

(** ** What the script takes from its surroundings

    The library functions whose text is not part of the script, the file
    system, and the configured list of output definitions. *)
Class Environment := {
  (** the rounding [round(_, 3)] performs on a float cell *)
  round_3 : float → float;
  (** [str] of a float and of a timestamp *)
  float_str : float → string;
  time_str : option Z → string;
  (** Python's [re]: compiling a pattern (which can fail) and
      [re.search], which looks for a match anywhere in the text *)
  regex : Type;
  re_compile : string → option regex;
  re_search : regex → string → bool;
  (** [numpy.argsort] with the default kind: the positions of the keys in
      ascending key order *)
  argsort : list Z → list nat;
  (** the file system: [glob.glob], [os.path.splitext] (the extension),
      and the table [readInputFile] builds from a file, that is the
      loader's rows with the date column parsed by [pd.to_datetime] and its
      time zone dropped *)
  glob : string → list string;
  splitext : string → string;
  read_table : string → result DataFrame;
  (** the configured output definitions *)
  outputFiles : list OutputFileDefinition
}.

Section Script.

Context {E : Environment}.

(** *** recalculateData *)

Definition round_value (v : value) : value :=
  match v with
  | VFloat f => VFloat (round_3 f)
  | _ => v
  end.

(** The body of the [for index, _ in df.iterrows()] loop, over the
    labels that [iterrows] yields. *)
Fixpoint recalculate_loop (df : ref) (dataColumnName : string)
    (labels : list Z) (previousRowIndex : Z) : M unit :=
  match labels with
  | [] => mret ()
  | index :: labels' =>
      v ← at_ df index dataColumnName;
      missing ← lift (isnan_value v);
      (if (missing : bool) then set_at df index dataColumnName (VFloat zero)
       else mret ());;
      (if previousRowIndex >? -1 then
         a ← at_ df index dataColumnName;
         b ← at_ df previousRowIndex dataColumnName;
         s ← lift (add_value a b);
         set_at df index dataColumnName (round_value s)
       else mret ());;
      recalculate_loop df dataColumnName labels' index
  end.

(** [recalculateData]: [df = dataFrame] names the same object, the cells
    are written in place, and the same object is returned. *)
Definition recalculateData (dataFrame : ref) (dataColumnName : string)
  : M ref :=
  let df := dataFrame in
  d ← load df;
  recalculate_loop df dataColumnName (index d) (-1);;
  mret df.


(** *** filterData *)

Definition astype_str (v : value) : string :=
  match v with
  | VStr s => s
  | VInt z => pretty z
  | VFloat f => float_str f
  | VTime t => time_str t
  end.

(** [df[column].astype(str).str.contains(value, regex = True)]: the
    column is looked up first, then the pattern is compiled, then every
    cell's text is searched. *)
Definition str_contains (d : DataFrame) (dataFilter : DataFilter)
  : result (list bool) :=
  match getitem d (column dataFilter) with
  | Raise e => Raise e
  | Ok cells =>
      match re_compile (value_ dataFilter) with
      | None => Raise (ReError (value_ dataFilter))
      | Some r => Ok ((λ v, re_search r (astype_str v)) <$> cells)
      end
  end.

(** [df = dataFrame] names the base object; each filter replaces [df] by
    a new frame object [df[series]].  With no filter the returned
    reference is the base object itself. *)
Fixpoint filterData (dataFrame : ref) (filters : list DataFilter) : M ref :=
  let df := dataFrame in
  match filters with
  | [] => mret df
  | dataFilter :: filters' =>
      d ← load df;
      series ← lift (str_contains d dataFilter);
      let series := if equal dataFilter then series else negb <$> series in
      df' ← alloc (select d series);
      filterData df' filters'
  end.

(** *** generateImportDataFile *)

(** The names of a list, each once, in the order of their first
    occurrence. *)
Fixpoint first_occurrences (items : list string) : list string :=
  match items with
  | [] => []
  | c :: items' => c :: filter (λ c', c' ≠ c) (first_occurrences items')
  end.

(** [DataFrame.filter(items)]: a new frame with the listed columns that
    exist, in the listed order.  The items are intersected with the
    frame's columns as an index, so a name listed twice gives one
    column. *)
Definition filter_items (d : DataFrame) (items : list string) : DataFrame :=
  let keep := first_occurrences (filter (λ c, c ∈ columns d) items) in
  mkDataFrame keep
    ((λ r, (r.1, filter (λ kv, kv.1 ∈ keep) r.2)) <$> rows d).

(** [to_csv(..., header = False, index = False)]: one line per row, the
    cells in column order. *)
Definition csv_lines (d : DataFrame) : list (list value) :=
  (λ r, (λ c, cell r.2 c) <$> columns d) <$> rows d.

Definition to_csv (df : ref) (outputFile : string) : M unit :=
  d ← load df; write_file outputFile (csv_lines d).

Definition generateImportDataFile (dataFrame : ref) (outputFile : string)
    (dataColumnName : string) (filters : list DataFilter)
    (recalculate : bool) : M unit :=
  d ← load dataFrame;
  if has_column d dataColumnName then
    print ("Creating file: " +:+ outputFile);;
    dataFrameFiltered ← filterData dataFrame filters;
    dataFrameFiltered ←
      (if recalculate then recalculateData dataFrameFiltered dataColumnName
       else mret dataFrameFiltered);
    selected ← load dataFrameFiltered;
    dataFrameFiltered ←
      alloc (filter_items selected [inputFileDateColumnName; dataColumnName]);
    to_csv dataFrameFiltered outputFile
  else
    print ("Could not create file: " +:+ outputFile +:+ " because column: "
           +:+ dataColumnName +:+ " does not exist").

(** *** prepareData *)

(** [nargsort] on a datetime column: the positions of the non-missing
    keys in [argsort] order, the missing ones last. *)
Definition nargsort (keys : list (option Z)) : list nat :=
  let positions := seq 0 (length keys) in
  let non_nan_idx := filter (λ i, is_Some (mjoin (keys !! i))) positions in
  let nan_idx := filter (λ i, ¬ is_Some (mjoin (keys !! i))) positions in
  omap (λ j, non_nan_idx !! j) (argsort (omap id keys)) ++ nan_idx.

(** [df.sort_values(by = c, ascending = True, inplace = True)] *)
Definition sort_values (d : DataFrame) (c : string) : result DataFrame :=
  match getitem d c with
  | Raise e => Raise e
  | Ok cells =>
      match traverse datetime_key cells with
      | Raise e => Raise e
      | Ok keys => Ok (take d (nargsort keys))
      end
  end.

(** The mask [(column >= 01-01-1970) & (column <= 31-12-2099)]. *)
Definition correct_dates (d : DataFrame) : result (list bool) :=
  match getitem d inputFileDateColumnName with
  | Raise e => Raise e
  | Ok cells =>
      match traverse (λ v, ge_datetime v (strptime_dmy 1 1 1970)) cells with
      | Raise e => Raise e
      | Ok lower =>
          match traverse (λ v, le_datetime v (strptime_dmy 31 12 2099)) cells with
          | Raise e => Raise e
          | Ok upper => Ok (zip_with andb lower upper)
          end
      end
  end.

(** The column as unix timestamps. *)
Definition unix_column (d : DataFrame) : result (list value) :=
  match getitem d inputFileDateColumnName with
  | Raise e => Raise e
  | Ok cells => traverse (λ v, match view_int64 v with
                               | Ok ns => Ok (VInt (to_unix ns))
                               | Raise e => Raise e
                               end) cells
  end.

(** [prepareData]: the selection makes a new frame object, which is then
    sorted and rewritten in place; the configured preparation code is
    empty. *)
Definition prepareData (dataFrame : ref) : M ref :=
  print "Preparing data";;
  d ← load dataFrame;
  mask ← lift (correct_dates d);
  df ← alloc (select d mask);
  d1 ← load df;
  sorted ← lift (sort_values d1 inputFileDateColumnName);
  store df sorted;;
  d2 ← load df;
  seconds ← lift (unix_column d2);
  store df (setitem d2 inputFileDateColumnName seconds);;
  mret df.

(** *** Reading the input and the driver *)

Definition readInputFile (inputFileName : string) : M DataFrame :=
  print ("Loading data: " +:+ inputFileName);;
  lift (read_table inputFileName).

Fixpoint correctFileExtensions (fileNames : list string) : bool :=
  match fileNames with
  | [] => true
  | fileName :: fileNames' =>
      if bool_decide (splitext fileName ≠ inputFileNameExtension) then false
      else correctFileExtensions fileNames'
  end.

Fixpoint read_all (fileNames : list string) : M (list DataFrame) :=
  match fileNames with
  | [] => mret []
  | fileName :: fileNames' =>
      t ← readInputFile fileName;
      ts ← read_all fileNames';
      mret (t :: ts)
  end.

(** The loop [for outputFile in outputFiles]. *)
Fixpoint generate_all (dataFrame : ref) (outputs : list OutputFileDefinition)
  : M unit :=
  match outputs with
  | [] => mret ()
  | outputFile :: outputs' =>
      generateImportDataFile dataFrame (outputFileName outputFile)
        (valueColumnName outputFile) (dataFilters outputFile)
        (recalculate outputFile);;
      generate_all dataFrame outputs'
  end.

Definition generateImportDataFiles (inputFileNames : string) : M unit :=
  let fileNames := glob inputFileNames in
  if (0 <? length fileNames)%nat then
    print ("Found files based on: " +:+ inputFileNames);;
    if correctFileExtensions fileNames then
      tables ← read_all fileNames;
      whole ← lift (concat tables);
      dataFrame ← alloc whole;
      dataFrame ← prepareData dataFrame;
      generate_all dataFrame outputFiles;;
      print "Done"
    else
      print ("Only " +:+ inputFileNameExtension +:+ " datafiles are allowed")
  else
    print ("No files found based on : " +:+ inputFileNames).

End Script.

(** ** The accumulation as the specification words it

    The first row keeps its value (0.0 when missing) and starts the running
    total; every later row stores the previous total plus its own raw
    value (0.0 when missing), rounded to three decimals. *)

Definition raw_increment (v : float) : float := if isnan v then zero else v.

Fixpoint running_totals (rnd : float → float) (total : float)
    (raws : list float) : list float :=
  match raws with
  | [] => []
  | v :: raws' =>
      let total' := rnd (fadd total (raw_increment v)) in
      total' :: running_totals rnd total' raws'
  end.

Definition accumulated (rnd : float → float) (raws : list float)
  : list float :=
  match raws with
  | [] => []
  | v :: raws' => raw_increment v :: running_totals rnd (raw_increment v) raws'
  end.

(** The cells of column [c], in row order. *)
Definition cells (c : string) (rs : list (Z * gmap string value)) : list value :=
  (λ r, cell r.2 c) <$> rs.

(** Two frames agree on everything but column [c]: same columns, same
    labels in the same order, same cells elsewhere. *)
Definition same_outside (c : string) (d d' : DataFrame) : Prop :=
  columns d' = columns d ∧
  (λ r, (r.1, delete c r.2)) <$> rows d' = (λ r, (r.1, delete c r.2)) <$> rows d.

Definition with_heap (w : World) (h : list DataFrame) : World :=
  mkWorld h (files w) (stdout w).

(** The loop of [recalculateData] as a function of the frame it updates. *)
Fixpoint loop_on_frame {E : Environment} (d : DataFrame) (c : string)
    (labels : list Z) (previousRowIndex : Z) : result unit * DataFrame :=
  match labels with
  | [] => (Ok (), d)
  | index :: labels' =>
      match at_get d index c with
      | Raise e => (Raise e, d)
      | Ok v =>
          match isnan_value v with
          | Raise e => (Raise e, d)
          | Ok missing =>
              let d1 := if missing then at_set d index c (VFloat zero) else d in
              if previousRowIndex >? -1 then
                match at_get d1 index c with
                | Raise e => (Raise e, d1)
                | Ok a =>
                    match at_get d1 previousRowIndex c with
                    | Raise e => (Raise e, d1)
                    | Ok b =>
                        match add_value a b with
                        | Raise e => (Raise e, d1)
                        | Ok s =>
                            loop_on_frame
                              (at_set d1 index c (round_value s))
                              c labels' index
                        end
                    end
                end
              else loop_on_frame d1 c labels' index
          end
      end
  end.

(** ** Filters, as the specification words them *)

Section FilterSpec.

Context {E : Environment}.

(** A filter's test on a row, as the specification words it: the text of
  the row's cell in the filter's column contains a match of the
  pattern, inverted for an exclusive filter. *)
Definition filter_test (f : DataFilter) (r : gmap string value) : bool :=
match re_compile (value_ f) with
| Some rx =>
    let found := re_search rx (astype_str (cell r (column f))) in
    if equal f then found else negb found
| None => false
end.

Definition passes (filters : list DataFilter) (r : Z * gmap string value)
: bool :=
forallb (λ f, filter_test f r.2) filters.

(** A filter the frame can evaluate: its column exists and its pattern
  is a regular expression. *)
Definition usable (d : DataFrame) (f : DataFilter) : Prop :=
column f ∈ columns d ∧ is_Some (re_compile (value_ f)).

End FilterSpec.

(** The line printed for a skipped output, and the state after a print. *)
Definition skip_message (outputFile dataColumnName : string) : string :=
"Could not create file: " +:+ outputFile +:+ " because column: "
+:+ dataColumnName +:+ " does not exist".

Definition printed (w : World) (line : string) : World :=
mkWorld (heap w) (files w) (stdout w ++ [line]).

(** ** The output files, as the specification words them *)

(** One line of the file for value column [c]: the row's date cell, then
    its value cell.  When [c] is the date column itself the line has that
    one cell. *)
Definition line_of (c : string) (r : Z * gmap string value) : list value :=
  if decide (c = inputFileDateColumnName) then [cell r.2 c]
  else [cell r.2 inputFileDateColumnName; cell r.2 c].

(** The lines of the file of a definition that does not recalculate: one
    for each row of the frame that passes every filter, in row order. *)
Definition output_lines {E : Environment} (d : DataFrame)
    (o : OutputFileDefinition) : list (list value) :=
  line_of (valueColumnName o) <$> List.filter (passes (dataFilters o)) (rows d).

(** The files after a run over definitions that do not recalculate: each
    definition whose value column exists puts its lines under its file
    name, over whatever was there; the others leave the files alone. *)
Definition produced {E : Environment} (d : DataFrame)
    (outputs : list OutputFileDefinition)
    (fs : gmap string (list (list value))) : gmap string (list (list value)) :=
  foldl (λ fs o, if has_column d (valueColumnName o)
                 then <[outputFileName o := output_lines d o]> fs
                 else fs)
    fs outputs.



(** The labels of a frame in the pipeline: distinct, none below zero. *)
Definition pipeline_labels (d : DataFrame) : Prop :=
  NoDup (index d) ∧ Forall (λ l, -1 < l) (index d).

(** ** The assembly, as the specification words it *)

(** The timestamp in a row's date cell. *)
Definition timestamp (r : Z * gmap string value) : option Z :=
  match cell r.2 inputFileDateColumnName with
  | VTime t => t
  | _ => None
  end.

(** The row's date lies in [01-01-1970, 31-12-2099]. *)
Definition in_bounds (r : Z * gmap string value) : bool :=
  match timestamp r with
  | Some t => (strptime_dmy 1 1 1970 <=? t) && (t <=? strptime_dmy 31 12 2099)
  | None => false
  end.

(** The row with its date cell turned into a unix timestamp. *)
Definition normalised (r : Z * gmap string value) : Z * gmap string value :=
  (r.1, <[inputFileDateColumnName :=
            VInt (to_unix (default int64_min (timestamp r)))]> r.2).

Definition is_datetime (v : value) : Prop := ∃ t, v = VTime t.

(** What the script relies on from the sort: the positions come back as a
    rearrangement of 0 .. n-1 that puts the keys in ascending order.  The
    default sort kind promises nothing about equal keys. *)
Definition sorts_ascending (sort : list Z → list nat) : Prop :=
  ∀ keys, sort keys ≡ₚ seq 0 (length keys) ∧
          Sorted Z.le (omap (λ i, keys !! i) (sort keys)).

(** The same for one list of keys. *)
Definition sorts_keys (sort : list Z → list nat) (keys : list Z) : Prop :=
  sort keys ≡ₚ seq 0 (length keys) ∧
  Sorted Z.le (omap (λ i, keys !! i) (sort keys)).

(** The keys the sort is given in [prepareData]: the timestamps of the
    rows in bounds, in row order. *)
Definition dates_in_bounds (d : DataFrame) : list Z :=
  (λ r, default 0 (timestamp r)) <$> List.filter in_bounds (rows d).

(** [x] stands somewhere before [y] in [l]. *)
Definition before (x y : Z) (l : list Z) : Prop :=
  ∃ i j, (i < j)%nat ∧ l !! i = Some x ∧ l !! j = Some y.

(** Rows of [d] with equal dates stand in [d'] in their order in [d]. *)
Definition equal_dates_keep_input_order (d d' : DataFrame) : Prop :=
  ∀ r1 r2,
    r1 ∈ rows d → r2 ∈ rows d →
    in_bounds r1 = true →
    timestamp r1 = timestamp r2 →
    before r1.1 r2.1 (index d) →
    before r1.1 r2.1 (index d').

(** * Concrete frames and stand-ins for the library *)

(** A sort that meets [sorts_ascending] and keeps equal keys in their
    order: positions are ordered by key, then by position. *)
Definition key_then_position (a b : Z * nat) : Prop :=
  a.1 < b.1 ∨ (a.1 = b.1 ∧ (a.2 ≤ b.2)%nat).

#[global] Instance key_then_position_dec : RelDecision key_then_position.
Proof. intros a b. unfold key_then_position. apply _. Defined.

Definition argsort_with (R : relation (Z * nat)) `{!RelDecision R}
    (keys : list Z) : list nat :=
  (merge_sort R (zip keys (seq 0 (length keys)))).*2.

Definition stable_argsort : list Z → list nat :=
  argsort_with key_then_position.

(** The sort behind [sort_values] when no kind is given: numpy's argsort
    of kind quicksort on the datetime keys.  It works on an array of
    positions: a piece of more than 17 positions is partitioned around the
    median of its first, middle and last key, a shorter piece is sorted by
    insertion, and a piece is sorted as a heap once the depth allowance of
    twice the binary logarithm of the length is used up.  Missing keys do
    not get here: [nargsort] takes them out first. *)
Module Npysort.

Definition SMALL_QUICKSORT : nat := 16.

Section Sort.

(** The keys; [tosort] below holds positions into them. *)
Variable v : list Z.

Definition key (i : nat) : Z := default 0 (v !! i).

Definition item (tosort : list nat) (p : nat) : nat :=
  default 0%nat (tosort !! p).

(** The comparison of the keys at two places of the array. *)
Definition less (tosort : list nat) (p q : nat) : bool :=
  key (item tosort p) <? key (item tosort q).

(** [INTP_SWAP] of two places of the array. *)
Definition swap (tosort : list nat) (p q : nat) : list nat :=
  <[p := item tosort q]> (<[q := item tosort p]> tosort).

(** [pi] goes up while the key it points at is less than the pivot;
    entered after the first step. *)
Fixpoint scan_up (fuel : nat) (tosort : list nat) (vp : Z) (pi : nat) : nat :=
  match fuel with
  | O => pi
  | S fuel' =>
      if key (item tosort pi) <? vp then scan_up fuel' tosort vp (S pi)
      else pi
  end.

(** [pj] goes down while the pivot is less than the key it points at;
    entered after the first step. *)
Fixpoint scan_down (fuel : nat) (tosort : list nat) (vp : Z) (pj : nat)
  : nat :=
  match fuel with
  | O => pj
  | S fuel' =>
      if vp <? key (item tosort pj) then scan_down fuel' tosort vp (pj - 1)
      else pj
  end.

(** The loop that moves [pi] up and [pj] down and swaps until they meet;
    the position where [pi] stops is returned with the array. *)
Fixpoint exchange (fuel : nat) (tosort : list nat) (vp : Z) (pi pj : nat)
  : list nat * nat :=
  match fuel with
  | O => (tosort, pi)
  | S fuel' =>
      let pi := scan_up (length tosort) tosort vp (S pi) in
      let pj := scan_down (length tosort) tosort vp (pj - 1) in
      if (pj <=? pi)%nat then (tosort, pi)
      else exchange fuel' (swap tosort pi pj) vp pi pj
  end.

(** One partition of the positions [pl .. pr]: the median of three goes
    to [pr - 1] as the pivot, and ends at the returned position. *)
Definition partition (tosort : list nat) (pl pr : nat) : list nat * nat :=
  let pm := (pl + (pr - pl) / 2)%nat in
  let tosort := if less tosort pm pl then swap tosort pm pl else tosort in
  let tosort := if less tosort pr pm then swap tosort pr pm else tosort in
  let tosort := if less tosort pm pl then swap tosort pm pl else tosort in
  let vp := key (item tosort pm) in
  let tosort := swap tosort pm (pr - 1) in
  let '(tosort, pi) := exchange (length tosort) tosort vp pl (pr - 1) in
  (swap tosort pi (pr - 1), pi).

(** The inner loop of the insertion sort: the positions before [pj] whose
    key is greater than that of [vi] move up by one, then [vi] is put
    down. *)
Fixpoint shift (fuel : nat) (tosort : list nat) (vi : nat) (pl pj : nat)
  : list nat :=
  match fuel with
  | O => <[pj := vi]> tosort
  | S fuel' =>
      if (pl <? pj)%nat && (key vi <? key (item tosort (pj - 1)))
      then shift fuel' (<[pj := item tosort (pj - 1)]> tosort) vi pl (pj - 1)
      else <[pj := vi]> tosort
  end.

Fixpoint insertion (count : nat) (tosort : list nat) (pl pi : nat)
  : list nat :=
  match count with
  | O => tosort
  | S count' =>
      insertion count'
        (shift (length tosort) tosort (item tosort pi) pl pi) pl (S pi)
  end.

Definition insertion_sort (tosort : list nat) (pl pr : nat) : list nat :=
  insertion (pr - pl) tosort pl (S pl).

(** The heap sort of the positions [pl .. pr]; it counts them from 1. *)
Definition hitem (tosort : list nat) (pl i : nat) : nat :=
  item tosort (pl + i - 1).

Definition hset (tosort : list nat) (pl i : nat) (x : nat) : list nat :=
  <[(pl + i - 1)%nat := x]> tosort.

Fixpoint sift (fuel : nat) (tosort : list nat) (pl : nat) (tmp : nat)
    (i j n : nat) : list nat :=
  match fuel with
  | O => hset tosort pl i tmp
  | S fuel' =>
      if (j <=? n)%nat then
        let j := if (j <? n)%nat
                    && (key (hitem tosort pl j) <? key (hitem tosort pl (j + 1)))
                 then (j + 1)%nat else j in
        if key tmp <? key (hitem tosort pl j)
        then sift fuel' (hset tosort pl i (hitem tosort pl j)) pl tmp
               j (j + j) n
        else hset tosort pl i tmp
      else hset tosort pl i tmp
  end.

Fixpoint heapify (l : nat) (tosort : list nat) (pl n : nat) : list nat :=
  match l with
  | O => tosort
  | S l' =>
      heapify l' (sift n tosort pl (hitem tosort pl l) l (l + l) n) pl n
  end.

Fixpoint drain (n : nat) (tosort : list nat) (pl : nat) : list nat :=
  match n with
  | S (S _ as n') =>
      let tmp := hitem tosort pl n in
      let tosort := hset tosort pl n (hitem tosort pl 1) in
      drain n' (sift n' tosort pl tmp 1 2 n') pl
  | _ => tosort
  end.

Definition heapsort (tosort : list nat) (pl pr : nat) : list nat :=
  let n := (pr - pl + 1)%nat in
  drain n (heapify (n / 2) tosort pl n) pl.

(** The outer loop.  The depth allowance is looked at when a piece is
    taken up, not between the partitions of that piece; the larger part
    of a partition waits on the stack with the allowance left. *)
Fixpoint loop (fuel : nat) (tosort : list nat) (pl pr : nat) (cdepth : Z)
    (stack : list (nat * nat * Z)) (partitioning : bool) : list nat :=
  match fuel with
  | O => tosort
  | S fuel' =>
      let stack_pop tosort :=
        match stack with
        | [] => tosort
        | (pl', pr', cdepth') :: stack' =>
            loop fuel' tosort pl' pr' cdepth' stack' false
        end in
      if negb partitioning && (cdepth <? 0)
      then stack_pop (heapsort tosort pl pr)
      else if (SMALL_QUICKSORT <? pr - pl)%nat then
        let '(tosort, pi) := partition tosort pl pr in
        let cdepth := cdepth - 1 in
        if (pi - pl <? pr - pi)%nat
        then loop fuel' tosort pl (pi - 1) cdepth
               ((S pi, pr, cdepth) :: stack) true
        else loop fuel' tosort (S pi) pr cdepth
               ((pl, (pi - 1)%nat, cdepth) :: stack) true
      else stack_pop (insertion_sort tosort pl pr)
  end.

End Sort.

(** [aquicksort]: the positions 0 .. num-1, sorted by key.  Every round
    of the loop finishes a piece or splits one, so twice the length is
    fuel enough. *)
Definition aquicksort (v : list Z) : list nat :=
  let num := length v in
  loop v (2 * num + 1) (seq 0 num) 0 (num - 1)
    (2 * Z.log2 (Z.of_nat num)) [] false.

End Npysort.

(** A pattern without special characters matches exactly where it occurs
    as a substring. *)
Fixpoint occurs_in (pattern text : string) : bool :=
  String.prefix pattern text ||
  match text with
  | EmptyString => false
  | String _ text' => occurs_in pattern text'
  end.

(** The output definitions of the script's template set-up. *)
Definition eneco_outputFiles : list OutputFileDefinition :=
  [ mkOutputFileDefinition "elec_feed_in_tariff_1_high_resolution.csv"
      "Meterstand hoogtarief (El 2)" [] false;
    mkOutputFileDefinition "elec_feed_in_tariff_2_high_resolution.csv"
      "Meterstand laagtarief (El 1)" [] false;
    mkOutputFileDefinition "elec_feed_out_tariff_1_high_resolution.csv"
      "Meterstand hoogtarief (El 4)" [] false;
    mkOutputFileDefinition "elec_feed_out_tariff_2_high_resolution.csv"
      "Meterstand laagtarief (El 3)" [] false;
    mkOutputFileDefinition "gas_high_resolution.csv" "Meterstand" [] false ].

(** An environment for the examples: the rounding and the sort are chosen
    per example, patterns are plain words, no input file exists.  No
    example reads the text of a float or of a timestamp. *)
Definition example_env (rounding : float → float) (sort : list Z → list nat)
  : Environment :=
  {| round_3 := rounding;
     float_str := λ _, "";
     time_str := λ _, "";
     regex := string;
     re_compile := Some;
     re_search := occurs_in;
     argsort := sort;
     glob := λ _, [];
     splitext := λ _, inputFileNameExtension;
     read_table := λ _, Raise ValueError;
     outputFiles := eneco_outputFiles |}.

Definition python_env : Environment := example_env round3 stable_argsort.

(** Sixty keys in no particular order, with repetitions. *)
Definition sample_keys : list Z := (λ i, (i * 7919) mod 41) <$> seqZ 0 60.

(** Forty keys on which the partitions stay lopsided until the depth
    allowance is used up. *)
Definition lopsided_keys : list Z :=
  [0; 20; 2; 40; 4; 22; 6; 40; 8; 40; 10; 40; 12; 40; 14; 40; 16; 40; 18; 1;
   3; 5; 7; 9; 11; 13; 15; 17; 19; 21; 23; 40; 40; 40; 40; 40; 40; 40; 40; 40].

(** The same with numpy's quicksort as the sort. *)
Definition quicksort_env : Environment :=
  example_env round3 Npysort.aquicksort.
Definition numpy_env : Environment := example_env np_round3 stable_argsort.

(** A one-column frame with the labels 0, 1, 2, ... *)
Definition frame_of (c : string) (vs : list value) : DataFrame :=
  mkDataFrame [c] (imap (λ i v, (Z.of_nat i, {[ c := v ]})) vs).

(** A state with one frame object and nothing printed or written. *)
Definition world_of (d : DataFrame) : World := mkWorld [d] ∅ [].

(** The cells of column [c] of frame object [r] after a run. *)
Definition column_after {A} (run : result A * World) (r : ref) (c : string)
  : option (list value) :=
  (λ d, cells c (rows d)) <$> heap run.2 !! r.

Definition scenario_a : DataFrame :=
  frame_of "v" [VFloat (of_Z 10); VFloat (of_Z 5); VFloat nan].

(** ** A prepared frame and some output definitions *)

Definition reading (label seconds : Z) (kind : string) (v : float)
  : Z * gmap string value :=
  (label, list_to_map [ (inputFileDateColumnName, VInt seconds);
                        ("Type", VStr kind);
                        ("Meterstand", VFloat v) ]).

Definition prepared : DataFrame :=
  mkDataFrame [inputFileDateColumnName; "Type"; "Meterstand"]
    [ reading 0 1577836800 "High" (of_Z 10);
      reading 1 1577923200 "Low" (of_Z 5);
      reading 2 1578009600 "High" (of_Z 7) ].

Definition high_only : DataFilter := mkDataFilter "Type" "High" true.

Definition run_output {E : Environment} (o : OutputFileDefinition) : M unit :=
  generateImportDataFile 0%nat (outputFileName o) (valueColumnName o)
    (dataFilters o) (recalculate o).

Definition not_low : DataFilter := mkDataFilter "Type" "Low" false.
Definition from_2020 : DataFilter :=
  mkDataFilter inputFileDateColumnName "15780" true.

Definition water : OutputFileDefinition :=
  mkOutputFileDefinition "water.csv" "Water" [] false.
Definition meter : OutputFileDefinition :=
  mkOutputFileDefinition "meter.csv" "Meterstand" [] false.

Definition by_tariff : DataFilter := mkDataFilter "Tariff" "High" true.
Definition filtered_meter : OutputFileDefinition :=
  mkOutputFileDefinition "filtered.csv" "Meterstand" [high_only; by_tariff] false.

(** ** Raw tables for the assembly *)

Definition raw_reading (label d m y : Z) (v : float) : Z * gmap string value :=
  (label, list_to_map [ (inputFileDateColumnName, VTime (Some (strptime_dmy d m y)));
                        ("Meterstand", VFloat v) ]).

(** Rows dated 02-01-2020, 01-01-1960 and 01-01-2020. *)
Definition raw_table : DataFrame :=
  mkDataFrame [inputFileDateColumnName; "Meterstand"]
    [ raw_reading 0 2 1 2020 (of_Z 5);
      raw_reading 1 1 1 1960 (of_Z 3);
      raw_reading 2 1 1 2020 (of_Z 10) ].

(** Two rows of the same day. *)
Definition same_day_table : DataFrame :=
  mkDataFrame [inputFileDateColumnName; "Meterstand"]
    [ raw_reading 0 1 1 2020 (of_Z 10);
      raw_reading 1 1 1 2020 (of_Z 5) ].

(** Eighteen readings of the same day, 1 to 18, labelled 0 to 17. *)
Definition same_day_readings : DataFrame :=
  mkDataFrame [inputFileDateColumnName; "Meterstand"]
    (imap (λ i v, raw_reading (Z.of_nat i) 1 1 2020 (of_Z v)) (seqZ 1 18)).

(** * Notions for the further properties *)

(** The lines [generateImportDataFile] writes for value column [c]: the
    frame narrowed to the date column and [c], one line per row. *)
Definition export_lines (d : DataFrame) (c : string) : list (list value) :=
  csv_lines (filter_items d [inputFileDateColumnName; c]).

(** An output definition without filters and without recalculation, as all
    five of the template's are. *)
Definition plain (o : OutputFileDefinition) : Prop :=
  dataFilters o = [] ∧ recalculate o = false.

(** The files after the output loop has gone through plain definitions on
    frame [d]: a definition whose value column exists writes its file, a
    line for every row of the frame, over whatever was there. *)
Definition written (d : DataFrame) (outputs : list OutputFileDefinition)
    (fs : gmap string (list (list value))) : gmap string (list (list value)) :=
  foldl (λ fs o, if has_column d (valueColumnName o)
                 then <[outputFileName o :=
                          line_of (valueColumnName o) <$> rows d]> fs
                 else fs)
    fs outputs.

(** The lines [readInputFile] prints for a list of files. *)
Definition loading_lines (fileNames : list string) : list string :=
  (λ f, "Loading data: " +:+ f) <$> fileNames.

(** A computation that, started with at least [n] frame objects, leaves
    the first [n] as they are, never drops an object, and returns only
    values that satisfy [Q]. *)
Definition keeps_frames_below {A} (n : nat) (Q : A → Prop) (m : M A) : Prop :=
  ∀ w, (n ≤ length (heap w))%nat →
       (n ≤ length (heap (m w).2))%nat ∧
       (∀ i, (i < n)%nat → heap (m w).2 !! i = heap w !! i) ∧
       (∀ a, (m w).1 = Ok a → Q a).

(** A computation that changes no file outside [names]. *)
Definition writes_only {A} (names : list string) (m : M A) : Prop :=
  ∀ w name, name ∉ names → files (m w).2 !! name = files w !! name.

(** The text of a file name from its last dot (character 46) on. *)
Fixpoint ext_of (s : string) : string :=
  match s with
  | EmptyString => EmptyString
  | String a s' =>
      match ext_of s' with
      | EmptyString => if Ascii.eqb a (Ascii.ascii_of_nat 46) then s else EmptyString
      | e => e
      end
  end.

(** An environment with files: every pattern finds all of them. *)
Definition disk_env (disk : list (string * result DataFrame))
    (outputs : list OutputFileDefinition) : Environment :=
  {| round_3 := round3;
     float_str := λ _, "";
     time_str := λ _, "";
     regex := string;
     re_compile := Some;
     re_search := occurs_in;
     argsort := stable_argsort;
     glob := λ _, disk.*1;
     splitext := ext_of;
     read_table := λ f, default (Raise ValueError)
                          ((list_to_map disk : gmap string (result DataFrame)) !! f);
     outputFiles := outputs |}.

(** An environment in which the pattern "(" does not compile. *)
Definition picky_env : Environment :=
  {| round_3 := round3;
     float_str := λ _, "";
     time_str := λ _, "";
     regex := string;
     re_compile := λ p, if String.eqb p "(" then None else Some p;
     re_search := occurs_in;
     argsort := stable_argsort;
     glob := λ _, [];
     splitext := λ _, inputFileNameExtension;
     read_table := λ _, Raise ValueError;
     outputFiles := eneco_outputFiles |}.

Definition unbalanced : DataFilter := mkDataFilter "Type" "(" true.
Definition not_high : DataFilter := mkDataFilter "Type" "High" false.

(** The date conversion is exact on [count] consecutive days from [day]
    on: midnight of each, as nanoseconds, comes out as its seconds. *)
Fixpoint days_exact (count : nat) (day : Z) : bool :=
  match count with
  | O => true
  | S count' =>
      (to_unix (day * 86400 * 1000000000) =? day * 86400)
      && days_exact count' (day + 1)
  end.

(** The row's date cell is midnight of some day. *)
Definition at_midnight (r : Z * gmap string value) : Prop :=
  ∃ day, timestamp r = Some (day * 86400 * 1000000000).

(** A table with a cell in the date column that is no date. *)
Definition undated_table : DataFrame :=
  mkDataFrame [inputFileDateColumnName; "Meterstand"]
    [ raw_reading 0 2 1 2020 (of_Z 5);
      (1, list_to_map [ (inputFileDateColumnName, VStr "yesterday");
                        ("Meterstand", VFloat (of_Z 6)) ]) ].

(** One more raw table, dated 03-01-2020 and 05-01-2020. *)
Definition later_table : DataFrame :=
  mkDataFrame [inputFileDateColumnName; "Meterstand"]
    [ raw_reading 0 5 1 2020 (of_Z 12);
      raw_reading 1 3 1 2020 (of_Z 11) ].

(** A value column with a text cell in its third row. *)
Definition mixed_column : DataFrame :=
  frame_of "v" [VFloat (of_Z 10); VFloat (of_Z 5); VStr "n/a"; VFloat (of_Z 7)].

(** Three files, the second of which cannot be loaded. *)
Definition broken_disk : list (string * result DataFrame) :=
  [ ("jan.xlsx", Ok raw_table);
    ("feb.xlsx", Raise ValueError);
    ("mar.xlsx", Ok later_table) ].

Definition high_total : OutputFileDefinition :=
  mkOutputFileDefinition "high.csv" "Meterstand" [high_only] true.


(** A table whose readings are whole numbers, dated 05-01-2020 and
    03-01-2020, and a disk that holds it beside a table of floats. *)
Definition whole_number_table : DataFrame :=
  mkDataFrame ["Meterstand"; inputFileDateColumnName]
    [ (0, list_to_map [ (inputFileDateColumnName,
                         VTime (Some (strptime_dmy 5 1 2020)));
                        ("Meterstand", VInt 12) ]);
      (1, list_to_map [ (inputFileDateColumnName,
                         VTime (Some (strptime_dmy 3 1 2020)));
                        ("Meterstand", VInt 11) ]) ].

Definition mixed_disk : list (string * result DataFrame) :=
  [ ("jan.xlsx", Ok raw_table); ("mar.xlsx", Ok whole_number_table) ].

(** * Properties *)

(** Decide a closed decidable statement by evaluating its decision. *)
Ltac by_computation :=
  match goal with
  | |- ?P => apply (@bool_decide_unpack P _); vm_compute; exact I
  end.

(** Each listed filter names a column of the frame and a pattern that
    compiles. *)
Ltac usable_filters :=
  repeat (apply Forall_cons; split;
          [split; [by_computation|by eexists]|]);
  constructor.



(** ** Arithmetic checks *)

(** The two roundings differ on some values, for instance on 2.6755. *)
Example roundings_differ :
  round3 (of_ratio 26755 10000) = of_ratio 2675 1000 ∧
  np_round3 (of_ratio 26755 10000) = of_ratio 2676 1000.
Proof. split; vm_compute; reflexivity. Qed.

(** The bounds of [prepareData] as unix timestamps. *)
Example bounds_as_unix :
  to_unix (strptime_dmy 1 1 1970) = 0 ∧
  to_unix (strptime_dmy 31 12 2099) = 4102358400.
Proof. split; vm_compute; reflexivity. Qed.

(** ** Running the monad *)

Lemma bind_run {A B} (m : M A) (f : A → M B) w :
  (m ≫= f) w = match m w with
               | (Ok a, w') => f a w'
               | (Raise e, w') => (Raise e, w')
               end.
Proof. reflexivity. Qed.

Lemma bind_ok {A B} (m : M A) (f : A → M B) w a w' :
  m w = (Ok a, w') → (m ≫= f) w = f a w'.
Proof. intros H. by rewrite bind_run, H. Qed.

Lemma load_run df d w : heap w !! df = Some d → load df w = (Ok d, w).
Proof. intros H. unfold load. by rewrite H. Qed.

Lemma with_heap_id w : with_heap w (heap w) = w.
Proof. by destruct w. Qed.

Lemma at_run df d l c w :
  heap w !! df = Some d → at_ df l c w = (at_get d l c, w).
Proof. intros H. unfold at_. by rewrite (bind_ok _ _ _ _ _ (load_run _ _ _ H)). Qed.

Lemma set_at_run df d l c v w :
  heap w !! df = Some d →
  set_at df l c v w = (Ok (), with_heap w (<[df := at_set d l c v]> (heap w))).
Proof.
  intros H. unfold set_at. by rewrite (bind_ok _ _ _ _ _ (load_run _ _ _ H)).
Qed.

Lemma heap_insert_lookup (h : list DataFrame) df d d' :
  h !! df = Some d → <[df := d']> h !! df = Some d'.
Proof. intros H. apply list_lookup_insert_eq. by eapply lookup_lt_Some. Qed.

(** The monadic loop only ever touches the frame object [df], and does to
    it what [loop_on_frame] does. *)
Lemma recalculate_loop_on_frame {E : Environment} df c labels :
  ∀ prev w d,
    heap w !! df = Some d →
    recalculate_loop df c labels prev w =
      ((loop_on_frame d c labels prev).1,
       with_heap w (<[df := (loop_on_frame d c labels prev).2]> (heap w))).
Proof.
  induction labels as [|l labels IH]; intros prev w d Hd;
    cbn [recalculate_loop loop_on_frame].
  - cbn. rewrite (list_insert_id _ _ _ Hd), with_heap_id. reflexivity.
  - assert (Hid : ∀ w' d', heap w' !! df = Some d' →
                    w' = with_heap w' (<[df := d']> (heap w'))).
    { intros w' d' H. by rewrite (list_insert_id _ _ _ H), with_heap_id. }
    rewrite bind_run, (at_run _ _ l c _ Hd).
    destruct (at_get d l c) as [v|e]; [|cbn; f_equal; by apply Hid].
    rewrite bind_run. unfold lift at 1.
    destruct (isnan_value v) as [missing|e]; [|cbn; f_equal; by apply Hid].
    set (d1 := if missing then at_set d l c (VFloat zero) else d).
    set (w1 := with_heap w (<[df := d1]> (heap w))).
    assert (Hstep : (if missing then set_at df l c (VFloat zero) else mret ()) w
                    = (Ok (), w1)).
    { unfold w1, d1. destruct missing.
      - apply set_at_run, Hd.
      - cbn. f_equal. by apply Hid. }
    rewrite bind_run, Hstep.
    assert (Hd1 : heap w1 !! df = Some d1) by (eapply heap_insert_lookup, Hd).
    assert (Hw1 : ∀ d', with_heap w1 (<[df := d']> (heap w1))
                        = with_heap w (<[df := d']> (heap w))).
    { intros d'. unfold w1, with_heap. cbn. by rewrite list_insert_insert_eq. }
    rewrite bind_run.
    destruct (prev >? -1).
    + rewrite bind_run, (at_run _ _ l c _ Hd1).
      destruct (at_get d1 l c) as [a|e];
        [|cbn; f_equal; rewrite <- Hw1; by apply Hid].
      rewrite bind_run, (at_run _ _ prev c _ Hd1).
      destruct (at_get d1 prev c) as [b|e];
        [|cbn; f_equal; rewrite <- Hw1; by apply Hid].
      rewrite bind_run. unfold lift at 1.
      destruct (add_value a b) as [s|e];
        [|cbn; f_equal; rewrite <- Hw1; by apply Hid].
      rewrite (set_at_run _ _ _ _ _ _ Hd1).
      rewrite (IH l _ (at_set d1 l c (round_value s)));
        [|eapply heap_insert_lookup, Hd1].
      f_equal. cbn [heap with_heap files stdout].
      rewrite list_insert_insert_eq. apply Hw1.
    + cbn [mret M_ret]. rewrite (IH l _ d1 Hd1). by rewrite Hw1.
Qed.

(** ** Reading and writing the one row that carries a label *)

Lemma filter_label_absent (l : Z) (rs : list (Z * gmap string value)) :
  l ∉ rs.*1 → filter (λ r, r.1 = l) rs = [].
Proof.
  induction rs as [|r rs IH]; intros Hl; [done|].
  rewrite fmap_cons, not_elem_of_cons in Hl. destruct Hl as [Hne Hl].
  rewrite filter_cons_False by (intros H; by apply Hne). by apply IH.
Qed.

Lemma at_get_unique cols pre l r post c :
  c ∈ cols → l ∉ pre.*1 → l ∉ post.*1 →
  at_get (mkDataFrame cols (pre ++ (l, r) :: post)) l c = Ok (cell r c).
Proof.
  intros Hc Hpre Hpost. unfold at_get, has_column. cbn [columns rows].
  rewrite bool_decide_eq_true_2 by done.
  rewrite filter_app, filter_cons_True by done.
  by rewrite !filter_label_absent by done.
Qed.

Lemma set_label_absent (l : Z) c v (rs : list (Z * gmap string value)) :
  l ∉ rs.*1 →
  (λ r, if bool_decide (r.1 = l) then (r.1, <[c := v]> r.2) else r) <$> rs = rs.
Proof.
  induction rs as [|r rs IH]; intros Hl; [done|].
  rewrite fmap_cons, not_elem_of_cons in Hl. destruct Hl as [Hne Hl].
  rewrite fmap_cons, IH by done.
  rewrite bool_decide_eq_false_2; [done|]. intros H. by apply Hne.
Qed.

Lemma at_set_unique cols pre l r post c v :
  l ∉ pre.*1 → l ∉ post.*1 →
  at_set (mkDataFrame cols (pre ++ (l, r) :: post)) l c v
  = mkDataFrame cols (pre ++ (l, <[c := v]> r) :: post).
Proof.
  intros Hpre Hpost. unfold at_set. cbn [columns rows]. f_equal.
  rewrite fmap_app, fmap_cons, !set_label_absent by done.
  by rewrite bool_decide_eq_true_2.
Qed.

Lemma cell_insert r c v : cell (<[c := v]> r) c = v.
Proof. unfold cell. by rewrite lookup_insert_eq. Qed.

Lemma at_set_same_outside c d l v : same_outside c d (at_set d l c v).
Proof.
  split; [done|]. unfold at_set. cbn [rows]. rewrite <- list_fmap_compose.
  apply list_fmap_ext. intros i [l' r] _. cbn.
  case_bool_decide; cbn; [|done]. by rewrite delete_insert_eq.
Qed.

Lemma same_outside_refl c d : same_outside c d d.
Proof. by split. Qed.

Lemma same_outside_trans c d1 d2 d3 :
  same_outside c d1 d2 → same_outside c d2 d3 → same_outside c d1 d3.
Proof. intros [H1 H2] [H3 H4]. split; congruence. Qed.

(** Whatever the loop does, and whether or not it completes, it leaves
    the columns, the labels and the cells of the other columns alone. *)
Lemma loop_on_frame_same_outside {E : Environment} c labels :
  ∀ d prev, same_outside c d (loop_on_frame d c labels prev).2.
Proof.
  induction labels as [|l labels IH]; intros d prev; cbn [loop_on_frame].
  - apply same_outside_refl.
  - destruct (at_get d l c) as [v|e]; [|apply same_outside_refl].
    destruct (isnan_value v) as [missing|e]; [|apply same_outside_refl].
    assert (H1 : same_outside c d
                   (if missing then at_set d l c (VFloat zero) else d)).
    { destruct missing; [apply at_set_same_outside|apply same_outside_refl]. }
    destruct (prev >? -1).
    + destruct (at_get _ l c) as [a|e]; [|exact H1].
      destruct (at_get _ prev c) as [b|e]; [|exact H1].
      destruct (add_value a b) as [s|e]; [|exact H1].
      eapply same_outside_trans; [exact H1|].
      eapply same_outside_trans; [apply at_set_same_outside|apply IH].
    + eapply same_outside_trans; [exact H1|apply IH].
Qed.

(** Binary64 addition commutes. *)
Lemma fadd_comm x y : fadd x y = fadd y x.
Proof.
  unfold fadd.
  destruct x as [[]|[]| |sx mx ex], y as [[]|[]| |sy my ey]; try reflexivity.
  cbn [SFadd]. by rewrite Z.min_comm, Z.add_comm.
Qed.

(** From the second row on: the loop stores the running totals. *)
Lemma loop_on_frame_totals {E : Environment} c cols todo :
  ∀ raws pre prevl prevr total,
    c ∈ cols →
    NoDup ((pre ++ (prevl, prevr) :: todo).*1) →
    Forall (λ l, -1 < l) (prevl :: todo.*1) →
    cell prevr c = VFloat total →
    cells c todo = VFloat <$> raws →
    ∃ todo',
      loop_on_frame (mkDataFrame cols (pre ++ (prevl, prevr) :: todo))
        c todo.*1 prevl
      = (Ok (), mkDataFrame cols (pre ++ (prevl, prevr) :: todo')) ∧
      cells c todo' = VFloat <$> running_totals round_3 total raws.
Proof.
  induction todo as [|[l r] todo IH];
    intros raws pre prevl prevr total Hc Hnd Hpos Htot Hraw.
  - destruct raws; [|done]. by exists [].
  - destruct raws as [|v raws]; [done|].
    injection Hraw as Hv Hraw. cbn in Hv.
    cbn [loop_on_frame fmap list_fmap fst].
    assert (Hsplit : ∀ (x : Z * gmap string value) t,
              pre ++ (prevl, prevr) :: x :: t = (pre ++ [(prevl, prevr)]) ++ x :: t)
      by (intros; by rewrite <- app_assoc).
    assert (Hnd' := Hnd).
    rewrite Hsplit, fmap_app, fmap_cons, NoDup_app in Hnd'.
    destruct Hnd' as (Hnd1 & Hdisj & Hnd2). apply NoDup_cons in Hnd2 as [Hl2 _].
    assert (Hl1 : l ∉ (pre ++ [(prevl, prevr)]).*1).
    { intros H. apply (Hdisj _ H). cbn. left. }
    assert (Hp : (prevl ∉ pre.*1) ∧ (prevl ∉ ((l, r) :: todo).*1)).
    { rewrite fmap_app, NoDup_app in Hnd. destruct Hnd as (_ & _ & Hnd).
      rewrite fmap_cons in Hnd. apply NoDup_cons in Hnd as [Hp2 _].
      split; [|exact Hp2].
      intros H. rewrite fmap_app in Hnd1. apply NoDup_app in Hnd1 as (_ & Hd & _).
      apply (Hd _ H). cbn. left. }
    destruct Hp as [Hp1 Hp2].
    rewrite Hsplit, at_get_unique by done. rewrite Hv. cbn [isnan_value].
    set (r1 := if isnan v then <[c := VFloat zero]> r else r).
    assert (Hd1 : (if isnan v
                   then at_set (mkDataFrame cols ((pre ++ [(prevl, prevr)]) ++ (l, r) :: todo))
                          l c (VFloat zero)
                   else mkDataFrame cols ((pre ++ [(prevl, prevr)]) ++ (l, r) :: todo))
                  = mkDataFrame cols ((pre ++ [(prevl, prevr)]) ++ (l, r1) :: todo)).
    { unfold r1. destruct (isnan v); [|done]. by apply at_set_unique. }
    rewrite Hd1.
    assert (Hr1 : cell r1 c = VFloat (raw_increment v)).
    { unfold r1, raw_increment. destruct (isnan v); [apply cell_insert|done]. }
    assert (Hgt : (prevl >? -1) = true).
    { apply Z.gtb_lt. by inversion Hpos. }
    rewrite Hgt, at_get_unique by done.
    rewrite <- Hsplit, at_get_unique by (cbn in *; done).
    rewrite Hr1, Htot. cbn [add_value round_value].
    rewrite Hsplit, at_set_unique by done.
    set (t := round_3 (fadd (raw_increment v) total)).
    destruct (IH raws (pre ++ [(prevl, prevr)]) l (<[c := VFloat t]> r1) t)
      as (todo' & Hrun & Hcells).
    + done.
    + unfold r1. rewrite <- Hsplit.
      replace ((pre ++ (prevl, prevr) :: (l, <[c := VFloat t]>
                (if isnan v then <[c := VFloat zero]> r else r)) :: todo).*1)
        with ((pre ++ (prevl, prevr) :: (l, r) :: todo).*1); [done|].
      by rewrite !fmap_app, !fmap_cons.
    + inversion Hpos; subst. done.
    + apply cell_insert.
    + done.
    + exists ((l, <[c := VFloat t]> r1) :: todo'). rewrite Hrun. split.
      * by rewrite <- app_assoc.
      * cbn. rewrite cell_insert. unfold cells in Hcells. rewrite Hcells.
        unfold t. by rewrite fadd_comm.
Qed.

Lemma same_outside_index c d d' : same_outside c d d' → index d' = index d.
Proof.
  intros [_ H]. unfold index.
  apply (f_equal (fmap fst)) in H. rewrite <- !list_fmap_compose in H. exact H.
Qed.

Lemma same_outside_cells c c' d d' :
  same_outside c d d' → c' ≠ c → cells c' (rows d') = cells c' (rows d).
Proof.
  intros [_ H] Hne. unfold cells.
  apply (f_equal (fmap (λ r : Z * gmap string value, cell r.2 c'))) in H.
  rewrite <- !list_fmap_compose in H.
  etrans; [|etrans; [exact H|]]; apply list_fmap_ext; intros i [l r] _; cbn;
    unfold cell; by rewrite lookup_delete_ne.
Qed.

(** [recalculateData] on a frame whose labels are distinct and not below
    zero, and whose value column holds floats: it returns the object it
    was given, having written the accumulated values into column [c] of
    that object and nothing else. *)
Lemma recalculateData_run {E : Environment} w df d c raws :
  heap w !! df = Some d →
  c ∈ columns d →
  NoDup (index d) →
  Forall (λ l, -1 < l) (index d) →
  cells c (rows d) = VFloat <$> raws →
  ∃ d',
    recalculateData df c w
    = (Ok df, with_heap w (<[df := d']> (heap w))) ∧
    same_outside c d d' ∧
    cells c (rows d') = VFloat <$> accumulated round_3 raws.
Proof.
  intros Hd Hc Hnd Hpos Hraw. unfold recalculateData.
  rewrite bind_run, (load_run _ _ _ Hd), bind_run.
  rewrite (recalculate_loop_on_frame _ _ _ _ _ _ Hd).
  pose proof (loop_on_frame_same_outside c (index d) d (-1)) as Hsame.
  destruct d as [cols rs]. unfold index in *. cbn [rows columns] in *.
  destruct rs as [|[l r] todo].
  { destruct raws; [|done]. cbn. eexists. split; [reflexivity|]. by split. }
  destruct raws as [|v raws]; [done|]. injection Hraw as Hv Hraw. cbn in Hv.
  rewrite fmap_cons in Hnd, Hpos. cbn [fst] in Hnd, Hpos.
  apply NoDup_cons in Hnd as Hnd'. destruct Hnd' as [Hl _].
  revert Hsame. cbn [fmap list_fmap fst loop_on_frame].
  pose proof (at_get_unique cols [] l r todo c Hc) as Hget. cbn [app] in Hget.
  rewrite Hget by (done || set_solver).
  rewrite Hv. cbn [isnan_value].
  replace (-1 >? -1) with false by reflexivity.
  set (r1 := if isnan v then <[c := VFloat zero]> r else r).
  assert (Hd1 : (if isnan v
                 then at_set (mkDataFrame cols ((l, r) :: todo)) l c (VFloat zero)
                 else mkDataFrame cols ((l, r) :: todo))
                = mkDataFrame cols ((l, r1) :: todo)).
  { unfold r1. destruct (isnan v); [|done].
    apply (at_set_unique cols [] l r todo c); [set_solver|done]. }
  rewrite Hd1.
  assert (Hr1 : cell r1 c = VFloat (raw_increment v)).
  { unfold r1, raw_increment. destruct (isnan v); [apply cell_insert|done]. }
  destruct (loop_on_frame_totals c cols todo raws [] l r1
              (raw_increment v)) as (todo' & Hrun & Hcells); try done.
  cbn [app] in Hrun. change (list_fmap _ _ fst todo) with (todo.*1).
  rewrite Hrun. intros Hsame. cbn [fst snd mret M_ret].
  eexists. split; [reflexivity|]. split; [exact Hsame|].
  unfold cells in *. cbn [rows accumulated]. rewrite !fmap_cons. cbn [snd].
  rewrite Hr1. f_equal. exact Hcells.
Qed.

(** C1.  On a frame as the pipeline builds it (distinct labels from 0 up,
    a float value column), [recalculateData] is the sequential fold of the
    specification: the first row keeps its value (0.0 when missing) and
    every later row stores the previous total plus its own raw value (0.0
    when missing), rounded to three decimals; the rows keep their order.
    For the values 10, 5, NaN the result is 10.0, 15.0, 15.0 under either
    rounding. *)
Theorem recalculateData_is_running_total {E : Environment} w df d c raws :
  heap w !! df = Some d →
  c ∈ columns d →
  NoDup (index d) →
  Forall (λ l, -1 < l) (index d) →
  cells c (rows d) = VFloat <$> raws →
  (∃ d',
     recalculateData df c w
     = (Ok df, with_heap w (<[df := d']> (heap w))) ∧
     index d' = index d ∧
     cells c (rows d') = VFloat <$> accumulated round_3 raws) ∧
  accumulated round3 [of_Z 10; of_Z 5; nan] = [of_Z 10; of_Z 15; of_Z 15] ∧
  accumulated np_round3 [of_Z 10; of_Z 5; nan] = [of_Z 10; of_Z 15; of_Z 15].
Proof.
  intros Hd Hc Hnd Hpos Hraw. split; [|split; vm_compute; reflexivity].
  destruct (recalculateData_run w df d c raws) as (d' & Hrun & Hs & Hv);
    try done.
  exists d'. split; [done|]. split; [|done]. by eapply same_outside_index.
Qed.

(** C10.  [recalculateData] keeps the number of rows, their labels and
    order, the column list and every cell outside the value column; in the
    interpreter state only the frame object it was given changes. *)
Theorem recalculateData_only_value_column {E : Environment} w df d c raws :
  heap w !! df = Some d →
  c ∈ columns d →
  NoDup (index d) →
  Forall (λ l, -1 < l) (index d) →
  cells c (rows d) = VFloat <$> raws →
  ∃ d',
    recalculateData df c w
    = (Ok df, with_heap w (<[df := d']> (heap w))) ∧
    length (rows d') = length (rows d) ∧
    index d' = index d ∧
    columns d' = columns d ∧
    ∀ c', c' ≠ c → cells c' (rows d') = cells c' (rows d).
Proof.
  intros Hd Hc Hnd Hpos Hraw.
  destruct (recalculateData_run w df d c raws) as (d' & Hrun & Hs & Hv);
    try done.
  exists d'. split; [done|].
  pose proof (same_outside_index _ _ _ Hs) as Hi.
  split; [|split; [done|split; [apply Hs|]]].
  - unfold index in Hi. apply (f_equal length) in Hi.
    by rewrite !length_fmap in Hi.
  - intros c' Hne. by eapply same_outside_cells.
Qed.

(** ** filterData *)

Section FilterFacts.

Context {E : Environment}.

Lemma select_rows_fmap {A} (p : A → bool) (l : list A) :
  select_rows l (p <$> l) = List.filter p l.
Proof.
  induction l as [|x l IH]; [done|]. cbn. destruct (p x); by rewrite IH.
Qed.

Lemma filter_filter_andb {A} (p q : A → bool) (l : list A) :
  List.filter q (List.filter p l) = List.filter (λ x, p x && q x) l.
Proof.
  induction l as [|x l IH]; [done|]. cbn.
  destruct (p x); cbn; [destruct (q x)|]; by rewrite IH.
Qed.

(** One filter step on a frame that can evaluate it. *)
Lemma filter_step d f :
  usable d f →
  ∃ series,
    str_contains d f = Ok series ∧
    select d (if equal f then series else negb <$> series)
    = mkDataFrame (columns d) (List.filter (λ r, filter_test f r.2) (rows d)).
Proof.
  intros [Hc [rx Hrx]]. unfold str_contains, getitem, has_column.
  rewrite bool_decide_eq_true_2, Hrx by done.
  eexists. split; [reflexivity|]. unfold select. f_equal.
  unfold filter_test. rewrite Hrx.
  destruct (equal f).
  - rewrite <- list_fmap_compose. apply select_rows_fmap.
  - rewrite <- !list_fmap_compose. apply select_rows_fmap.
Qed.

(** [filterData] never writes to an existing frame object: it only adds
    new ones.  Its result holds exactly the rows that pass every filter,
    in their input order, under the base frame's columns. *)
Lemma filterData_run filters :
  ∀ df d w,
    heap w !! df = Some d →
    Forall (usable d) filters →
    ∃ df' fresh,
      filterData df filters w = (Ok df', with_heap w (heap w ++ fresh)) ∧
      (heap w ++ fresh) !! df'
      = Some (mkDataFrame (columns d) (List.filter (passes filters) (rows d))) ∧
      (filters = [] → df' = df) ∧
      (filters ≠ [] → (length (heap w) ≤ df')%nat).
Proof.
  induction filters as [|f filters IH]; intros df d w Hd Hok.
  - exists df, []. cbn. rewrite app_nil_r, with_heap_id.
    split; [done|]. split; [|done].
    rewrite Hd. destruct d as [cols rs]. cbn. f_equal. f_equal.
    clear. induction rs as [|r rs IHrs]; [done|]. cbn. by rewrite <- IHrs.
  - apply Forall_cons in Hok as [Hf Hok].
    destruct (filter_step d f Hf) as (series & Hs & Hsel).
    cbn [filterData].
    rewrite bind_run, (load_run _ _ _ Hd), bind_run.
    unfold lift at 1. rewrite Hs, bind_run. unfold alloc at 1.
    rewrite Hsel.
    set (d1 := mkDataFrame (columns d)
                 (List.filter (λ r, filter_test f r.2) (rows d))).
    set (w1 := mkWorld (heap w ++ [d1]) (files w) (stdout w)).
    destruct (IH (length (heap w)) d1 w1) as (df' & fresh & Hrun & Hlook & _ & _).
    + unfold w1. cbn. by rewrite lookup_app_r, Nat.sub_diag.
    + exact Hok.
    + exists df', (d1 :: fresh). rewrite Hrun. unfold w1, with_heap. cbn.
      rewrite <- app_assoc. cbn. split; [done|].
      unfold w1 in Hlook. cbn in Hlook. rewrite <- app_assoc in Hlook.
      cbn in Hlook. rewrite Hlook. split; [|split; [done|]].
      * f_equal. f_equal. unfold d1. cbn. rewrite filter_filter_andb.
        reflexivity.
      * intros _. apply lookup_lt_Some in Hlook.
        destruct filters as [|f' filters'].
        -- cbn in Hrun. injection Hrun as -> _. lia.
        -- destruct (IH (length (heap w)) d1 w1) as (df2 & fresh2 & Hrun2 & _ & _ & Hge).
           ++ unfold w1. cbn. by rewrite lookup_app_r, Nat.sub_diag.
           ++ exact Hok.
           ++ rewrite Hrun in Hrun2. injection Hrun2 as -> _.
              specialize (Hge ltac:(done)). unfold w1 in Hge. cbn in Hge.
              rewrite length_app in Hge. cbn in Hge. lia.
Qed.

End FilterFacts.

Section FilterTheorems.

Context {E : Environment}.

Lemma passes_removelast filters r :
  passes filters r = true → passes (removelast filters) r = true.
Proof.
  unfold passes. induction filters as [|f [|f' filters] IH]; [done..|].
  intros H. apply andb_prop in H as [H1 H2].
  change (removelast (f :: f' :: filters)) with (f :: removelast (f' :: filters)).
  cbn [forallb]. rewrite H1. by apply IH.
Qed.

Lemma usable_removelast d filters :
  Forall (usable d) filters → Forall (usable d) (removelast filters).
Proof.
  induction filters as [|f [|f' filters] IH]; intros H; [done| constructor |].
  apply Forall_cons in H as [H1 H2].
  change (removelast (f :: f' :: filters)) with (f :: removelast (f' :: filters)).
  constructor; [done|by apply IH].
Qed.

Lemma filter_length_mono {A} (p q : A → bool) (l : list A) :
  (∀ x, p x = true → q x = true) →
  (length (List.filter p l) ≤ length (List.filter q l))%nat.
Proof.
  intros Hpq. induction l as [|x l IH]; [done|]. cbn.
  destruct (p x) eqn:Hp.
  - rewrite (Hpq _ Hp). cbn. lia.
  - destruct (q x); cbn; lia.
Qed.

(** C5.  With every filter column present and every pattern a regular
    expression, [filterData] returns a frame holding exactly the rows on
    which every filter's test holds, in input order; the test is a
    [re.search] on the text of the cell, inverted for an exclusive
    filter; the empty list returns the frame it was given.  An inclusive
    filter (Type, High) keeps the first and third of the rows High, Low,
    High. *)
Theorem filterData_keeps_rows_passing_every_filter filters df d w :
  heap w !! df = Some d →
  Forall (usable d) filters →
  (∃ df' fresh d',
     filterData df filters w = (Ok df', with_heap w (heap w ++ fresh)) ∧
     (heap w ++ fresh) !! df' = Some d' ∧
     columns d' = columns d ∧
     rows d' = List.filter (passes filters) (rows d) ∧
     ∀ r, r ∈ rows d' ↔
          r ∈ rows d ∧ Forall (λ f, filter_test f r.2 = true) filters) ∧
  filterData df [] w = (Ok df, w) ∧
  (∀ rx r1 r2 r3,
     re_compile "High" = Some rx →
     re_search rx "High" = true →
     re_search rx "Low" = false →
     cell r1 "Type" = VStr "High" →
     cell r2 "Type" = VStr "Low" →
     cell r3 "Type" = VStr "High" →
     List.filter (passes [mkDataFilter "Type" "High" true])
       [(0, r1); (1, r2); (2, r3)]
     = [(0, r1); (2, r3)]).
Proof.
  intros Hd Hok. split; [|split; [done|]].
  - destruct (filterData_run filters df d w Hd Hok)
      as (df' & fresh & Hrun & Hlook & _).
    eexists df', fresh, _. split; [exact Hrun|]. split; [exact Hlook|].
    cbn [columns rows]. split; [done|]. split; [done|].
    intros r. rewrite list_elem_of_In, filter_In, <- list_elem_of_In.
    unfold passes. rewrite forallb_forall, Forall_forall.
    split; intros [H1 H2]; (split; [done|]); intros f Hf; apply H2;
      by apply list_elem_of_In.
  - intros rx r1 r2 r3 Hrx Hhigh Hlow H1 H2 H3.
    unfold passes, filter_test. cbn. rewrite Hrx, H1, H2, H3. cbn.
    by rewrite Hhigh, Hlow.
Qed.

(** C6.  Dropping the last filter never loses a row: the frame filtered
    by [filters] has at most as many rows as the frame filtered by
    [filters[:-1]]. *)
Theorem filterData_row_count_narrows filters df d w :
  heap w !! df = Some d →
  Forall (usable d) filters →
  ∃ df1 w1 d1 df2 w2 d2,
    filterData df filters w = (Ok df1, w1) ∧
    heap w1 !! df1 = Some d1 ∧
    filterData df (removelast filters) w = (Ok df2, w2) ∧
    heap w2 !! df2 = Some d2 ∧
    (length (rows d1) ≤ length (rows d2))%nat.
Proof.
  intros Hd Hok.
  destruct (filterData_run filters df d w Hd Hok)
    as (df1 & fresh1 & Hrun1 & Hlook1 & _).
  destruct (filterData_run (removelast filters) df d w Hd
              (usable_removelast _ _ Hok))
    as (df2 & fresh2 & Hrun2 & Hlook2 & _).
  eexists df1, _, _, df2, _, _.
  split; [exact Hrun1|]. split; [exact Hlook1|].
  split; [exact Hrun2|]. split; [exact Hlook2|].
  cbn [rows]. apply filter_length_mono. intros r. apply passes_removelast.
Qed.

(** The first filter whose column the frame lacks stops [filterData]
    with a key error; the frames made for the filters before it stay on
    the heap, nothing else changes. *)
Lemma filterData_missing_column good :
  ∀ bad rest df d w,
    heap w !! df = Some d →
    Forall (usable d) good →
    column bad ∉ columns d →
    ∃ fresh,
      filterData df (good ++ bad :: rest) w
      = (Raise (KeyError (column bad)), with_heap w (heap w ++ fresh)).
Proof.
  induction good as [|f good IH]; intros bad rest df d w Hd Hok Hbad.
  - exists []. cbn [app filterData].
    rewrite bind_run, (load_run _ _ _ Hd), bind_run. unfold lift at 1.
    unfold str_contains, getitem, has_column.
    rewrite bool_decide_eq_false_2 by done.
    by rewrite app_nil_r, with_heap_id.
  - apply Forall_cons in Hok as [Hf Hok].
    destruct (filter_step d f Hf) as (series & Hs & Hsel).
    cbn [app filterData].
    rewrite bind_run, (load_run _ _ _ Hd), bind_run.
    unfold lift at 1. rewrite Hs, bind_run. unfold alloc at 1. rewrite Hsel.
    set (d1 := mkDataFrame (columns d)
                 (List.filter (λ r, filter_test f r.2) (rows d))).
    set (w1 := mkWorld (heap w ++ [d1]) (files w) (stdout w)).
    destruct (IH bad rest (length (heap w)) d1 w1) as (fresh & Hrun).
    + unfold w1. cbn. by rewrite lookup_app_r, Nat.sub_diag.
    + exact Hok.
    + exact Hbad.
    + exists (d1 :: fresh). rewrite Hrun. unfold w1, with_heap. cbn.
      by rewrite <- app_assoc.
Qed.

End FilterTheorems.

(** ** Nothing the script computes depends on the printed lines *)










Section StdoutFacts.

Context {E : Environment}.






End StdoutFacts.

(** ** generateImportDataFile and the output loop *)

Lemma cell_filter_keep (keep : list string) (m : gmap string value) c :
  c ∈ keep → cell (filter (λ kv, kv.1 ∈ keep) m) c = cell m c.
Proof.
  intros Hc. unfold cell. destruct (m !! c) as [v|] eqn:Hm.
  - by rewrite (map_lookup_filter_Some_2 _ _ _ _ Hm).
  - rewrite map_lookup_filter_None_2; [done|]. by left.
Qed.

Lemma first_occurrences_pair (a b : string) :
  first_occurrences [a; b] = if decide (b = a) then [a] else [a; b].
Proof.
  unfold first_occurrences. rewrite filter_nil.
  destruct (decide (b = a)) as [->|Hne].
  - by rewrite filter_cons_False, filter_nil by (by intros ?).
  - by rewrite filter_cons_True, filter_nil.
Qed.

Lemma export_lines_explicit d c :
  inputFileDateColumnName ∈ columns d →
  c ∈ columns d →
  export_lines d c = line_of c <$> rows d.
Proof.
  intros Hdate Hc. unfold export_lines, csv_lines, filter_items, line_of.
  cbn [columns rows].
  rewrite !filter_cons_True, filter_nil by done.
  rewrite first_occurrences_pair.
  rewrite <- list_fmap_compose. apply list_fmap_ext. intros i r _.
  destruct (decide (c = inputFileDateColumnName)) as [->|Hne]; cbn.
  - rewrite cell_filter_keep; [done|apply list_elem_of_here].
  - rewrite !cell_filter_keep; [done|..].
    + apply list_elem_of_further, list_elem_of_here.
    + apply list_elem_of_here.
Qed.

Lemma export_lines_two_columns d c :
  inputFileDateColumnName ∈ columns d →
  c ∈ columns d →
  c ≠ inputFileDateColumnName →
  export_lines d c
  = (λ r, [cell r.2 inputFileDateColumnName; cell r.2 c]) <$> rows d.
Proof.
  intros Hdate Hc Hne. rewrite export_lines_explicit by done.
  apply list_fmap_ext. intros i r _. unfold line_of.
  by rewrite decide_False.
Qed.

Section OutputTheorems.

Context {E : Environment}.

Lemma generateImportDataFile_skips w base d outputFile c filters rec :
  heap w !! base = Some d →
  c ∉ columns d →
  generateImportDataFile base outputFile c filters rec w
  = (Ok (), printed w (skip_message outputFile c)).
Proof.
  intros Hd Hc. unfold generateImportDataFile.
  rewrite bind_run, (load_run _ _ _ Hd). unfold has_column.
  by rewrite bool_decide_eq_false_2.
Qed.

(** The end of [generateImportDataFile]: narrowing the selected frame to
    two columns and writing it. *)
Lemma export_run w df dsel outputFile c :
  heap w !! df = Some dsel →
  (selected ← load df;
   narrowed ← alloc (filter_items selected [inputFileDateColumnName; c]);
   to_csv narrowed outputFile) w
  = (Ok (),
     mkWorld (heap w ++ [filter_items dsel [inputFileDateColumnName; c]])
       (<[outputFile := export_lines dsel c]> (files w)) (stdout w)).
Proof.
  intros Hd. rewrite bind_run, (load_run _ _ _ Hd), bind_run.
  unfold alloc at 1. unfold to_csv. rewrite bind_run. unfold load.
  cbn [heap files stdout]. by rewrite lookup_app_r, Nat.sub_diag.
Qed.

(** A call that does not recalculate, on a frame that has the value
    column, the date column and every filter's column. *)
Lemma generateImportDataFile_run w base d outputFile c filters :
  heap w !! base = Some d →
  c ∈ columns d →
  inputFileDateColumnName ∈ columns d →
  Forall (usable d) filters →
  ∃ w',
    generateImportDataFile base outputFile c filters false w = (Ok (), w') ∧
    files w'
    = <[outputFile := line_of c <$> List.filter (passes filters) (rows d)]>
        (files w) ∧
    stdout w' = stdout w ++ ["Creating file: " +:+ outputFile] ∧
    heap w' !! base = Some d.
Proof.
  intros Hd Hc Hdate Hok. unfold generateImportDataFile.
  rewrite bind_run, (load_run _ _ _ Hd). unfold has_column.
  rewrite bool_decide_eq_true_2 by done.
  rewrite bind_run. unfold print at 1. rewrite bind_run.
  set (w0 := mkWorld (heap w) (files w) _).
  destruct (filterData_run filters base d w0 Hd Hok)
    as (df' & fresh & Hrun & Hlook & _).
  rewrite Hrun, bind_run. cbn [mret M_ret].
  erewrite export_run by exact Hlook.
  eexists. split; [reflexivity|]. cbn [heap files stdout with_heap w0].
  split; [|split; [done|]].
  - by rewrite export_lines_explicit.
  - rewrite <- app_assoc. by apply lookup_app_l_Some.
Qed.

(** The output loop over definitions that do not recalculate, on a frame
    that has the date column and every filter's column: the frame is left
    as it was, and the files are those of [produced]. *)
Lemma generate_all_produced base d outputs :
  inputFileDateColumnName ∈ columns d →
  ∀ w,
    heap w !! base = Some d →
    Forall (λ o, recalculate o = false ∧ Forall (usable d) (dataFilters o))
      outputs →
    ∃ w',
      generate_all base outputs w = (Ok (), w') ∧
      files w' = produced d outputs (files w) ∧
      heap w' !! base = Some d.
Proof.
  intros Hdate. induction outputs as [|o outputs IH]; intros w Hd Hall.
  - exists w. by repeat split.
  - apply Forall_cons in Hall as [[Hr Hok] Hall].
    assert (Hone : ∃ w1,
              generateImportDataFile base (outputFileName o) (valueColumnName o)
                (dataFilters o) (recalculate o) w = (Ok (), w1) ∧
              files w1 = (if has_column d (valueColumnName o)
                          then <[outputFileName o := output_lines d o]> (files w)
                          else files w) ∧
              heap w1 !! base = Some d).
    { rewrite Hr. destruct (has_column d (valueColumnName o)) eqn:Hcol;
        unfold has_column in Hcol.
      - apply bool_decide_eq_true in Hcol.
        destruct (generateImportDataFile_run w base d (outputFileName o)
                    (valueColumnName o) (dataFilters o) Hd Hcol Hdate Hok)
          as (w1 & Hrun & Hfiles & _ & Hbase).
        by exists w1.
      - apply bool_decide_eq_false in Hcol.
        rewrite (generateImportDataFile_skips w base d _ _ _ _ Hd Hcol).
        eexists. split; [reflexivity|]. by split. }
    destruct Hone as (w1 & Hone & Hfiles1 & Hbase1).
    destruct (IH w1 Hbase1 Hall) as (w' & Hrun & Hfiles & Hbase).
    exists w'. cbn [generate_all]. rewrite bind_run, Hone.
    split; [exact Hrun|]. split; [|exact Hbase].
    rewrite Hfiles, Hfiles1. reflexivity.
Qed.

Lemma produced_snoc d outputs o fs :
  produced d (outputs ++ [o]) fs
  = if has_column d (valueColumnName o)
    then <[outputFileName o := output_lines d o]> (produced d outputs fs)
    else produced d outputs fs.
Proof. unfold produced. by rewrite foldl_snoc. Qed.

(** A file that no definition names is as before. *)
Lemma produced_lookup_other d outputs fs name :
  name ∉ outputFileName <$> outputs →
  produced d outputs fs !! name = fs !! name.
Proof.
  induction outputs as [|o outputs IH] using rev_ind; intros Hname; [done|].
  rewrite fmap_app, not_elem_of_app in Hname. destruct Hname as [Hrest Ho].
  rewrite produced_snoc.
  destruct (has_column d (valueColumnName o)); [|by apply IH].
  rewrite lookup_insert_ne; [by apply IH|].
  intros Heq. apply Ho. cbn. rewrite Heq. apply list_elem_of_here.
Qed.

(** The file of a definition whose value column exists holds that
    definition's lines, when no other definition has the same file name. *)
Lemma produced_lookup d outputs fs o :
  o ∈ outputs →
  valueColumnName o ∈ columns d →
  (∀ o', o' ∈ outputs → outputFileName o' = outputFileName o → o' = o) →
  produced d outputs fs !! outputFileName o = Some (output_lines d o).
Proof.
  induction outputs as [|x outputs IH] using rev_ind; intros Ho Hc Huniq.
  { by apply elem_of_nil in Ho. }
  rewrite produced_snoc.
  destruct (decide (outputFileName x = outputFileName o)) as [Heq|Hne].
  - assert (x = o) as ->.
    { apply Huniq; [|done]. apply elem_of_app. right. apply list_elem_of_here. }
    unfold has_column. rewrite bool_decide_eq_true_2 by done.
    by rewrite lookup_insert_eq.
  - assert (Hin : o ∈ outputs).
    { apply elem_of_app in Ho as [Ho|Ho]; [done|].
      apply list_elem_of_singleton in Ho. congruence. }
    assert (IH' : produced d outputs fs !! outputFileName o
                  = Some (output_lines d o)).
    { apply IH; [done|done|]. intros o' Ho'. apply Huniq.
      apply elem_of_app. by left. }
    destruct (has_column d (valueColumnName x)); [|done].
    by rewrite lookup_insert_ne.
Qed.


Lemma generateImportDataFile_missing_filter_column
    w base d outputFile c rec good bad rest :
  heap w !! base = Some d →
  c ∈ columns d →
  Forall (usable d) good →
  column bad ∉ columns d →
  ∃ w',
    generateImportDataFile base outputFile c (good ++ bad :: rest) rec w
    = (Raise (KeyError (column bad)), w') ∧
    files w' = files w.
Proof.
  intros Hd Hc Hok Hbad. unfold generateImportDataFile.
  rewrite bind_run, (load_run _ _ _ Hd). unfold has_column.
  rewrite bool_decide_eq_true_2 by done.
  rewrite bind_run. unfold print at 1. rewrite bind_run.
  set (w1 := mkWorld (heap w) (files w) _).
  destruct (filterData_missing_column good bad rest base d w1) as (fresh & Hrun);
    try done.
  rewrite Hrun. eexists. split; [reflexivity|done].
Qed.

(** C9, as the script behaves.  A filter whose column the frame lacks
    makes [filterData] raise a key error.  Nothing catches it: the call
    for that output definition raises it, and so does the output loop,
    which therefore never reaches the remaining definitions; no file is
    written on the way. *)
Theorem missing_filter_column_aborts_the_run w base d o good bad rest remaining :
  heap w !! base = Some d →
  valueColumnName o ∈ columns d →
  dataFilters o = good ++ bad :: rest →
  Forall (usable d) good →
  column bad ∉ columns d →
  (∃ w', filterData base (dataFilters o) w
         = (Raise (KeyError (column bad)), w')) ∧
  (∃ w', generateImportDataFile base (outputFileName o) (valueColumnName o)
           (dataFilters o) (recalculate o) w
         = (Raise (KeyError (column bad)), w') ∧
         files w' = files w) ∧
  (∃ w', generate_all base (o :: remaining) w
         = (Raise (KeyError (column bad)), w') ∧
         files w' = files w).
Proof.
  intros Hd Hc Hf Hok Hbad. rewrite Hf.
  destruct (filterData_missing_column good bad rest base d w Hd Hok Hbad)
    as (fresh & Hrun).
  destruct (generateImportDataFile_missing_filter_column w base d
              (outputFileName o) (valueColumnName o) (recalculate o)
              good bad rest Hd Hc Hok Hbad) as (w' & Hgen & Hfiles).
  split; [by eexists|]. split; [by exists w'|].
  exists w'. split; [|done].
  cbn [generate_all]. rewrite bind_run, Hf, Hgen. reflexivity.
Qed.

End OutputTheorems.

(** ** prepareData *)

Section ListFacts.

Context {A B : Type}.

Lemma omap_lookup_seq_from (pre l : list A) :
  omap (λ i, (pre ++ l) !! i) (seq (length pre) (length l)) = l.
Proof.
  revert pre. induction l as [|x l IH]; intros pre; [done|].
  cbn [length seq omap list_omap]. rewrite list_lookup_middle by done.
  f_equal. specialize (IH (pre ++ [x])).
  rewrite <- app_assoc, length_app in IH. cbn in IH.
  by rewrite Nat.add_1_r in IH.
Qed.

Lemma omap_lookup_seq (l : list A) :
  omap (λ i, l !! i) (seq 0 (length l)) = l.
Proof. apply (omap_lookup_seq_from [] l). Qed.

Lemma omap_lookup_rearranged (l : list A) (σ : list nat) :
  σ ≡ₚ seq 0 (length l) → omap (λ i, l !! i) σ ≡ₚ l.
Proof. intros H. rewrite H. by rewrite omap_lookup_seq. Qed.

Lemma omap_lookup_fmap (f : A → B) (l : list A) (σ : list nat) :
  omap (λ i, (f <$> l) !! i) σ = f <$> omap (λ i, l !! i) σ.
Proof.
  induction σ as [|i σ IH]; [done|]. cbn [omap list_omap].
  rewrite list_lookup_fmap, IH. by destruct (l !! i).
Qed.

Lemma filter_all (P : A → Prop) `{∀ x, Decision (P x)} (l : list A) :
  Forall P l → filter P l = l.
Proof.
  induction 1 as [|x l Hx Hl IH]; [done|].
  by rewrite filter_cons_True, IH.
Qed.

Lemma filter_none (P : A → Prop) `{∀ x, Decision (P x)} (l : list A) :
  Forall (λ x, ¬ P x) l → filter P l = [].
Proof.
  induction 1 as [|x l Hx Hl IH]; [done|].
  by rewrite filter_cons_False, IH.
Qed.

Lemma traverse_fmap (f : A → result B) (g : A → B) (l : list A) :
  Forall (λ x, f x = Ok (g x)) l → traverse f l = Ok (g <$> l).
Proof.
  induction 1 as [|x l Hx Hl IH]; [done|]. cbn. by rewrite Hx, IH.
Qed.

Lemma zip_with_fmap_both {C D} (h : C → D → B) (f : A → C) (g : A → D)
    (l : list A) :
  zip_with h (f <$> l) (g <$> l) = (λ x, h (f x) (g x)) <$> l.
Proof. induction l as [|x l IH]; [done|]. cbn. by rewrite IH. Qed.

Lemma zip_with_fmap_self (h : A → B → A) (g : A → B) (l : list A) :
  zip_with h l (g <$> l) = (λ x, h x (g x)) <$> l.
Proof. induction l as [|x l IH]; [done|]. cbn. by rewrite IH. Qed.

End ListFacts.

Section PrepareFacts.

Context {E : Environment}.

(** With only present keys, [nargsort] is [argsort]. *)
Lemma nargsort_present (ks : list Z) :
  argsort ks ≡ₚ seq 0 (length ks) →
  nargsort (Some <$> ks) = argsort ks.
Proof.
  intros Hperm. unfold nargsort. rewrite length_fmap.
  assert (Hall : Forall (λ i, is_Some (mjoin ((Some <$> ks) !! i)))
                   (seq 0 (length ks))).
  { apply Forall_seq. intros i [_ Hi]. rewrite list_lookup_fmap.
    destruct (lookup_lt_is_Some_2 ks i Hi) as [k ->]. by eexists. }
  rewrite (filter_all _ _ Hall).
  rewrite (filter_none (λ i, ¬ is_Some (mjoin ((Some <$> ks) !! i)))).
  2:{ eapply Forall_impl; [exact Hall|]. intros i Hi Hn. by apply Hn. }
  rewrite app_nil_r.
  assert (Hks : omap id (Some <$> ks) = ks).
  { clear. induction ks as [|k ks IH]; [done|]. cbn. by rewrite IH. }
  rewrite Hks.
  assert (Hlt : Forall (λ i, (i < length ks)%nat) (argsort ks)).
  { rewrite Hperm. apply Forall_seq. intros; lia. }
  clear Hperm. induction Hlt as [|i σ Hi _ IH]; [done|].
  cbn [omap list_omap]. rewrite lookup_seq_lt by done. cbn. by rewrite IH.
Qed.

Lemma in_bounds_timestamp r :
  in_bounds r = true → ∃ t, cell r.2 inputFileDateColumnName = VTime (Some t).
Proof.
  unfold in_bounds, timestamp.
  destruct (cell r.2 inputFileDateColumnName) as [| | |[t|]]; try done.
  by exists t.
Qed.

Lemma correct_dates_run d :
  inputFileDateColumnName ∈ columns d →
  Forall (λ r, is_datetime (cell r.2 inputFileDateColumnName)) (rows d) →
  correct_dates d = Ok (in_bounds <$> rows d).
Proof.
  intros Hc Hdt. unfold correct_dates, getitem, has_column.
  rewrite bool_decide_eq_true_2 by done.
  rewrite (traverse_fmap _
             (λ v, match v with
                   | VTime (Some t) => strptime_dmy 1 1 1970 <=? t
                   | _ => false
                   end)).
  2:{ apply Forall_fmap. eapply Forall_impl; [exact Hdt|].
      intros r [[t|] Ht]; cbn; by rewrite Ht. }
  rewrite (traverse_fmap _
             (λ v, match v with
                   | VTime (Some t) => t <=? strptime_dmy 31 12 2099
                   | _ => false
                   end)).
  2:{ apply Forall_fmap. eapply Forall_impl; [exact Hdt|].
      intros r [[t|] Ht]; cbn; by rewrite Ht. }
  f_equal. rewrite zip_with_fmap_both, <- list_fmap_compose.
  apply list_fmap_ext. intros i r _. cbn. unfold in_bounds, timestamp.
  by destruct (cell r.2 inputFileDateColumnName) as [| | |[t|]].
Qed.

(** [prepareData] makes one new frame object and leaves the base frame
    alone.  The new frame holds the rows in bounds, rearranged so that
    their timestamps ascend, each with its date cell as a unix
    timestamp. *)
Lemma prepareData_run_keys w base d :
  sorts_keys argsort (dates_in_bounds d) →
  heap w !! base = Some d →
  inputFileDateColumnName ∈ columns d →
  Forall (λ r, is_datetime (cell r.2 inputFileDateColumnName)) (rows d) →
  ∃ sorted ks,
    prepareData base w
    = (Ok (length (heap w)),
       mkWorld (heap w ++ [mkDataFrame (columns d) (normalised <$> sorted)])
         (files w) (stdout w ++ ["Preparing data"])) ∧
    sorted ≡ₚ List.filter in_bounds (rows d) ∧
    timestamp <$> sorted = Some <$> ks ∧
    Sorted Z.le ks ∧
    sorted = omap (λ i, List.filter in_bounds (rows d) !! i)
               (argsort ((λ r, default 0 (timestamp r))
                           <$> List.filter in_bounds (rows d))).
Proof.
  unfold dates_in_bounds. intros Hkeys Hd Hc Hdt.
  set (rows1 := List.filter in_bounds (rows d)) in *.
  set (ks1 := (λ r, default 0 (timestamp r)) <$> rows1) in *.
  set (sorted := omap (λ i, rows1 !! i) (argsort ks1)).
  assert (Hin1 : Forall (λ r, in_bounds r = true) rows1).
  { apply Forall_forall. intros r Hr. apply list_elem_of_In in Hr.
    by apply filter_In in Hr as [_ Hr]. }
  assert (Hts1 : timestamp <$> rows1 = Some <$> ks1).
  { unfold ks1. rewrite <- list_fmap_compose. apply list_fmap_ext.
    intros i r Hr. cbn.
    assert (Hb : in_bounds r = true).
    { eapply (proj1 (Forall_forall _ _) Hin1), list_elem_of_lookup_2, Hr. }
    unfold in_bounds in Hb. by destruct (timestamp r). }
  destruct Hkeys as [Hperm Hsorted].
  assert (Hperm1 : sorted ≡ₚ rows1).
  { apply omap_lookup_rearranged. unfold ks1 in Hperm.
    by rewrite length_fmap in Hperm. }
  assert (Hin2 : Forall (λ r, in_bounds r = true) sorted) by by rewrite Hperm1.
  exists sorted, (omap (λ i, ks1 !! i) (argsort ks1)).
  split; [|split; [exact Hperm1|split; [|split; [exact Hsorted|done]]]].
  2:{ unfold sorted. rewrite <- omap_lookup_fmap, Hts1.
      by rewrite omap_lookup_fmap. }
  unfold prepareData.
  rewrite bind_run. unfold print at 1.
  rewrite bind_run. cbn [fst snd].
  rewrite (load_run base d) by exact Hd.
  rewrite bind_run. unfold lift at 1. rewrite (correct_dates_run d Hc Hdt).
  rewrite bind_run. unfold alloc at 1. cbn [heap files stdout].
  unfold select. rewrite select_rows_fmap. fold rows1.
  set (d1 := mkDataFrame (columns d) rows1).
  set (w1 := mkWorld (heap w ++ [d1]) _ _).
  assert (Hd1 : heap w1 !! length (heap w) = Some d1).
  { unfold w1. cbn. by rewrite lookup_app_r, Nat.sub_diag. }
  rewrite bind_run, (load_run _ _ _ Hd1).
  rewrite bind_run. unfold lift at 1.
  assert (Hsort : sort_values d1 inputFileDateColumnName
                  = Ok (mkDataFrame (columns d) sorted)).
  { unfold sort_values, getitem, has_column. cbn [columns rows d1].
    rewrite bool_decide_eq_true_2 by done.
    rewrite (traverse_fmap _ (λ v, match v with VTime t => t | _ => None end)).
    2:{ apply Forall_fmap. eapply Forall_impl; [exact Hin1|].
        intros r Hr. cbn. by destruct (in_bounds_timestamp r Hr) as [t ->]. }
    rewrite <- list_fmap_compose.
    change ((λ v, match v with VTime t => t | _ => None end)
            ∘ (λ r : Z * gmap string value, cell r.2 inputFileDateColumnName))
      with timestamp.
    rewrite Hts1, nargsort_present by exact Hperm. reflexivity. }
  rewrite Hsort, bind_run. unfold store at 1. cbn [heap files stdout].
  set (d2 := mkDataFrame (columns d) sorted).
  set (w2 := mkWorld (<[length (heap w) := d2]> (heap w1)) _ _).
  assert (Hd2 : heap w2 !! length (heap w) = Some d2).
  { unfold w2. cbn. eapply heap_insert_lookup, Hd1. }
  rewrite bind_run, (load_run _ _ _ Hd2).
  rewrite bind_run. unfold lift at 1.
  assert (Hunix : unix_column d2
                  = Ok ((λ r, VInt (to_unix (default int64_min (timestamp r))))
                          <$> sorted)).
  { unfold unix_column, getitem, has_column. cbn [columns rows d2].
    rewrite bool_decide_eq_true_2 by done.
    rewrite (traverse_fmap _
               (λ v, VInt (to_unix (default int64_min
                                      (match v with VTime t => t | _ => None end))))).
    2:{ apply Forall_fmap. eapply Forall_impl; [exact Hin2|].
        intros r Hr. cbn. by destruct (in_bounds_timestamp r Hr) as [t ->]. }
    by rewrite <- list_fmap_compose. }
  rewrite Hunix, bind_run. unfold store at 1. cbn [heap files stdout mret M_ret].
  f_equal. unfold w2, w1. cbn [heap files stdout]. f_equal.
  rewrite list_insert_insert_eq.
  rewrite insert_app_r_alt, Nat.sub_diag by done. cbn. f_equal. f_equal.
  unfold setitem, has_column. cbn [columns rows d2].
  rewrite bool_decide_eq_true_2 by done. f_equal.
  by rewrite zip_with_fmap_self.
Qed.

Lemma prepareData_run (Hsort : sorts_ascending argsort) w base d :
  heap w !! base = Some d →
  inputFileDateColumnName ∈ columns d →
  Forall (λ r, is_datetime (cell r.2 inputFileDateColumnName)) (rows d) →
  ∃ sorted ks,
    prepareData base w
    = (Ok (length (heap w)),
       mkWorld (heap w ++ [mkDataFrame (columns d) (normalised <$> sorted)])
         (files w) (stdout w ++ ["Preparing data"])) ∧
    sorted ≡ₚ List.filter in_bounds (rows d) ∧
    timestamp <$> sorted = Some <$> ks ∧
    Sorted Z.le ks ∧
    sorted = omap (λ i, List.filter in_bounds (rows d) !! i)
               (argsort ((λ r, default 0 (timestamp r))
                           <$> List.filter in_bounds (rows d))).
Proof. apply prepareData_run_keys, Hsort. Qed.

End PrepareFacts.

(** ** The labels of the frames that reach [recalculateData] *)

Lemma pipeline_labels_concat tables whole :
  concat tables = Ok whole → pipeline_labels whole.
Proof.
  unfold concat. destruct tables as [|t ts]; [done|]. intros [= <-].
  unfold pipeline_labels, index. cbn [rows].
  rewrite fmap_imap.
  rewrite (imap_ext _ (λ i _, Z.of_nat i)) by done.
  rewrite imap_seq_0. split.
  - apply NoDup_fmap_2; [apply _|apply NoDup_seq].
  - apply Forall_fmap, Forall_forall. intros i _. cbn. lia.
Qed.

Lemma pipeline_labels_filter (p : Z * gmap string value → bool) cols cols' rs :
  pipeline_labels (mkDataFrame cols rs) →
  pipeline_labels (mkDataFrame cols' (List.filter p rs)).
Proof.
  unfold pipeline_labels, index. cbn [rows]. intros [Hnd Hpos].
  assert (Hsub : (List.filter p rs).*1 `sublist_of` rs.*1).
  { clear. induction rs as [|r rs IH]; [done|]. cbn.
    destruct (p r); cbn; by constructor. }
  split; [by eapply sublist_NoDup|].
  apply Forall_forall. intros l Hl.
  by eapply (proj1 (Forall_forall _ _) Hpos), elem_of_sublist.
Qed.

Lemma pipeline_labels_rearranged d d' :
  index d' ≡ₚ index d → pipeline_labels d → pipeline_labels d'.
Proof. unfold pipeline_labels. intros ->. done. Qed.

(** The frame handed to [recalculateData] in a run, that is the assembled
    frame after [prepareData] and [filterData], has distinct labels, none
    below zero: the labels come from [pd.concat(..., ignore_index = True)]
    and are only ever dropped or rearranged. *)
Lemma pipeline_labels_reach_recalculateData
    {E : Environment} tables whole w base filters :
  sorts_ascending argsort →
  concat tables = Ok whole →
  heap w !! base = Some whole →
  inputFileDateColumnName ∈ columns whole →
  Forall (λ r, is_datetime (cell r.2 inputFileDateColumnName)) (rows whole) →
  Forall (usable whole) filters →
  ∃ df w1 df' w2 d',
    prepareData base w = (Ok df, w1) ∧
    filterData df filters w1 = (Ok df', w2) ∧
    heap w2 !! df' = Some d' ∧
    pipeline_labels d'.
Proof.
  intros Hsort Hcat Hd Hc Hdt Hok.
  destruct (prepareData_run Hsort w base whole Hd Hc Hdt)
    as (sorted & ks & Hrun & Hperm & _).
  set (d1 := mkDataFrame (columns whole) (normalised <$> sorted)) in *.
  set (w1 := mkWorld (heap w ++ [d1]) (files w) (stdout w ++ ["Preparing data"]))
    in *.
  assert (Hd1 : heap w1 !! length (heap w) = Some d1).
  { unfold w1. cbn. by rewrite lookup_app_r, Nat.sub_diag. }
  assert (Hl1 : pipeline_labels d1).
  { apply (pipeline_labels_rearranged
             (mkDataFrame (columns whole) (List.filter in_bounds (rows whole)))).
    - unfold index, d1. cbn [rows]. rewrite <- list_fmap_compose.
      by rewrite <- Hperm.
    - pose proof (pipeline_labels_concat _ _ Hcat) as Hwhole.
      destruct whole as [cols rs].
      exact (pipeline_labels_filter in_bounds cols cols rs Hwhole). }
  destruct (filterData_run filters (length (heap w)) d1 w1 Hd1 Hok)
    as (df' & fresh & Hfilter & Hlook & _).
  eexists _, _, df', _, _. split; [exact Hrun|]. split; [exact Hfilter|].
  split; [exact Hlook|].
  exact (pipeline_labels_filter (passes filters) (columns d1) (columns d1)
           (rows d1) Hl1).
Qed.

Lemma in_bounds_days dd mm yy r :
  timestamp r = Some (strptime_dmy dd mm yy) →
  in_bounds r = true ↔
  days_from_civil 1970 1 1 ≤ days_from_civil yy mm dd
                           ≤ days_from_civil 2099 12 31.
Proof.
  intros Ht. unfold in_bounds. rewrite Ht.
  rewrite andb_true_iff, !Z.leb_le. unfold strptime_dmy. lia.
Qed.

(** C8.  [prepareData] keeps exactly the rows whose date cell is a
    timestamp in [01-01-1970, 31-12-2099]: every such row is in the new
    frame, every row of the new frame is such a row, and with distinct
    labels no other row's label survives.  For a date read with
    [%d-%m-%Y] the bound is a bound on the day; a row dated 01-01-1960 is
    out of bounds, and so is left out. *)
Theorem prepareData_keeps_exactly_the_rows_in_bounds
    {E : Environment} w base d :
  sorts_ascending argsort →
  heap w !! base = Some d →
  inputFileDateColumnName ∈ columns d →
  Forall (λ r, is_datetime (cell r.2 inputFileDateColumnName)) (rows d) →
  ∃ df w' d',
    prepareData base w = (Ok df, w') ∧
    heap w' !! df = Some d' ∧
    index d' ≡ₚ (List.filter in_bounds (rows d)).*1 ∧
    (∀ r, r ∈ rows d → in_bounds r = true → normalised r ∈ rows d') ∧
    (∀ r', r' ∈ rows d' →
           ∃ r, r ∈ rows d ∧ in_bounds r = true ∧ r' = normalised r) ∧
    (NoDup (index d) →
     ∀ r, r ∈ rows d → in_bounds r = false → r.1 ∉ index d') ∧
    (∀ r dd mm yy,
       timestamp r = Some (strptime_dmy dd mm yy) →
       in_bounds r = true ↔
       days_from_civil 1970 1 1 ≤ days_from_civil yy mm dd
                                ≤ days_from_civil 2099 12 31) ∧
    (∀ r, timestamp r = Some (strptime_dmy 1 1 1960) → in_bounds r = false).
Proof.
  intros Hsort Hd Hc Hdt.
  destruct (prepareData_run Hsort w base d Hd Hc Hdt)
    as (sorted & ks & Hrun & Hperm & _).
  assert (Hmem : ∀ r, r ∈ sorted ↔ r ∈ rows d ∧ in_bounds r = true).
  { intros r. rewrite Hperm, list_elem_of_In, filter_In.
    by rewrite <- list_elem_of_In. }
  assert (Hidx : index (mkDataFrame (columns d) (normalised <$> sorted))
                 ≡ₚ (List.filter in_bounds (rows d)).*1).
  { unfold index. cbn [rows]. rewrite <- list_fmap_compose.
    rewrite <- Hperm. done. }
  eexists _, _, _. split; [exact Hrun|]. cbn [heap].
  split; [by rewrite lookup_app_r, Nat.sub_diag|].
  split; [exact Hidx|]. cbn [rows].
  split; [|split; [|split; [|split]]].
  - intros r Hr Hb. apply list_elem_of_fmap_2, Hmem. done.
  - intros r' Hr'. apply list_elem_of_fmap in Hr' as (r & -> & Hr).
    apply Hmem in Hr as [Hr Hb]. by exists r.
  - intros Hnd r Hr Hb Hin. rewrite Hidx in Hin.
    apply list_elem_of_fmap in Hin as (r2 & Heq & Hr2).
    apply list_elem_of_In, filter_In in Hr2 as [Hr2 Hb2].
    apply list_elem_of_In in Hr2.
    assert (r = r2); [|congruence].
    apply list_elem_of_lookup in Hr as [i Hi], Hr2 as [j Hj].
    assert (i = j); [|congruence].
    eapply NoDup_lookup; [exact Hnd| |]; unfold index;
      rewrite list_lookup_fmap; [by rewrite Hi|by rewrite Hj, Heq].
  - intros r dd mm yy. apply in_bounds_days.
  - intros r Ht. unfold in_bounds. rewrite Ht. reflexivity.
Qed.

(** * Concrete runs *)

#[global] Instance key_then_position_total : Total key_then_position.
Proof. intros a b. unfold key_then_position. lia. Qed.

Lemma Sorted_fmap_le {A} (R : relation A) (f : A → Z) (l : list A) :
  (∀ a b, R a b → f a ≤ f b) → Sorted R l → Sorted Z.le (f <$> l).
Proof.
  intros Hle. induction 1 as [|a l Hs IH Hhd]; [constructor|].
  cbn. constructor; [exact IH|].
  destruct Hhd as [|b l Hab]; constructor. by apply Hle.
Qed.

Lemma omap_lookup_pairs (keys : list Z) (ps : list (Z * nat)) :
  Forall (λ p, keys !! p.2 = Some p.1) ps →
  omap (λ i, keys !! i) ps.*2 = ps.*1.
Proof.
  induction 1 as [|[k i] ps Hp _ IH]; [done|].
  cbn in *. by rewrite Hp, IH.
Qed.

Lemma argsort_with_sorts (R : relation (Z * nat)) `{!RelDecision R, !Total R} :
  (∀ a b, R a b → a.1 ≤ b.1) → sorts_ascending (argsort_with R).
Proof.
  intros Hle keys. unfold argsort_with.
  set (ps := zip keys (seq 0 (length keys))).
  pose proof (merge_sort_Permutation R ps) as Hperm.
  split.
  - rewrite Hperm. unfold ps. rewrite snd_zip; [done|].
    by rewrite length_seq.
  - rewrite omap_lookup_pairs.
    + apply (Sorted_fmap_le R); [exact Hle|]. by apply Sorted_merge_sort.
    + rewrite Hperm. unfold ps. apply Forall_forall. intros [k i] Hki.
      apply list_elem_of_lookup in Hki as [j Hj].
      apply lookup_zip_with_Some in Hj as (k' & i' & Heq & Hk & Hi).
      injection Heq as -> ->. apply lookup_seq in Hi as [-> _]. exact Hk.
Qed.

(** The quicksort and its heap sort put the sample keys in order, and the
    quicksort does so too where it falls back on the heap sort. *)
Example aquicksort_sorts_sample_keys :
  sorts_keys Npysort.aquicksort sample_keys ∧
  sorts_keys (λ v, Npysort.heapsort v (seq 0 (length v)) 0 (length v - 1))
    sample_keys ∧
  sorts_keys Npysort.aquicksort lopsided_keys.
Proof. repeat split; by_computation. Qed.

Lemma stable_argsort_sorts : sorts_ascending stable_argsort.
Proof.
  apply (@argsort_with_sorts key_then_position _ _).
  intros a b. unfold key_then_position. lia.
Qed.

(** The accumulation of 10, 5, NaN, run through [recalculateData]. *)
Lemma recalculateData_is_running_total_witness :
  ∃ d',
    recalculateData (E := python_env) 0%nat "v" (world_of scenario_a)
    = (Ok 0%nat, with_heap (world_of scenario_a) [d']) ∧
    index d' = [0; 1; 2] ∧
    cells "v" (rows d') = [VFloat (of_Z 10); VFloat (of_Z 15); VFloat (of_Z 15)].
Proof.
  destruct (recalculateData_is_running_total (E := python_env)
              (world_of scenario_a) 0%nat scenario_a "v"
              [of_Z 10; of_Z 5; nan]) as [(d' & Hrun & Hi & Hv) _].
  - reflexivity.
  - unfold scenario_a, frame_of. cbn. set_solver.
  - by_computation.
  - by_computation.
  - reflexivity.
  - exists d'. split; [exact Hrun|]. split; [exact Hi|]. exact Hv.
Defined.

Lemma recalculateData_only_value_column_witness :
  ∃ d',
    recalculateData (E := python_env) 0%nat "v" (world_of scenario_a)
    = (Ok 0%nat, with_heap (world_of scenario_a) [d']) ∧
    length (rows d') = 3%nat ∧
    index d' = [0; 1; 2] ∧
    columns d' = ["v"] ∧
    ∀ c', c' ≠ "v" → cells c' (rows d') = cells c' (rows scenario_a).
Proof.
  apply (recalculateData_only_value_column (E := python_env)
           (world_of scenario_a) 0%nat scenario_a "v" [of_Z 10; of_Z 5; nan]).
  - reflexivity.
  - by_computation.
  - by_computation.
  - by_computation.
  - reflexivity.
Defined.

(** C2.  Non-negative raw values whose result decreases: 0.0004 then 0.0.
    The first row is stored as it is, 0.0004; the second row stores
    [round(0.0 + 0.0004, 3)], which is 0.0.  Both roundings agree. *)
Theorem recalculateData_decreases_after_unrounded_first_row :
  let raws := [of_ratio 4 10000; zero] in
  let table := frame_of "v" (VFloat <$> raws) in
  Forall (λ v, fleb zero v = true) raws ∧
  column_after (recalculateData (E := python_env) 0%nat "v" (world_of table))
    0%nat "v" = Some [VFloat (of_ratio 4 10000); VFloat zero] ∧
  column_after (recalculateData (E := numpy_env) 0%nat "v" (world_of table))
    0%nat "v" = Some [VFloat (of_ratio 4 10000); VFloat zero] ∧
  fleb (of_ratio 4 10000) zero = false.
Proof.
  cbv zeta. split; [by_computation|].
  split; [vm_compute; reflexivity|]. split; vm_compute; reflexivity.
Qed.

(** C3.  An output definition with no filter and [recalculate] set makes
    [recalculateData] write into the base frame object itself: after it,
    the base frame holds 10, 15, 22 where it held 10, 5, 7, and a second
    such definition writes 10, 25, 47.  With a filter the accumulation
    works on a new frame object and the base frame keeps its values. *)
Theorem recalculate_without_filter_overwrites_the_base_frame :
  let total := mkOutputFileDefinition "total.csv" "Meterstand" [] true in
  let again := mkOutputFileDefinition "again.csv" "Meterstand" [] true in
  let high := mkOutputFileDefinition "high.csv" "Meterstand" [high_only] true in
  cells "Meterstand" (rows prepared)
  = [VFloat (of_Z 10); VFloat (of_Z 5); VFloat (of_Z 7)] ∧
  column_after (run_output (E := python_env) total (world_of prepared))
    0%nat "Meterstand"
  = Some [VFloat (of_Z 10); VFloat (of_Z 15); VFloat (of_Z 22)] ∧
  files (generate_all (E := python_env) 0%nat [total; again]
           (world_of prepared)).2 !! "again.csv"
  = Some [ [VInt 1577836800; VFloat (of_Z 10)];
           [VInt 1577923200; VFloat (of_Z 25)];
           [VInt 1578009600; VFloat (of_Z 47)] ] ∧
  column_after (run_output (E := python_env) high (world_of prepared))
    0%nat "Meterstand"
  = Some [VFloat (of_Z 10); VFloat (of_Z 5); VFloat (of_Z 7)] ∧
  files (run_output (E := python_env) high (world_of prepared)).2 !! "high.csv"
  = Some [ [VInt 1577836800; VFloat (of_Z 10)];
           [VInt 1578009600; VFloat (of_Z 17)] ].
Proof.
  cbv zeta. repeat split; vm_compute; reflexivity.
Qed.

(** Scenario B run through [filterData]: of the rows High, Low, High the
    inclusive filter (Type, High) keeps the first and the third. *)
Lemma filterData_keeps_rows_passing_every_filter_witness :
  Forall (usable (E := python_env) prepared) [high_only] ∧
  ∃ df' fresh d',
    filterData (E := python_env) 0%nat [high_only] (world_of prepared)
    = (Ok df', with_heap (world_of prepared) ([prepared] ++ fresh)) ∧
    ([prepared] ++ fresh) !! df' = Some d' ∧
    columns d' = columns prepared ∧
    rows d' = [ reading 0 1577836800 "High" (of_Z 10);
                reading 2 1578009600 "High" (of_Z 7) ].
Proof.
  assert (Hok : Forall (usable (E := python_env) prepared) [high_only]).
  { usable_filters. }
  split; [exact Hok|].
  destruct (filterData_keeps_rows_passing_every_filter (E := python_env)
              [high_only] 0%nat prepared (world_of prepared) eq_refl Hok)
    as [(df' & fresh & d' & Hrun & Hlook & Hcols & Hrows & _) _].
  exists df', fresh, d'. split; [exact Hrun|]. split; [exact Hlook|].
  split; [exact Hcols|]. rewrite Hrows. reflexivity.
Defined.

Lemma filterData_row_count_narrows_witness :
  Forall (usable (E := python_env) prepared) [not_low; from_2020] ∧
  ∃ df1 w1 d1 df2 w2 d2,
    filterData (E := python_env) 0%nat [not_low; from_2020] (world_of prepared)
    = (Ok df1, w1) ∧
    heap w1 !! df1 = Some d1 ∧
    filterData (E := python_env) 0%nat (removelast [not_low; from_2020])
      (world_of prepared)
    = (Ok df2, w2) ∧
    heap w2 !! df2 = Some d2 ∧
    (length (rows d1) ≤ length (rows d2))%nat.
Proof.
  assert (Hok : Forall (usable (E := python_env) prepared) [not_low; from_2020]).
  { usable_filters. }
  split; [exact Hok|].
  exact (filterData_row_count_narrows (E := python_env) [not_low; from_2020]
           0%nat prepared (world_of prepared) eq_refl Hok).
Defined.


Lemma missing_filter_column_aborts_the_run_witness :
  (column by_tariff ∉ columns prepared) ∧
  (∃ w', filterData (E := python_env) 0%nat (dataFilters filtered_meter)
           (world_of prepared)
         = (Raise (KeyError (column by_tariff)), w')) ∧
  (∃ w', generateImportDataFile (E := python_env) 0%nat
           (outputFileName filtered_meter) (valueColumnName filtered_meter)
           (dataFilters filtered_meter) (recalculate filtered_meter)
           (world_of prepared)
         = (Raise (KeyError (column by_tariff)), w') ∧
         files w' = files (world_of prepared)) ∧
  (∃ w', generate_all (E := python_env) 0%nat (filtered_meter :: [meter])
           (world_of prepared)
         = (Raise (KeyError (column by_tariff)), w') ∧
         files w' = files (world_of prepared)).
Proof.
  assert (Hbad : column by_tariff ∉ columns prepared) by by_computation.
  split; [exact Hbad|].
  apply (missing_filter_column_aborts_the_run (E := python_env)
           (world_of prepared) 0%nat prepared filtered_meter
           [high_only] by_tariff [] [meter]).
  - reflexivity.
  - by_computation.
  - reflexivity.
  - usable_filters.
  - exact Hbad.
Defined.

(** C9, where the specification's wording fails.  The first definition filters on a column the
    frame lacks, the second is in order.  The run ends in the key error
    and writes no file, although the second definition alone writes its
    file. *)
Lemma missing_filter_column_is_not_caught :
  let broken := mkOutputFileDefinition "broken.csv" "Meterstand" [by_tariff] false in
  (∃ w', generate_all (E := python_env) 0%nat [broken; meter] (world_of prepared)
         = (Raise (KeyError "Tariff"), w') ∧
         files w' = ∅ ∧
         stdout w' = ["Creating file: broken.csv"]) ∧
  (∃ w' lines, generate_all (E := python_env) 0%nat [meter] (world_of prepared)
               = (Ok (), w') ∧
               files w' !! "meter.csv" = Some lines) ∧
  ¬ (∃ w', generate_all (E := python_env) 0%nat [broken; meter]
             (world_of prepared) = (Ok (), w')).
Proof.
  cbv zeta. split; [|split].
  - eexists. split; [vm_compute; reflexivity|]. split; reflexivity.
  - eexists _, _. split; vm_compute; reflexivity.
  - intros [w' H]. vm_compute in H. discriminate H.
Qed.

Lemma raw_table_dates :
  Forall (λ r, is_datetime (cell r.2 inputFileDateColumnName)) (rows raw_table).
Proof. repeat constructor; by eexists. Qed.

Lemma prepareData_keeps_exactly_the_rows_in_bounds_witness :
  sorts_ascending (argsort (Environment := python_env)) ∧
  ∃ df w' d',
    prepareData (E := python_env) 0%nat (world_of raw_table) = (Ok df, w') ∧
    heap w' !! df = Some d' ∧
    index d' ≡ₚ [0; 2] ∧
    raw_reading 1 1 1 1960 (of_Z 3) ∈ rows raw_table ∧
    (raw_reading 1 1 1 1960 (of_Z 3)).1 ∉ index d'.
Proof.
  split; [exact stable_argsort_sorts|].
  destruct (prepareData_keeps_exactly_the_rows_in_bounds (E := python_env)
              (world_of raw_table) 0%nat raw_table stable_argsort_sorts
              eq_refl ltac:(by_computation) raw_table_dates)
    as (df & w' & d' & Hrun & Hlook & Hidx & _ & _ & Hout & _ & H1960).
  exists df, w', d'. split; [exact Hrun|]. split; [exact Hlook|].
  split; [exact Hidx|].
  assert (Hin : raw_reading 1 1 1 1960 (of_Z 3) ∈ rows raw_table).
  { unfold raw_table. cbn [rows]. apply list_elem_of_further, list_elem_of_here. }
  split; [exact Hin|].
  apply Hout; [by_computation|exact Hin|].
  apply H1960. reflexivity.
Defined.

(** ** The order of the prepared rows *)

(** The date conversion is exact at midnight of every day from
    01-01-1970 to 31-12-2099. *)
Lemma days_exact_spec count :
  ∀ start day,
    days_exact count start = true →
    start ≤ day < start + Z.of_nat count →
    to_unix (day * 86400 * 1000000000) = day * 86400.
Proof.
  induction count as [|count IH]; intros start day Hall Hday; [lia|].
  cbn [days_exact] in Hall. apply andb_prop in Hall as [Hnow Hlater].
  destruct (decide (day = start)) as [->|Hne].
  - by apply Z.eqb_eq.
  - apply (IH (start + 1)); [done|lia].
Qed.

Lemma every_day_in_bounds_is_exact : days_exact (Z.to_nat 47482) 0 = true.
Proof. vm_compute. reflexivity. Qed.

(** A timestamp at midnight of a day in bounds is turned into its whole
    seconds. *)
Lemma to_unix_at_midnight r t :
  in_bounds r = true → at_midnight r → timestamp r = Some t →
  to_unix t = t / 1000000000.
Proof.
  intros Hb [day Hday] Ht. rewrite Hday in Ht. injection Ht as <-.
  assert (Hrange : 0 ≤ day < 0 + Z.of_nat (Z.to_nat 47482)).
  { unfold in_bounds in Hb. rewrite Hday in Hb.
    apply andb_prop in Hb as [Hlo Hhi].
    apply Z.leb_le in Hlo, Hhi.
    change (strptime_dmy 1 1 1970) with 0 in Hlo.
    change (strptime_dmy 31 12 2099) with (47481 * 86400 * 1000000000) in Hhi.
    lia. }
  rewrite (days_exact_spec _ 0 day every_day_in_bounds_is_exact Hrange).
  by rewrite Z.div_mul.
Qed.

(** C4, as the script behaves.  [prepareData] leaves the rows in bounds in
    ascending order of their timestamps, each row kept once, whenever the
    sort puts the dates of the frame in ascending order; nothing is asked
    of the sort about equal dates, and nothing is said of their order.
    For dates without a time of day the date column that is written holds
    the whole seconds of these timestamps, in ascending order as well. *)
Theorem prepareData_sorts_rows_by_date {E : Environment} w base d :
  sorts_keys argsort (dates_in_bounds d) →
  heap w !! base = Some d →
  inputFileDateColumnName ∈ columns d →
  Forall (λ r, is_datetime (cell r.2 inputFileDateColumnName)) (rows d) →
  ∃ df w' d' sorted ks,
    prepareData base w = (Ok df, w') ∧
    heap w' !! df = Some d' ∧
    heap w' !! base = Some d ∧
    rows d' = normalised <$> sorted ∧
    sorted ≡ₚ List.filter in_bounds (rows d) ∧
    timestamp <$> sorted = Some <$> ks ∧
    Sorted Z.le ks ∧
    (Forall (λ r, in_bounds r = true → at_midnight r) (rows d) →
     cells inputFileDateColumnName (rows d')
     = (λ k, VInt (k / 1000000000)) <$> ks ∧
     Sorted Z.le ((λ k, k / 1000000000) <$> ks)).
Proof.
  intros Hsort Hd Hc Hdt.
  destruct (prepareData_run_keys w base d Hsort Hd Hc Hdt)
    as (sorted & ks & Hrun & Hperm & Hts & Hks & _).
  eexists _, _, _, sorted, ks. split; [exact Hrun|]. cbn [heap].
  split; [by rewrite lookup_app_r, Nat.sub_diag|].
  split; [by apply lookup_app_l_Some|].
  split; [done|]. split; [exact Hperm|]. split; [exact Hts|].
  split; [exact Hks|].
  intros Hmid. split.
  - unfold cells. cbn [rows]. rewrite <- list_fmap_compose.
    transitivity ((λ o, VInt (to_unix (default int64_min o)))
                    <$> (timestamp <$> sorted)).
    { rewrite <- list_fmap_compose. apply list_fmap_ext. intros i r _. cbn.
      by rewrite cell_insert. }
    assert (Hexact : Forall (λ r, ∀ t, timestamp r = Some t →
                                       to_unix t = t / 1000000000) sorted).
    { apply Forall_forall. intros r Hr t Ht. rewrite Hperm in Hr.
      apply list_elem_of_In, filter_In in Hr as [Hr Hb].
      apply list_elem_of_In in Hr.
      apply (to_unix_at_midnight r t Hb); [|done].
      by apply (proj1 (Forall_forall _ _) Hmid). }
    clear Hperm Hks Hrun. revert ks Hts.
    induction Hexact as [|r sorted' Hr _ IH]; intros ks Hts.
    + by destruct ks.
    + destruct ks as [|k ks]; [done|]. cbn in Hts.
      injection Hts as Hk Hts. cbn. rewrite Hk. cbn.
      rewrite (Hr k Hk). f_equal. by apply IH.
  - apply (Sorted_fmap_le Z.le); [|exact Hks].
    intros a b Hab. by apply Z.div_le_mono.
Qed.

Lemma same_day_readings_dates :
  Forall (λ r, is_datetime (cell r.2 inputFileDateColumnName))
    (rows same_day_readings).
Proof. repeat constructor; by eexists. Qed.

Lemma same_day_readings_at_midnight :
  Forall (λ r, in_bounds r = true → at_midnight r) (rows same_day_readings).
Proof.
  repeat constructor; intros _; by exists (days_from_civil 2020 1 1).
Qed.

Lemma prepareData_sorts_rows_by_date_witness :
  sorts_keys (argsort (Environment := quicksort_env))
    (dates_in_bounds same_day_readings) ∧
  ∃ df w' d' sorted ks,
    prepareData (E := quicksort_env) 0%nat (world_of same_day_readings)
    = (Ok df, w') ∧
    heap w' !! df = Some d' ∧
    heap w' !! 0%nat = Some same_day_readings ∧
    rows d' = normalised <$> sorted ∧
    sorted ≡ₚ List.filter in_bounds (rows same_day_readings) ∧
    timestamp <$> sorted = Some <$> ks ∧
    Sorted Z.le ks ∧
    cells inputFileDateColumnName (rows d')
    = (λ k, VInt (k / 1000000000)) <$> ks ∧
    Sorted Z.le ((λ k, k / 1000000000) <$> ks).
Proof.
  assert (Hsort : sorts_keys (argsort (Environment := quicksort_env))
                    (dates_in_bounds same_day_readings)) by by_computation.
  split; [exact Hsort|].
  destruct (prepareData_sorts_rows_by_date (E := quicksort_env)
              (world_of same_day_readings) 0%nat same_day_readings Hsort
              eq_refl ltac:(by_computation) same_day_readings_dates)
    as (df & w' & d' & sorted & ks & H1 & H2 & H3 & H4 & H5 & H6 & H7 & H8).
  exists df, w', d', sorted, ks.
  repeat (split; [assumption|]).
  exact (H8 same_day_readings_at_midnight).
Defined.

(** C4, where the specification's wording fails: eighteen rows of the same
    day, labelled 0 to 17 in input order.  With numpy's quicksort, the
    sort [sort_values] uses when no kind is given, the prepared frame
    has them in the order 0, 15, 14, ..., 1, 16, 17: the rows labelled 1
    and 2 carry the same date and have changed places.  The frame is the
    join of one input table. *)
Lemma equal_dates_can_lose_input_order :
  ∃ w' d',
    concat [same_day_readings] = Ok same_day_readings ∧
    prepareData (E := quicksort_env) 0%nat (world_of same_day_readings)
    = (Ok 1%nat, w') ∧
    heap w' !! 1%nat = Some d' ∧
    index d' = [0; 15; 14; 13; 12; 11; 10; 9; 8; 7; 6; 5; 4; 3; 2; 1; 16; 17] ∧
    cells inputFileDateColumnName (rows d') = replicate 18 (VInt 1577836800) ∧
    ¬ equal_dates_keep_input_order same_day_readings d'.
Proof.
  assert (Hres :
    (prepareData (E := quicksort_env) 0%nat (world_of same_day_readings)).1
    = Ok 1%nat ∧
    index <$> heap (prepareData (E := quicksort_env) 0%nat
                      (world_of same_day_readings)).2 !! 1%nat
    = Some [0; 15; 14; 13; 12; 11; 10; 9; 8; 7; 6; 5; 4; 3; 2; 1; 16; 17] ∧
    (λ d', cells inputFileDateColumnName (rows d'))
      <$> heap (prepareData (E := quicksort_env) 0%nat
                  (world_of same_day_readings)).2 !! 1%nat
    = Some (replicate 18 (VInt 1577836800))).
  { repeat split; vm_compute; reflexivity. }
  destruct (prepareData (E := quicksort_env) 0%nat (world_of same_day_readings))
    as [res w'] eqn:Hrun.
  cbn [fst snd] in Hres. destruct Hres as (-> & Hidx & Hdates).
  destruct (heap w' !! 1%nat) as [d'|] eqn:Hd'; [|done].
  injection Hidx as Hidx. injection Hdates as Hdates.
  exists w', d'. split; [vm_compute; reflexivity|].
  split; [done|]. split; [done|]. split; [exact Hidx|].
  split; [exact Hdates|].
  intros Hkeep.
  destruct (Hkeep (raw_reading 1 1 1 2020 (of_Z 2))
                  (raw_reading 2 1 1 2020 (of_Z 3)))
    as (i & j & Hlt & Hi & Hj).
  - by apply (list_elem_of_lookup_2 _ 1%nat).
  - by apply (list_elem_of_lookup_2 _ 2%nat).
  - reflexivity.
  - reflexivity.
  - exists 1%nat, 2%nat. by repeat split; [lia|..].
  - rewrite Hidx in Hi, Hj. cbn [fst raw_reading] in Hi, Hj.
    assert (Hnd : NoDup [0; 15; 14; 13; 12; 11; 10; 9; 8; 7; 6; 5; 4; 3; 2;
                         1; 16; 17]) by by_computation.
    assert (i = 15%nat) as -> by (by eapply NoDup_lookup).
    assert (j = 14%nat) as -> by (by eapply NoDup_lookup).
    lia.
Qed.

(** * Further properties of the script *)

(** ** The driver without usable input *)

Section DriverFacts.

Context {E : Environment}.

(** X1.  [correctFileExtensions] accepts a list of file names exactly when
    every name has the configured extension; the empty list is accepted. *)
Theorem correctFileExtensions_iff_all_match fileNames :
  correctFileExtensions fileNames = true ↔
  Forall (λ f, splitext f = inputFileNameExtension) fileNames.
Proof.
  induction fileNames as [|f fs IH]; cbn [correctFileExtensions].
  - split; [constructor|done].
  - case_bool_decide as Hf.
    + split; [done|]. intros H. apply Forall_cons in H as [H _]. done.
    + rewrite IH. split.
      * intros H. constructor; [|done]. by destruct (decide (splitext f = inputFileNameExtension)).
      * intros H. by apply Forall_cons in H as [_ H].
Qed.

(** X2.  When the pattern finds no file, or finds a file with another
    extension, [generateImportDataFiles] returns normally without loading
    a file, building a frame or writing a file; it only prints why. *)
Theorem generateImportDataFiles_without_usable_input inputFileNames w :
  glob inputFileNames = [] ∨
  ¬ Forall (λ f, splitext f = inputFileNameExtension) (glob inputFileNames) →
  ∃ lines,
    generateImportDataFiles inputFileNames w
    = (Ok (), mkWorld (heap w) (files w) (stdout w ++ lines)) ∧
    (glob inputFileNames = [] →
     lines = ["No files found based on : " +:+ inputFileNames]) ∧
    (glob inputFileNames ≠ [] →
     lines = ["Found files based on: " +:+ inputFileNames;
              "Only " +:+ inputFileNameExtension +:+ " datafiles are allowed"]).
Proof.
  intros H. unfold generateImportDataFiles.
  destruct (glob inputFileNames) as [|f fs] eqn:Hglob.
  - eexists. split; [reflexivity|]. split; done.
  - destruct H as [H|H]; [done|].
    cbn [length Nat.ltb Nat.leb]. rewrite bind_run. unfold print at 1.
    destruct (correctFileExtensions (f :: fs)) eqn:Hext.
    { apply correctFileExtensions_iff_all_match in Hext. done. }
    eexists. split.
    + unfold print. cbn [heap files stdout]. rewrite <- app_assoc. reflexivity.
    + split; done.
Qed.

(** Loading stops at the first file that fails. *)
Lemma read_all_fails good :
  ∀ tables bad rest e w,
    Forall2 (λ f t, read_table f = Ok t) good tables →
    read_table bad = Raise e →
    read_all (good ++ bad :: rest) w
    = (Raise e, mkWorld (heap w) (files w)
                  (stdout w ++ loading_lines (good ++ [bad]))).
Proof.
  induction good as [|f good IH]; intros tables bad rest e w Hgood Hbad.
  - cbn [app read_all]. rewrite bind_run. unfold readInputFile.
    rewrite bind_run. unfold print at 1, lift. by rewrite Hbad.
  - apply Forall2_cons_inv_l in Hgood as (t & tables' & Ht & Hgood & ->).
    cbn [app read_all]. rewrite bind_run. unfold readInputFile at 1.
    rewrite bind_run. unfold print at 1, lift at 1. rewrite Ht, bind_run.
    erewrite IH by done. cbn [heap files stdout]. f_equal. f_equal.
    unfold loading_lines. cbn. by rewrite <- app_assoc.
Qed.

Lemma read_all_succeeds fileNames :
  ∀ tables w,
    Forall2 (λ f t, read_table f = Ok t) fileNames tables →
    read_all fileNames w
    = (Ok tables, mkWorld (heap w) (files w)
                    (stdout w ++ loading_lines fileNames)).
Proof.
  induction fileNames as [|f fs IH]; intros tables w Hall.
  - apply Forall2_nil_inv_l in Hall as ->. cbn. rewrite app_nil_r.
    by destruct w.
  - apply Forall2_cons_inv_l in Hall as (t & tables' & Ht & Hall & ->).
    cbn [read_all]. rewrite bind_run. unfold readInputFile at 1.
    rewrite bind_run. unfold print at 1, lift at 1. rewrite Ht, bind_run.
    erewrite IH by done. cbn [heap files stdout mret M_ret]. f_equal. f_equal.
    unfold loading_lines. cbn. by rewrite <- app_assoc.
Qed.

(** X3.  When one of the found files fails to load, the run ends in that
    file's error: the files before it have been loaded, the files after
    it are not touched, no frame is built and no output file is written. *)
Theorem generateImportDataFiles_stops_at_a_failing_file
    inputFileNames good tables bad rest e w :
  glob inputFileNames = good ++ bad :: rest →
  Forall (λ f, splitext f = inputFileNameExtension) (glob inputFileNames) →
  Forall2 (λ f t, read_table f = Ok t) good tables →
  read_table bad = Raise e →
  generateImportDataFiles inputFileNames w
  = (Raise e,
     mkWorld (heap w) (files w)
       (stdout w ++ ["Found files based on: " +:+ inputFileNames]
        ++ loading_lines (good ++ [bad]))).
Proof.
  intros Hglob Hext Hgood Hbad. unfold generateImportDataFiles.
  apply correctFileExtensions_iff_all_match in Hext. rewrite Hext, Hglob.
  replace (0 <? length (good ++ bad :: rest))%nat with true.
  2:{ symmetry. apply Nat.ltb_lt. rewrite length_app. cbn. lia. }
  rewrite bind_run. unfold print at 1. rewrite bind_run.
  erewrite read_all_fails by done. cbn [heap files stdout].
  by rewrite <- app_assoc.
Qed.

End DriverFacts.

(** ** What a call leaves alone: frame objects and files *)

Lemma keeps_frames_below_ret {A} n (Q : A → Prop) (a : A) :
  Q a → keeps_frames_below n Q (mret a).
Proof. intros Ha w Hn. split; [done|]. split; [done|]. by intros a' [= <-]. Qed.

Lemma keeps_frames_below_lift {A} n (r : result A) :
  keeps_frames_below n (λ _, True) (lift r).
Proof. intros w Hn. done. Qed.

Lemma keeps_frames_below_print n line :
  keeps_frames_below n (λ _, True) (print line).
Proof. intros w Hn. done. Qed.

Lemma keeps_frames_below_load n r :
  keeps_frames_below n (λ _, True) (load r).
Proof. intros w Hn. unfold load. by destruct (heap w !! r). Qed.

Lemma keeps_frames_below_write_file n name content :
  keeps_frames_below n (λ _, True) (write_file name content).
Proof. intros w Hn. done. Qed.

Lemma keeps_frames_below_alloc n d :
  keeps_frames_below n (λ r, (n ≤ r)%nat) (alloc d).
Proof.
  intros w Hn. unfold alloc. cbn. split; [rewrite length_app; lia|].
  split; [|by intros a [= <-]].
  intros i Hi. apply lookup_app_l. lia.
Qed.

Lemma keeps_frames_below_store n r d :
  (n ≤ r)%nat → keeps_frames_below n (λ _, True) (store r d).
Proof.
  intros Hr w Hn. unfold store. cbn. split; [by rewrite length_insert|].
  split; [|done]. intros i Hi. apply list_lookup_insert_ne. lia.
Qed.

Lemma keeps_frames_below_bind {A B} n (Q : A → Prop) (R : B → Prop)
    (m : M A) (f : A → M B) :
  keeps_frames_below n Q m →
  (∀ a, Q a → keeps_frames_below n R (f a)) →
  keeps_frames_below n R (m ≫= f).
Proof.
  intros Hm Hf w Hn. rewrite bind_run.
  destruct (Hm w Hn) as (Hlen & Hsame & HQ).
  destruct (m w) as [[a|e] w1]; cbn [fst snd] in *; [|done].
  destruct (Hf a (HQ a eq_refl) w1 Hlen) as (Hlen' & Hsame' & HR).
  split; [done|]. split; [|done].
  intros i Hi. by rewrite Hsame', Hsame.
Qed.

Lemma keeps_frames_below_weaken {A} n (Q Q' : A → Prop) (m : M A) :
  (∀ a, Q a → Q' a) → keeps_frames_below n Q m → keeps_frames_below n Q' m.
Proof.
  intros HQ Hm w Hn. destruct (Hm w Hn) as (? & ? & H). naive_solver.
Qed.

Lemma writes_only_ret {A} names (a : A) : writes_only names (mret a).
Proof. by intros w name _. Qed.

Lemma writes_only_lift {A} names (r : result A) : writes_only names (lift r).
Proof. by intros w name _. Qed.

Lemma writes_only_print names line : writes_only names (print line).
Proof. by intros w name _. Qed.

Lemma writes_only_load names r : writes_only names (load r).
Proof. intros w name _. unfold load. by destruct (heap w !! r). Qed.

Lemma writes_only_alloc names d : writes_only names (alloc d).
Proof. by intros w name _. Qed.

Lemma writes_only_store names r d : writes_only names (store r d).
Proof. by intros w name _. Qed.

Lemma writes_only_write_file names name content :
  name ∈ names → writes_only names (write_file name content).
Proof.
  intros Hin w name' Hout. unfold write_file. cbn.
  apply lookup_insert_ne. intros ->. done.
Qed.

Lemma writes_only_bind {A B} names (m : M A) (f : A → M B) :
  writes_only names m → (∀ a, writes_only names (f a)) →
  writes_only names (m ≫= f).
Proof.
  intros Hm Hf w name Hout. rewrite bind_run.
  specialize (Hm w name Hout).
  destruct (m w) as [[a|e] w1]; cbn [fst snd] in *; [|done].
  by rewrite (Hf a w1 name Hout).
Qed.

Lemma writes_only_mono {A} names names' (m : M A) :
  names ⊆ names' → writes_only names m → writes_only names' m.
Proof. intros Hsub Hm w name Hout. apply Hm. set_solver. Qed.

(** Break a computation into binds and primitive steps that write no
    file; [known] closes the calls that have a lemma of their own. *)
Ltac writes_only_steps known :=
  repeat first
    [ known
    | apply writes_only_ret
    | apply writes_only_lift
    | apply writes_only_print
    | apply writes_only_load
    | apply writes_only_alloc
    | apply writes_only_store
    | match goal with
      | |- writes_only _ (if ?b then _ else _) => destruct b
      end
    | apply writes_only_bind; [|intros ?] ].

Section FrameFacts.

Context {E : Environment}.

Lemma recalculate_loop_keeps_frames_below n df c labels :
  (n ≤ df)%nat →
  ∀ prev, keeps_frames_below n (λ _, True) (recalculate_loop df c labels prev).
Proof.
  intros Hdf. induction labels as [|l labels IH]; intros prev;
    cbn [recalculate_loop].
  - by apply keeps_frames_below_ret.
  - unfold at_, set_at.
    repeat first
      [ apply IH
      | apply keeps_frames_below_lift
      | apply keeps_frames_below_load
      | by apply keeps_frames_below_store
      | by apply keeps_frames_below_ret
      | match goal with
        | |- keeps_frames_below _ _ (if ?b then _ else _) => destruct b
        end
      | eapply keeps_frames_below_bind; [|intros ? _] ].
Qed.

Lemma recalculateData_keeps_frames_below n df c :
  (n ≤ df)%nat →
  keeps_frames_below n (λ r, (n ≤ r)%nat) (recalculateData df c).
Proof.
  intros Hdf. unfold recalculateData.
  eapply keeps_frames_below_bind; [apply keeps_frames_below_load|intros d _].
  eapply keeps_frames_below_bind;
    [by apply recalculate_loop_keeps_frames_below|intros _ _].
  by apply keeps_frames_below_ret.
Qed.

Lemma filterData_keeps_frames_below n filters :
  ∀ df, keeps_frames_below n
          (λ r, (filters = [] ∧ r = df) ∨ (n ≤ r)%nat)
          (filterData df filters).
Proof.
  induction filters as [|f filters IH]; intros df; cbn [filterData].
  - apply keeps_frames_below_ret. by left.
  - eapply keeps_frames_below_bind; [apply keeps_frames_below_load|intros d _].
    eapply keeps_frames_below_bind; [apply keeps_frames_below_lift|intros s _].
    eapply keeps_frames_below_bind; [apply keeps_frames_below_alloc|].
    intros df' Hdf'. eapply keeps_frames_below_weaken; [|apply IH].
    intros r [[_ ->]|Hr]; by right.
Qed.

Lemma recalculate_loop_writes_no_file df c labels :
  ∀ prev, writes_only [] (recalculate_loop df c labels prev).
Proof.
  induction labels as [|l labels IH]; intros prev; cbn [recalculate_loop].
  - apply writes_only_ret.
  - unfold at_, set_at. writes_only_steps ltac:(apply IH).
Qed.

Lemma filterData_writes_no_file filters :
  ∀ df, writes_only [] (filterData df filters).
Proof.
  induction filters as [|f filters IH]; intros df; cbn [filterData].
  - apply writes_only_ret.
  - writes_only_steps ltac:(apply IH).
Qed.

(** X4.  Whatever the filters are and however the call ends, [filterData]
    changes no frame object that exists when it is called (it only makes
    new ones) and writes no file. *)
Theorem filterData_changes_no_frame_and_no_file df filters w :
  (∀ i d, heap w !! i = Some d →
          heap (filterData df filters w).2 !! i = Some d) ∧
  files (filterData df filters w).2 = files w.
Proof.
  split.
  - intros i d Hi.
    destruct (filterData_keeps_frames_below (length (heap w)) filters df w)
      as (_ & Hsame & _); [done|].
    rewrite Hsame; [done|]. by eapply lookup_lt_Some.
  - apply map_eq. intros name.
    by apply (filterData_writes_no_file filters df w name), not_elem_of_nil.
Qed.

(** X5.  However it ends, [prepareData] changes no frame object that
    exists when it is called, the base frame included, and writes no
    file: the selection, the sort and the date conversion all work on a
    new frame object. *)
Theorem prepareData_changes_no_frame_and_no_file base w :
  (∀ i d, heap w !! i = Some d →
          heap (prepareData base w).2 !! i = Some d) ∧
  files (prepareData base w).2 = files w.
Proof.
  split.
  - intros i d Hi.
    assert (Hk : keeps_frames_below (length (heap w)) (λ r, (length (heap w) ≤ r)%nat)
                   (prepareData base)).
    { unfold prepareData.
      eapply keeps_frames_below_bind; [apply keeps_frames_below_print|intros _ _].
      eapply keeps_frames_below_bind; [apply keeps_frames_below_load|intros d0 _].
      eapply keeps_frames_below_bind; [apply keeps_frames_below_lift|intros mask _].
      eapply keeps_frames_below_bind; [apply keeps_frames_below_alloc|intros df Hdf].
      eapply keeps_frames_below_bind; [apply keeps_frames_below_load|intros d1 _].
      eapply keeps_frames_below_bind; [apply keeps_frames_below_lift|intros sorted _].
      eapply keeps_frames_below_bind;
        [by apply keeps_frames_below_store|intros _ _].
      eapply keeps_frames_below_bind; [apply keeps_frames_below_load|intros d2 _].
      eapply keeps_frames_below_bind; [apply keeps_frames_below_lift|intros secs _].
      eapply keeps_frames_below_bind;
        [by apply keeps_frames_below_store|intros _ _].
      by apply keeps_frames_below_ret. }
    destruct (Hk w) as (_ & Hsame & _); [done|].
    rewrite Hsame; [done|]. by eapply lookup_lt_Some.
  - apply map_eq. intros name.
    assert (Hw : writes_only [] (prepareData base)).
    { unfold prepareData. writes_only_steps fail. }
    by apply (Hw w name), not_elem_of_nil.
Qed.

Lemma generateImportDataFile_writes_only base outputFile c filters rec :
  writes_only [outputFile] (generateImportDataFile base outputFile c filters rec).
Proof.
  unfold generateImportDataFile, to_csv, recalculateData.
  writes_only_steps
    ltac:(first
            [ eapply writes_only_mono;
              [|first [ apply filterData_writes_no_file
                      | apply recalculate_loop_writes_no_file ]];
              [set_solver]
            | apply writes_only_write_file; set_solver ]).
Qed.

(** X6.  However the output loop ends, the only files it can have changed
    are those named by the output definitions it was given: every other
    file is as before. *)
Theorem generate_all_writes_only_the_named_files base outputs w name :
  name ∉ outputFileName <$> outputs →
  files (generate_all base outputs w).2 !! name = files w !! name.
Proof.
  revert w. induction outputs as [|o outputs IH]; intros w Hname; [done|].
  rewrite fmap_cons, not_elem_of_cons in Hname. destruct Hname as [Hne Hname].
  cbn [generate_all]. rewrite bind_run.
  pose proof (generateImportDataFile_writes_only base (outputFileName o)
                (valueColumnName o) (dataFilters o) (recalculate o) w name) as Hone.
  destruct (generateImportDataFile _ _ _ _ _ w) as [[[]|e] w1];
    cbn [fst snd] in *.
  - rewrite IH by done. apply Hone.
    apply not_elem_of_cons. split; [done|apply not_elem_of_nil].
  - apply Hone. apply not_elem_of_cons. split; [done|apply not_elem_of_nil].
Qed.

(** X7.  [generateImportDataFile] changes no existing frame object, the
    shared base frame included, whenever [recalculate] is off or at least
    one filter is given, however the call ends: the frames it writes to
    are then all of its own making. *)
Theorem generateImportDataFile_keeps_frames_unless_unfiltered_recalculate
    base outputFile c filters rec w :
  rec = false ∨ filters ≠ [] →
  ∀ i d, heap w !! i = Some d →
         heap (generateImportDataFile base outputFile c filters rec w).2 !! i
         = Some d.
Proof.
  intros Hsafe i d Hi.
  assert (Hk : keeps_frames_below (length (heap w)) (λ _, True)
                 (generateImportDataFile base outputFile c filters rec)).
  { unfold generateImportDataFile, to_csv.
    eapply keeps_frames_below_bind; [apply keeps_frames_below_load|intros d0 _].
    destruct (has_column d0 c); [|apply keeps_frames_below_print].
    eapply keeps_frames_below_bind; [apply keeps_frames_below_print|intros _ _].
    eapply keeps_frames_below_bind;
      [apply filterData_keeps_frames_below|intros df Hdf].
    eapply keeps_frames_below_bind.
    { instantiate (1 := λ _, True). destruct rec.
      - eapply keeps_frames_below_weaken;
          [|apply recalculateData_keeps_frames_below]; [done|].
        destruct Hsafe as [|Hne]; [done|]. by destruct Hdf as [[? _]|?].
      - by apply keeps_frames_below_ret. }
    intros df' _.
    eapply keeps_frames_below_bind; [apply keeps_frames_below_load|intros d1 _].
    eapply keeps_frames_below_bind;
      [eapply keeps_frames_below_weaken; [|apply keeps_frames_below_alloc]; done|].
    intros df'' _.
    eapply keeps_frames_below_bind; [apply keeps_frames_below_load|intros d2 _].
    apply keeps_frames_below_write_file. }
  destruct (Hk w) as (_ & Hsame & _); [done|].
  rewrite Hsame; [done|]. by eapply lookup_lt_Some.
Qed.

End FrameFacts.

(** ** More on filterData *)

Section FilterLaws.

Context {E : Environment}.

Lemma passes_rearranged filters filters' r :
  filters ≡ₚ filters' → passes filters r = passes filters' r.
Proof.
  unfold passes. induction 1 as [|f l l' _ IH|f g l|l l' l'' _ IH1 _ IH2]; cbn.
  - done.
  - by rewrite IH.
  - destruct (filter_test f r.2), (filter_test g r.2); done.
  - by rewrite IH1.
Qed.

Lemma filter_ext_bool {A} (p q : A → bool) (l : list A) :
  (∀ x, p x = q x) → List.filter p l = List.filter q l.
Proof.
  intros H. induction l as [|x l IH]; [done|]. cbn. by rewrite H, IH.
Qed.

Lemma filter_split_rearranged {A} (p : A → bool) (l : list A) :
  List.filter p l ++ List.filter (λ x, negb (p x)) l ≡ₚ l.
Proof.
  induction l as [|x l IH]; [done|]. cbn. destruct (p x); cbn.
  - by rewrite IH.
  - rewrite <- Permutation_middle. by rewrite IH.
Qed.

(** X8.  The order of the filters does not matter: two lists holding the
    same filters in different orders give frames with the same columns
    and the same rows in the same order. *)
Theorem filterData_ignores_filter_order filters filters' df d w :
  heap w !! df = Some d →
  Forall (usable d) filters →
  filters ≡ₚ filters' →
  ∃ df1 w1 df2 w2 d',
    filterData df filters w = (Ok df1, w1) ∧
    filterData df filters' w = (Ok df2, w2) ∧
    heap w1 !! df1 = Some d' ∧
    heap w2 !! df2 = Some d'.
Proof.
  intros Hd Hok Hperm.
  assert (Hok' : Forall (usable d) filters') by by rewrite <- Hperm.
  destruct (filterData_run filters df d w Hd Hok)
    as (df1 & fresh1 & Hrun1 & Hlook1 & _).
  destruct (filterData_run filters' df d w Hd Hok')
    as (df2 & fresh2 & Hrun2 & Hlook2 & _).
  eexists df1, _, df2, _, _.
  split; [exact Hrun1|]. split; [exact Hrun2|]. split; [exact Hlook1|].
  cbn [heap with_heap]. rewrite Hlook2. do 2 f_equal.
  apply filter_ext_bool. intros r. symmetry. by apply passes_rearranged.
Qed.

(** X9.  An inclusive filter and the exclusive filter on the same column
    and pattern split the frame: each row lands in exactly one of the two
    results, so the two results together hold the rows of the frame. *)
Theorem filterData_inclusive_and_exclusive_split_the_rows c pattern df d w :
  heap w !! df = Some d →
  usable d (mkDataFilter c pattern true) →
  ∃ df1 w1 d1 df2 w2 d2,
    filterData df [mkDataFilter c pattern true] w = (Ok df1, w1) ∧
    heap w1 !! df1 = Some d1 ∧
    filterData df [mkDataFilter c pattern false] w = (Ok df2, w2) ∧
    heap w2 !! df2 = Some d2 ∧
    rows d1 ++ rows d2 ≡ₚ rows d ∧
    (length (rows d1) + length (rows d2) = length (rows d))%nat ∧
    ∀ r, r ∈ rows d → (r ∈ rows d1 ↔ r ∉ rows d2).
Proof.
  intros Hd Hin.
  assert (Hex : usable d (mkDataFilter c pattern false)) by exact Hin.
  destruct (filterData_run [mkDataFilter c pattern true] df d w Hd)
    as (df1 & fresh1 & Hrun1 & Hlook1 & _); [by constructor|].
  destruct (filterData_run [mkDataFilter c pattern false] df d w Hd)
    as (df2 & fresh2 & Hrun2 & Hlook2 & _); [by constructor|].
  destruct Hin as [_ [rx Hrx]]. cbn [value_] in Hrx.
  set (found := λ r : Z * gmap string value,
                  re_search rx (astype_str (cell r.2 c))).
  assert (H1 : ∀ r, passes [mkDataFilter c pattern true] r = found r).
  { intros r. unfold passes, filter_test, found. cbn. rewrite Hrx.
    by rewrite andb_true_r. }
  assert (H2 : ∀ r, passes [mkDataFilter c pattern false] r = negb (found r)).
  { intros r. unfold passes, filter_test, found. cbn. rewrite Hrx.
    by rewrite andb_true_r. }
  rewrite (filter_ext_bool _ _ _ H1) in Hlook1.
  rewrite (filter_ext_bool _ _ _ H2) in Hlook2.
  eexists df1, _, _, df2, _, _.
  split; [exact Hrun1|]. split; [exact Hlook1|].
  split; [exact Hrun2|]. split; [exact Hlook2|]. cbn [rows].
  pose proof (filter_split_rearranged found (rows d)) as Hsplit.
  split; [exact Hsplit|]. split.
  - apply Permutation_length in Hsplit. by rewrite length_app in Hsplit.
  - intros r Hr. rewrite !list_elem_of_In, !filter_In, <- !list_elem_of_In.
    destruct (found r); cbn; intuition congruence.
Qed.

(** X10.  Filtering by [filters1 ++ filters2] is filtering by [filters1]
    and then filtering the result by [filters2], down to the frame objects
    made on the way and to the error, if one is raised. *)
Theorem filterData_app filters1 filters2 :
  ∀ df w,
    filterData df (filters1 ++ filters2) w
    = (filterData df filters1 ≫= λ df1, filterData df1 filters2) w.
Proof.
  induction filters1 as [|f filters1 IH]; intros df w; [done|].
  cbn [app filterData]. rewrite !bind_run.
  destruct (load df w) as [[d|e] w1]; [|done].
  rewrite !bind_run. destruct (lift (str_contains d f) w1) as [[s|e] w2]; [|done].
  rewrite !bind_run. destruct (alloc _ w2) as [[df'|e] w3]; [|done].
  rewrite IH. by rewrite bind_run.
Qed.

(** X11.  A filter whose column exists but whose pattern is no regular
    expression makes [filterData] raise the pattern error; if the column
    is missing as well, the key error of the column comes first.  Either
    way no existing frame changes. *)
Theorem filterData_rejects_a_bad_pattern good bad rest df d w :
  heap w !! df = Some d →
  Forall (usable d) good →
  re_compile (value_ bad) = None →
  ∃ fresh,
    filterData df (good ++ bad :: rest) w
    = (Raise (if has_column d (column bad)
              then ReError (value_ bad) else KeyError (column bad)),
       with_heap w (heap w ++ fresh)).
Proof.
  intros Hd Hok Hbad. destruct (has_column d (column bad)) eqn:Hcol.
  - revert df d w Hd Hok Hcol.
    induction good as [|f good IH]; intros df d w Hd Hok Hcol.
    + exists []. cbn [app filterData].
      rewrite bind_run, (load_run _ _ _ Hd), bind_run. unfold lift at 1.
      unfold str_contains, getitem. rewrite Hcol, Hbad.
      by rewrite app_nil_r, with_heap_id.
    + apply Forall_cons in Hok as [Hf Hok].
      destruct (filter_step d f Hf) as (series & Hs & Hsel).
      cbn [app filterData].
      rewrite bind_run, (load_run _ _ _ Hd), bind_run.
      unfold lift at 1. rewrite Hs, bind_run. unfold alloc at 1. rewrite Hsel.
      set (d1 := mkDataFrame (columns d)
                   (List.filter (λ r, filter_test f r.2) (rows d))).
      set (w1 := mkWorld (heap w ++ [d1]) (files w) (stdout w)).
      destruct (IH (length (heap w)) d1 w1) as (fresh & Hrun).
      * unfold w1. cbn. by rewrite lookup_app_r, Nat.sub_diag.
      * exact Hok.
      * exact Hcol.
      * exists (d1 :: fresh). rewrite Hrun. unfold w1, with_heap. cbn.
        by rewrite <- app_assoc.
  - apply (filterData_missing_column good bad rest df d w Hd Hok).
    unfold has_column in Hcol. by apply bool_decide_eq_false in Hcol.
Qed.

End FilterLaws.

(** ** More on recalculateData *)

Section RecalculateEdges.

Context {E : Environment}.

(** X12.  On a frame without rows [recalculateData] returns the frame
    untouched, whether or not the value column exists; on a frame with
    rows but without the value column it raises the key error of the
    column and changes nothing. *)
Theorem recalculateData_without_rows_or_without_column w df d c :
  heap w !! df = Some d →
  (rows d = [] → recalculateData df c w = (Ok df, w)) ∧
  (rows d ≠ [] → c ∉ columns d →
   recalculateData df c w = (Raise (KeyError c), w)).
Proof.
  intros Hd.
  assert (Hrun : recalculateData df c w
                 = (match (loop_on_frame d c (index d) (-1)).1 with
                    | Ok _ => Ok df
                    | Raise e => Raise e
                    end,
                    with_heap w (<[df := (loop_on_frame d c (index d) (-1)).2]>
                                   (heap w)))).
  { unfold recalculateData. rewrite bind_run, (load_run _ _ _ Hd), bind_run.
    rewrite (recalculate_loop_on_frame _ _ _ _ _ _ Hd).
    by destruct (loop_on_frame d c (index d) (-1)) as [[[]|e] d']. }
  rewrite Hrun. split.
  - intros Hrows. unfold index. rewrite Hrows. cbn.
    by rewrite (list_insert_id _ _ _ Hd), with_heap_id.
  - intros Hrows Hc. unfold index. destruct (rows d) as [|[l r] rs] eqn:Hr; [done|].
    cbn [fmap list_fmap fst loop_on_frame]. unfold at_get, has_column.
    rewrite bool_decide_eq_false_2 by done. cbn.
    by rewrite (list_insert_id _ _ _ Hd), with_heap_id.
Qed.

(** Rows added behind a frame do not matter to the loop as long as it is
    not sent to their labels. *)
Lemma at_get_more_rows cols rs post l c :
  l ∉ post.*1 →
  at_get (mkDataFrame cols (rs ++ post)) l c = at_get (mkDataFrame cols rs) l c.
Proof.
  intros Hl. unfold at_get, has_column. cbn [columns rows].
  by rewrite filter_app, (filter_label_absent l post), app_nil_r.
Qed.

Lemma at_set_more_rows cols rs post l c v :
  l ∉ post.*1 →
  at_set (mkDataFrame cols (rs ++ post)) l c v
  = mkDataFrame cols (rows (at_set (mkDataFrame cols rs) l c v) ++ post).
Proof.
  intros Hl. unfold at_set. cbn [columns rows]. f_equal.
  by rewrite fmap_app, (set_label_absent l c v post).
Qed.

Lemma at_set_columns d l c v : columns (at_set d l c v) = columns d.
Proof. done. Qed.

Lemma loop_on_frame_columns c labels :
  ∀ d prev, columns (loop_on_frame d c labels prev).2 = columns d.
Proof. intros d prev. apply (loop_on_frame_same_outside c labels d prev). Qed.

Lemma loop_on_frame_more_rows c post labels :
  ∀ cols rs prev,
    Forall (λ l, l ∉ post.*1) labels →
    (prev ∉ post.*1) →
    loop_on_frame (mkDataFrame cols (rs ++ post)) c labels prev
    = ((loop_on_frame (mkDataFrame cols rs) c labels prev).1,
       mkDataFrame cols
         (rows (loop_on_frame (mkDataFrame cols rs) c labels prev).2 ++ post)).
Proof.
  induction labels as [|l labels IH]; intros cols rs prev Hls Hprev; [done|].
  apply Forall_cons in Hls as [Hl Hls]. cbn [loop_on_frame].
  rewrite at_get_more_rows by done.
  destruct (at_get (mkDataFrame cols rs) l c) as [v|e]; [|done].
  destruct (isnan_value v) as [missing|e]; [|done].
  assert (H1 : (if missing
                then at_set (mkDataFrame cols (rs ++ post)) l c (VFloat zero)
                else mkDataFrame cols (rs ++ post))
               = mkDataFrame cols
                   (rows (if missing
                          then at_set (mkDataFrame cols rs) l c (VFloat zero)
                          else mkDataFrame cols rs) ++ post)).
  { destruct missing; [by apply at_set_more_rows|done]. }
  rewrite H1.
  set (d1 := if missing then at_set (mkDataFrame cols rs) l c (VFloat zero)
             else mkDataFrame cols rs).
  assert (Hd1 : d1 = mkDataFrame cols (rows d1)).
  { unfold d1. by destruct missing. }
  destruct (prev >? -1).
  - rewrite !at_get_more_rows by done. rewrite <- Hd1.
    destruct (at_get d1 l c) as [a|e]; [|done].
    destruct (at_get d1 prev c) as [b|e]; [|done].
    destruct (add_value a b) as [s|e]; [|done].
    rewrite at_set_more_rows by done. rewrite <- Hd1.
    rewrite IH by done.
    by replace (mkDataFrame cols (rows (at_set d1 l c (round_value s))))
      with (at_set d1 l c (round_value s)) by (by rewrite Hd1).
  - rewrite IH by done. by rewrite <- Hd1.
Qed.

Lemma loop_on_frame_app c labels1 :
  ∀ labels2 d prev,
    loop_on_frame d c (labels1 ++ labels2) prev
    = match loop_on_frame d c labels1 prev with
      | (Ok _, d') => loop_on_frame d' c labels2 (List.last labels1 prev)
      | (Raise e, d') => (Raise e, d')
      end.
Proof.
  induction labels1 as [|l labels1 IH]; intros labels2 d prev; [done|].
  cbn [app loop_on_frame].
  assert (Hlast : ∀ x, List.last (l :: labels1) x = List.last labels1 l).
  { clear. revert l. induction labels1 as [|l' ls IH]; intros l x; [done|].
    change (List.last (l :: l' :: ls) x) with (List.last (l' :: ls) x).
    rewrite IH. symmetry. apply IH. }
  rewrite Hlast.
  destruct (at_get d l c) as [v|e]; [|done].
  destruct (isnan_value v) as [missing|e]; [|done].
  destruct (prev >? -1).
  - destruct (at_get _ l c) as [a|e]; [|done].
    destruct (at_get _ prev c) as [b|e]; [|done].
    destruct (add_value a b) as [s|e]; [|done]. apply IH.
  - apply IH.
Qed.

(** The loop from the first row, on a frame of float cells. *)
Lemma loop_on_frame_from_start d c raws :
  c ∈ columns d →
  NoDup (index d) →
  Forall (λ l, -1 < l) (index d) →
  cells c (rows d) = VFloat <$> raws →
  ∃ d',
    loop_on_frame d c (index d) (-1) = (Ok (), d') ∧
    same_outside c d d' ∧
    cells c (rows d') = VFloat <$> accumulated round_3 raws.
Proof.
  intros Hc Hnd Hpos Hraw.
  destruct (recalculateData_run (world_of d) 0%nat d c raws eq_refl Hc Hnd Hpos Hraw)
    as (d' & Hrun & Hsame & Hcells).
  exists d'. split; [|done].
  unfold recalculateData in Hrun.
  rewrite bind_run, (load_run 0%nat d (world_of d) eq_refl), bind_run in Hrun.
  rewrite (recalculate_loop_on_frame 0%nat c (index d) (-1) (world_of d) d eq_refl)
    in Hrun.
  destruct (loop_on_frame d c (index d) (-1)) as [[[]|e] d2]; cbn in Hrun.
  - by injection Hrun as ->.
  - discriminate Hrun.
Qed.

(** X13.  A cell of the value column that is no number (a string or a
    timestamp) stops [recalculateData] with a type error at its row.  The
    rows before it have then already been overwritten with their running
    totals, in the frame object the caller passed; that row and the rows
    after it are as they were. *)
Theorem recalculateData_stops_at_a_cell_that_is_no_number
    w df d c good raws l r rest :
  heap w !! df = Some d →
  c ∈ columns d →
  NoDup (index d) →
  Forall (λ l, -1 < l) (index d) →
  rows d = good ++ (l, r) :: rest →
  cells c good = VFloat <$> raws →
  isnan_value (cell r c) = Raise TypeError →
  ∃ good',
    recalculateData df c w
    = (Raise TypeError,
       with_heap w (<[df := mkDataFrame (columns d) (good' ++ (l, r) :: rest)]>
                      (heap w))) ∧
    good'.*1 = good.*1 ∧
    cells c good' = VFloat <$> accumulated round_3 raws ∧
    ∀ c', c' ≠ c → cells c' good' = cells c' good.
Proof.
  intros Hd Hc Hnd Hpos Hrows Hraw Hbad.
  destruct d as [cols rs]. cbn [columns rows] in *. subst rs.
  unfold index in Hnd, Hpos. cbn [rows] in Hnd, Hpos.
  rewrite fmap_app, fmap_cons in Hnd, Hpos. cbn [fst] in Hnd, Hpos.
  apply NoDup_app in Hnd as (Hnd1 & Hdisj & Hnd2).
  apply NoDup_cons in Hnd2 as [Hl Hnd2].
  apply Forall_app in Hpos as [Hpos1 Hpos2].
  destruct (loop_on_frame_from_start (mkDataFrame cols good) c raws)
    as (dg & Hloop & Hsame & Hcells); try done.
  assert (Hcols : columns dg = cols) by apply Hsame.
  exists (rows dg).
  split; [|split; [apply (same_outside_index _ _ _ Hsame)
                  |split; [exact Hcells|]]].
  2:{ intros c' Hne. by apply (same_outside_cells c c' _ _ Hsame). }
  unfold recalculateData. rewrite bind_run, (load_run _ _ _ Hd), bind_run.
  rewrite (recalculate_loop_on_frame _ _ _ _ _ _ Hd).
  unfold index. cbn [rows]. rewrite fmap_app, fmap_cons. cbn [fst].
  rewrite loop_on_frame_app.
  rewrite loop_on_frame_more_rows.
  2:{ apply Forall_forall. intros l' Hl'. apply (Hdisj _ Hl'). }
  2:{ apply Forall_cons in Hpos2 as [Hlpos Hrest].
      rewrite fmap_cons, not_elem_of_cons. cbn. split; [lia|].
      intros Hin. apply (proj1 (Forall_forall _ _) Hrest) in Hin. lia. }
  change (good.*1) with (index (mkDataFrame cols good)). rewrite Hloop.
  cbn [fst snd loop_on_frame].
  assert (Hlab : l ∉ (rows dg).*1).
  { change ((rows dg).*1) with (index dg).
    rewrite (same_outside_index _ _ _ Hsame). intros Hin.
    apply (Hdisj _ Hin). apply list_elem_of_here. }
  rewrite (at_get_unique cols (rows dg) l r rest c Hc Hlab Hl).
  rewrite Hbad. cbn. reflexivity.
Qed.

End RecalculateEdges.

(** ** More on prepareData *)

Lemma traverse_raises {A B} (f : A → result B) (e : exn) (l : list A) :
  Forall (λ x, f x = Raise e ∨ ∃ y, f x = Ok y) l →
  Exists (λ x, f x = Raise e) l →
  traverse f l = Raise e.
Proof.
  induction 1 as [|x l Hx Hl IH]; intros Hex; [by apply Exists_nil in Hex|].
  cbn. destruct Hx as [Hx|[y Hx]]; rewrite Hx; [done|].
  apply Exists_cons in Hex as [Hex|Hex]; [congruence|]. by rewrite IH.
Qed.

Lemma List_filter_all {A} (p : A → bool) (l : list A) :
  Forall (λ x, p x = true) l → List.filter p l = l.
Proof. induction 1 as [|x l Hx _ IH]; [done|]. cbn. by rewrite Hx, IH. Qed.

Lemma concat_columns_keep c tables :
  Forall (λ t, c ∈ columns t) tables → tables ≠ [] →
  c ∈ concat_columns tables.
Proof.
  intros Hall Hne. destruct tables as [|t ts]; [done|].
  unfold concat_columns.
  rewrite merge_sort_Permutation, elem_of_remove_dups, list_elem_of_bind.
  exists t. split; [by apply Forall_cons in Hall as [? _]|apply list_elem_of_here].
Qed.

Lemma length_bind_rows {A} (f : DataFrame → Z * gmap string value → A)
    (tables : list DataFrame) :
  length (tables ≫= λ t, f t <$> rows t) = sum_list (length ∘ rows <$> tables).
Proof.
  induction tables as [|t ts IH]; [done|]. cbn.
  by rewrite length_app, length_fmap, IH.
Qed.

Lemma lookup_list_to_map_keys (f : string → value) (cols : list string) c :
  c ∈ cols →
  (list_to_map ((λ c, (c, f c)) <$> cols) : gmap string value) !! c
  = Some (f c).
Proof.
  induction cols as [|c0 cols IH]; intros Hc; [by apply elem_of_nil in Hc|].
  cbn. destruct (decide (c = c0)) as [->|Hne].
  - by rewrite lookup_insert_eq.
  - rewrite lookup_insert_ne by done. apply IH.
    apply elem_of_cons in Hc as [Hc|Hc]; [done|exact Hc].
Qed.

(** A cell of a joined row is the cell of the table's row, in the type of
    the joined column. *)
Lemma cell_reindexed tables t r c :
  c ∈ concat_columns tables →
  cell (reindexed tables t r) c
  = astype (concat_dtype tables c)
      (if has_column t c then cell r.2 c else VFloat nan).
Proof.
  intros Hc. unfold cell at 1, reindexed.
  by rewrite (lookup_list_to_map_keys
                (λ c, astype (concat_dtype tables c)
                        (if has_column t c then cell r.2 c else VFloat nan))).
Qed.

Lemma concat_rows tables whole :
  concat tables = Ok whole →
  ∀ r', r' ∈ rows whole →
        ∃ t r, t ∈ tables ∧ r ∈ rows t ∧ r'.2 = reindexed tables t r.
Proof.
  intros Hcat r' Hr'.
  assert (Hwhole : rows whole
                   = imap (λ i m, (Z.of_nat i, m))
                       (tables ≫= λ t, reindexed tables t <$> rows t)).
  { unfold concat in Hcat. destruct tables; [done|]. by injection Hcat as <-. }
  rewrite Hwhole in Hr'.
  apply elem_of_lookup_imap in Hr' as (i & m & -> & Hm).
  apply list_elem_of_lookup_2, list_elem_of_bind in Hm as (t & Hm & Ht).
  apply list_elem_of_fmap in Hm as (r & -> & Hr).
  by exists t, r.
Qed.

Lemma astype_timestamp ty t : astype ty (VTime (Some t)) = VTime (Some t).
Proof. by destruct ty. Qed.

(** A date within bounds survives the join as it is. *)
Lemma concat_in_bounds tables whole :
  concat tables = Ok whole →
  Forall (λ t, inputFileDateColumnName ∈ columns t ∧
               Forall (λ r, in_bounds r = true) (rows t)) tables →
  Forall (λ r, in_bounds r = true) (rows whole).
Proof.
  intros Hcat Hall. apply Forall_forall. intros r' Hr'.
  destruct (concat_rows _ _ Hcat r' Hr') as (t & r & Ht & Hr & Heq).
  apply (proj1 (Forall_forall _ _) Hall) in Ht as Htable.
  destruct Htable as [Hc Hrows].
  apply (proj1 (Forall_forall _ _) Hrows) in Hr as Hb.
  assert (Hcols : inputFileDateColumnName ∈ concat_columns tables).
  { apply concat_columns_keep.
    - eapply Forall_impl; [exact Hall|]. by intros ? [? _].
    - intros ->. by apply elem_of_nil in Ht. }
  destruct (in_bounds_timestamp r Hb) as [ts Hts].
  assert (Hcell : cell r'.2 inputFileDateColumnName = VTime (Some ts)).
  { rewrite Heq, cell_reindexed by done. unfold has_column.
    rewrite bool_decide_eq_true_2 by done.
    by rewrite Hts, astype_timestamp. }
  unfold in_bounds, timestamp in Hb. rewrite Hts in Hb.
  unfold in_bounds, timestamp. by rewrite Hcell.
Qed.

Section PrepareEdges.

Context {E : Environment}.

(** X14.  [prepareData] fails before it makes a frame: without the date
    column it raises the key error of that column, and with a cell in the
    date column that is no date or [NaT] it raises a type error.  In both
    cases the only trace is the line it printed. *)
Theorem prepareData_rejects_a_frame_without_dates w base d :
  heap w !! base = Some d →
  (inputFileDateColumnName ∉ columns d →
   prepareData base w
   = (Raise (KeyError inputFileDateColumnName), printed w "Preparing data")) ∧
  (inputFileDateColumnName ∈ columns d →
   Exists (λ r, ¬ is_datetime (cell r.2 inputFileDateColumnName)) (rows d) →
   prepareData base w = (Raise TypeError, printed w "Preparing data")).
Proof.
  intros Hd.
  assert (Hstart : ∀ e, correct_dates d = Raise e →
                        prepareData base w = (Raise e, printed w "Preparing data")).
  { intros e He. unfold prepareData. rewrite bind_run. unfold print at 1.
    rewrite bind_run. cbn [fst snd].
    rewrite (load_run base d) by exact Hd.
    rewrite bind_run. unfold lift at 1. by rewrite He. }
  split.
  - intros Hc. apply Hstart. unfold correct_dates, getitem, has_column.
    by rewrite bool_decide_eq_false_2.
  - intros Hc Hex. apply Hstart. unfold correct_dates, getitem, has_column.
    rewrite bool_decide_eq_true_2 by done.
    rewrite (traverse_raises _ TypeError); [done| |].
    + apply Forall_forall. intros v _. destruct v as [| | |[t|]]; cbn; eauto.
    + apply Exists_fmap. eapply Exists_impl; [exact Hex|].
      intros r Hr. cbn in *.
      destruct (cell r.2 inputFileDateColumnName) as [| | |t]; try done.
      exfalso. apply Hr. by exists t.
Qed.

(** X15.  For dates without a time of day, which is what the format
    day-month-year yields, the date conversion is exact on every day from
    01-01-1970 to 31-12-2099: each row of the prepared frame is a row of
    the input with its date cell replaced by the whole seconds of its
    timestamp, and nothing else changed. *)
Theorem prepareData_writes_exact_seconds_for_dates w base d :
  sorts_ascending argsort →
  heap w !! base = Some d →
  inputFileDateColumnName ∈ columns d →
  Forall (λ r, is_datetime (cell r.2 inputFileDateColumnName)) (rows d) →
  Forall (λ r, in_bounds r = true → at_midnight r) (rows d) →
  ∃ df w' d',
    prepareData base w = (Ok df, w') ∧
    heap w' !! df = Some d' ∧
    ∀ r', r' ∈ rows d' →
          ∃ r t, r ∈ rows d ∧ timestamp r = Some t ∧
                 r' = (r.1, <[inputFileDateColumnName := VInt (t / 1000000000)]> r.2).
Proof.
  intros Hsort Hd Hc Hdt Hmid.
  destruct (prepareData_run Hsort w base d Hd Hc Hdt)
    as (sorted & ks & Hrun & Hperm & _).
  eexists _, _, _. split; [exact Hrun|]. cbn [heap].
  split; [by rewrite lookup_app_r, Nat.sub_diag|]. cbn [rows].
  intros r' Hr'. apply list_elem_of_fmap in Hr' as (r & -> & Hr).
  rewrite Hperm in Hr. apply list_elem_of_In, filter_In in Hr as [Hr Hb].
  apply list_elem_of_In in Hr.
  destruct (proj1 (Forall_forall _ _) Hmid r Hr Hb) as [day Hday].
  exists r, (day * 86400 * 1000000000). split; [done|]. split; [done|].
  unfold normalised. rewrite Hday. cbn [default]. do 3 f_equal.
  assert (Hrange : 0 ≤ day < 0 + Z.of_nat (Z.to_nat 47482)).
  { unfold in_bounds in Hb. rewrite Hday in Hb.
    apply andb_prop in Hb as [Hlo Hhi].
    apply Z.leb_le in Hlo, Hhi.
    change (strptime_dmy 1 1 1970) with 0 in Hlo.
    change (strptime_dmy 31 12 2099) with (47481 * 86400 * 1000000000) in Hhi.
    lia. }
  unfold id.
  rewrite (days_exact_spec _ 0 day every_day_in_bounds_is_exact Hrange).
  by rewrite Z.div_mul.
Qed.

(** X16.  When every row of every input table has a date within bounds,
    the assembly loses no row and makes up none: the prepared frame has as
    many rows as the tables together, and its labels are the numbers
    0 .. n-1 in some order. *)
Theorem assembly_keeps_every_row_in_bounds tables whole w base :
  sorts_ascending argsort →
  concat tables = Ok whole →
  heap w !! base = Some whole →
  Forall (λ t, inputFileDateColumnName ∈ columns t ∧
               Forall (λ r, in_bounds r = true) (rows t)) tables →
  ∃ df w' d',
    prepareData base w = (Ok df, w') ∧
    heap w' !! df = Some d' ∧
    length (rows d') = sum_list (length ∘ rows <$> tables) ∧
    index d' ≡ₚ Z.of_nat <$> seq 0 (length (rows d')).
Proof.
  intros Hsort Hcat Hd Hall.
  assert (Hne : tables ≠ []) by (by destruct tables).
  assert (Hwhole : whole = mkDataFrame (concat_columns tables)
                             (imap (λ i m, (Z.of_nat i, m))
                                (tables ≫= λ t, reindexed tables t <$> rows t))).
  { unfold concat in Hcat. destruct tables; [done|]. by injection Hcat as <-. }
  assert (Hc : inputFileDateColumnName ∈ columns whole).
  { rewrite Hwhole. cbn [columns]. apply concat_columns_keep; [|done].
    eapply Forall_impl; [exact Hall|]. by intros t [? _]. }
  pose proof (concat_in_bounds tables whole Hcat Hall) as Hin.
  assert (Hdt : Forall (λ r, is_datetime (cell r.2 inputFileDateColumnName))
                  (rows whole)).
  { eapply Forall_impl; [exact Hin|]. intros r Hr.
    destruct (in_bounds_timestamp r Hr) as [t Ht]. by eexists. }
  destruct (prepareData_run Hsort w base whole Hd Hc Hdt)
    as (sorted & ks & Hrun & Hperm & _).
  rewrite (List_filter_all _ _ Hin) in Hperm.
  eexists _, _, _. split; [exact Hrun|]. cbn [heap].
  split; [by rewrite lookup_app_r, Nat.sub_diag|]. cbn [rows].
  assert (Hlen : length (normalised <$> sorted)
                 = length (tables ≫= λ t, reindexed tables t <$> rows t)).
  { rewrite length_fmap, Hperm, Hwhole. cbn [rows]. by rewrite length_imap. }
  split; [by rewrite Hlen, length_bind_rows|].
  rewrite Hlen. unfold index. cbn [rows]. rewrite <- list_fmap_compose.
  change (fst ∘ normalised) with (fst : Z * gmap string value → Z).
  rewrite Hperm, Hwhole. cbn [rows]. rewrite fmap_imap.
  rewrite (imap_ext _ (λ i _, Z.of_nat i)) by done.
  by rewrite imap_seq_0.
Qed.

End PrepareEdges.

(** ** What generateImportDataFile writes *)

Section OutputContent.

Context {E : Environment}.

(** X17.  Without recalculation, [generateImportDataFile] writes one file:
    a line for each row that passes every filter, in row order, holding
    the row's date cell and its value cell.  When the value column is the
    date column itself the narrowed frame has that one column, and each
    line holds the one cell.  The call prints one line and leaves the base
    frame as it was. *)
Theorem generateImportDataFile_writes_the_rows_that_pass
    w base d outputFile c filters :
  heap w !! base = Some d →
  c ∈ columns d →
  inputFileDateColumnName ∈ columns d →
  Forall (usable d) filters →
  ∃ w' lines,
    generateImportDataFile base outputFile c filters false w = (Ok (), w') ∧
    files w' = <[outputFile := lines]> (files w) ∧
    (c ≠ inputFileDateColumnName →
     lines = (λ r, [cell r.2 inputFileDateColumnName; cell r.2 c])
               <$> List.filter (passes filters) (rows d)) ∧
    (c = inputFileDateColumnName →
     lines = (λ r, [cell r.2 inputFileDateColumnName])
               <$> List.filter (passes filters) (rows d)) ∧
    stdout w' = stdout w ++ ["Creating file: " +:+ outputFile] ∧
    heap w' !! base = Some d.
Proof.
  intros Hd Hc Hdate Hok.
  destruct (generateImportDataFile_run w base d outputFile c filters
              Hd Hc Hdate Hok) as (w' & Hrun & Hfiles & Hout & Hbase).
  exists w', (line_of c <$> List.filter (passes filters) (rows d)).
  split; [exact Hrun|]. split; [exact Hfiles|].
  split; [|split; [|by split]].
  - intros Hne. apply list_fmap_ext. intros i r _. unfold line_of.
    by rewrite decide_False.
  - intros ->. apply list_fmap_ext. intros i r _. unfold line_of.
    by rewrite decide_True.
Qed.

(** X18.  With recalculation, the file holds, for the rows that pass
    every filter, the date cell of each row beside the running total of
    the value cells up to that row: the accumulation runs over the rows
    that passed, not over the whole frame. *)
Theorem generateImportDataFile_writes_running_totals_of_the_rows_that_pass
    w base d outputFile c filters raws :
  heap w !! base = Some d →
  c ∈ columns d →
  inputFileDateColumnName ∈ columns d →
  c ≠ inputFileDateColumnName →
  pipeline_labels d →
  Forall (usable d) filters →
  cells c (List.filter (passes filters) (rows d)) = VFloat <$> raws →
  ∃ w',
    generateImportDataFile base outputFile c filters true w = (Ok (), w') ∧
    files w'
    = <[outputFile :=
          zip_with (λ date total, [date; VFloat total])
            (cells inputFileDateColumnName (List.filter (passes filters) (rows d)))
            (accumulated round_3 raws)]> (files w) ∧
    stdout w' = stdout w ++ ["Creating file: " +:+ outputFile].
Proof.
  intros Hd Hc Hdate Hne Hlabels Hok Hraw. unfold generateImportDataFile.
  rewrite bind_run, (load_run _ _ _ Hd). unfold has_column.
  rewrite bool_decide_eq_true_2 by done.
  rewrite bind_run. unfold print at 1. rewrite bind_run.
  set (w0 := mkWorld (heap w) (files w) _).
  destruct (filterData_run filters base d w0 Hd Hok)
    as (df' & fresh & Hrun & Hlook & _).
  rewrite Hrun, bind_run.
  set (dsel := mkDataFrame (columns d) (List.filter (passes filters) (rows d))) in *.
  set (w1 := with_heap w0 (heap w0 ++ fresh)) in *.
  assert (Hsel : pipeline_labels dsel).
  { exact (pipeline_labels_filter (passes filters) (columns d) (columns d)
             (rows d) ltac:(by destruct d)). }
  destruct Hsel as [Hnd Hpos].
  destruct (recalculateData_run w1 df' dsel c raws Hlook Hc Hnd Hpos Hraw)
    as (dacc & Hrec & Hsame & Hcells).
  rewrite Hrec.
  erewrite export_run.
  2:{ cbn [heap with_heap]. eapply heap_insert_lookup, Hlook. }
  eexists. split; [reflexivity|]. cbn [heap files stdout with_heap w0 w1].
  split; [|done]. f_equal.
  rewrite export_lines_two_columns.
  2:{ by rewrite (proj1 Hsame). }
  2:{ by rewrite (proj1 Hsame). }
  2:{ done. }
  pose proof (same_outside_cells c inputFileDateColumnName _ _ Hsame
                ltac:(done)) as Hdates.
  unfold cells in *. cbn [rows dsel] in Hdates.
  rewrite <- Hdates.
  rewrite <- (zip_with_fmap_both (λ date v, [date; v])
                (λ r : Z * gmap string value, cell r.2 inputFileDateColumnName)
                (λ r : Z * gmap string value, cell r.2 c)).
  rewrite Hcells. by rewrite zip_with_fmap_r.
Qed.

End OutputContent.

(** ** A whole run with the template's kind of output definitions *)

Lemma forallb_Forall_true {A} (p : A → bool) (l : list A) :
  Forall (λ x, p x = true) l → forallb p l = true.
Proof. induction 1 as [|x l Hx _ IH]; [done|]. cbn. by rewrite Hx, IH. Qed.

Lemma dtype_of_datetime column :
  column ≠ [] → Forall is_datetime column → dtype_of column = Datetime64.
Proof.
  intros Hne Hall. destruct column as [|v column]; [done|].
  apply Forall_cons in Hall as [[t ->] Hall]. unfold dtype_of. cbn.
  rewrite forallb_Forall_true; [done|].
  eapply Forall_impl; [exact Hall|]. by intros v [t' ->].
Qed.

Lemma common_dtype_datetime pieces na :
  pieces ≠ [] → Forall (λ t, t = Datetime64) pieces →
  common_dtype pieces na = Datetime64.
Proof.
  intros Hne Hall. destruct pieces as [|t pieces]; [done|].
  apply Forall_cons in Hall as [-> Hall]. unfold common_dtype. cbn.
  rewrite forallb_Forall_true; [done|].
  eapply Forall_impl; [exact Hall|]. by intros t ->.
Qed.

(** A column that holds timestamps (or [NaT]) in every table is a
    datetime column of the joined frame. *)
Lemma concat_dtype_datetime tables c t :
  t ∈ tables → rows t ≠ [] →
  Forall (λ t, c ∈ columns t ∧
               Forall (λ r, is_datetime (cell r.2 c)) (rows t)) tables →
  concat_dtype tables c = Datetime64.
Proof.
  intros Ht Hrows Hall. unfold concat_dtype.
  set (filled := filter (λ t, rows t ≠ []) tables).
  set (present := filter (λ t, c ∈ columns t) filled).
  set (holding := filter (λ t, ¬ forallb is_na (column_cells t c)) present).
  set (deciding := match holding with [] => present | _ => holding end).
  assert (Hpresent : ∀ t', t' ∈ present → t' ∈ tables ∧ rows t' ≠ []).
  { intros t' Ht'. apply list_elem_of_filter in Ht' as [_ Ht'].
    apply list_elem_of_filter in Ht' as [? ?]. done. }
  assert (Hdeciding : deciding ≠ [] ∧ ∀ t', t' ∈ deciding → t' ∈ present).
  { unfold deciding. destruct holding as [|h holding'] eqn:Hh.
    - split; [|done]. intros Hnil.
      assert (Hin : t ∈ present).
      { apply list_elem_of_filter. split.
        - by apply (proj1 (Forall_forall _ _) Hall) in Ht as [? _].
        - by apply list_elem_of_filter. }
      rewrite Hnil in Hin. by apply elem_of_nil in Hin.
    - split; [done|]. intros t' Ht'. rewrite <- Hh in Ht'.
      by apply list_elem_of_filter in Ht' as [_ ?]. }
  destruct Hdeciding as [Hne Hsub].
  apply common_dtype_datetime.
  - intros Hnil. apply fmap_nil_inv in Hnil. done.
  - apply Forall_fmap, Forall_forall. intros t' Ht'. cbn.
    destruct (Hpresent t' (Hsub t' Ht')) as [Hin Hrows'].
    apply (proj1 (Forall_forall _ _) Hall) in Hin as [_ Hcells].
    apply dtype_of_datetime.
    + unfold column_cells. intros Hnil. apply fmap_nil_inv in Hnil. done.
    + unfold column_cells. by apply Forall_fmap.
Qed.

(** The date cells of the joined frame are timestamps (or [NaT]) when
    those of the tables are. *)
Lemma concat_dates tables whole :
  concat tables = Ok whole →
  Forall (λ t, inputFileDateColumnName ∈ columns t) tables →
  Forall (λ t, Forall (λ r, is_datetime (cell r.2 inputFileDateColumnName))
                 (rows t)) tables →
  Forall (λ r, is_datetime (cell r.2 inputFileDateColumnName)) (rows whole).
Proof.
  intros Hcat Hcols Hdates. apply Forall_forall. intros r' Hr'.
  destruct (concat_rows _ _ Hcat r' Hr') as (t & r & Ht & Hr & Heq).
  assert (Hboth : Forall (λ t, inputFileDateColumnName ∈ columns t ∧
                               Forall (λ r, is_datetime
                                              (cell r.2 inputFileDateColumnName))
                                 (rows t)) tables).
  { apply Forall_forall. intros t' Ht'. split.
    - by apply (proj1 (Forall_forall _ _) Hcols).
    - by apply (proj1 (Forall_forall _ _) Hdates). }
  assert (Hin : inputFileDateColumnName ∈ concat_columns tables).
  { apply concat_columns_keep; [done|]. intros ->. by apply elem_of_nil in Ht. }
  rewrite Heq, cell_reindexed by done.
  rewrite (concat_dtype_datetime tables _ t Ht) by
    (first [done | intros Hnil; rewrite Hnil in Hr; by apply elem_of_nil in Hr]).
  unfold has_column. rewrite bool_decide_eq_true_2.
  2:{ by apply (proj1 (Forall_forall _ _) Hcols). }
  apply (proj1 (Forall_forall _ _) Hdates) in Ht.
  apply (proj1 (Forall_forall _ _) Ht) in Hr as [ts ->]. by exists ts.
Qed.

Section WholeRun.

Context {E : Environment}.

Lemma produced_plain d outputs :
  Forall plain outputs → ∀ fs, produced d outputs fs = written d outputs fs.
Proof.
  unfold produced, written.
  induction 1 as [|o outputs [Hf _] _ IH]; intros fs; [done|].
  cbn [foldl]. rewrite IH. do 2 f_equal.
  unfold output_lines. rewrite Hf. by rewrite List_filter_all by by apply Forall_true.
Qed.

Lemma generate_all_plain base d outputs :
  inputFileDateColumnName ∈ columns d →
  ∀ w,
    heap w !! base = Some d →
    Forall plain outputs →
    ∃ w',
      generate_all base outputs w = (Ok (), w') ∧
      files w' = written d outputs (files w) ∧
      heap w' !! base = Some d.
Proof.
  intros Hdate w Hd Hplain.
  destruct (generate_all_produced base d outputs Hdate w Hd)
    as (w' & Hrun & Hfiles & Hbase).
  { eapply Forall_impl; [exact Hplain|]. intros o [Hf Hr].
    split; [done|]. rewrite Hf. constructor. }
  exists w'. split; [done|]. split; [|done].
  by rewrite Hfiles, produced_plain.
Qed.

(** The file of a plain definition whose value column exists, when no
    other definition has the same file name. *)
Lemma written_lookup d outputs fs o :
  Forall plain outputs →
  o ∈ outputs →
  valueColumnName o ∈ columns d →
  (∀ o', o' ∈ outputs → outputFileName o' = outputFileName o → o' = o) →
  written d outputs fs !! outputFileName o
  = Some (line_of (valueColumnName o) <$> rows d).
Proof.
  intros Hplain Ho Hc Huniq.
  rewrite <- produced_plain by done.
  rewrite (produced_lookup d outputs fs o Ho Hc Huniq).
  unfold output_lines.
  apply (proj1 (Forall_forall _ _) Hplain) in Ho as [-> _].
  by rewrite List_filter_all by by apply Forall_true.
Qed.

(** X19.  A whole run when every found file loads and every output
    definition is plain (no filter, no recalculation), as in the template:
    the tables are joined, the rows in bounds are put in date order, and
    each definition whose value column exists gets its file, with a line
    for every such row that holds the row's date and value (the date
    alone when the value column is the date column); a definition whose
    column is missing gets none.  The run ends normally with the line
    Done. *)
Theorem generateImportDataFiles_with_plain_outputs inputFileNames tables w :
  glob inputFileNames ≠ [] →
  Forall (λ f, splitext f = inputFileNameExtension) (glob inputFileNames) →
  Forall2 (λ f t, read_table f = Ok t) (glob inputFileNames) tables →
  sorts_ascending argsort →
  Forall (λ t, inputFileDateColumnName ∈ columns t) tables →
  Forall (λ t, Forall (λ r, is_datetime (cell r.2 inputFileDateColumnName))
                 (rows t)) tables →
  Forall plain outputFiles →
  ∃ w' whole prepared sorted ks,
    concat tables = Ok whole ∧
    generateImportDataFiles inputFileNames w = (Ok (), w') ∧
    files w' = written prepared outputFiles (files w) ∧
    (∀ o, o ∈ outputFiles →
          valueColumnName o ∈ columns prepared →
          (∀ o', o' ∈ outputFiles →
                 outputFileName o' = outputFileName o → o' = o) →
          files w' !! outputFileName o
          = Some (line_of (valueColumnName o) <$> rows prepared)) ∧
    (∀ name, name ∉ outputFileName <$> outputFiles →
             files w' !! name = files w !! name) ∧
    columns prepared = columns whole ∧
    rows prepared = normalised <$> sorted ∧
    sorted ≡ₚ List.filter in_bounds (rows whole) ∧
    timestamp <$> sorted = Some <$> ks ∧
    Sorted Z.le ks ∧
    last (stdout w') = Some "Done".
Proof.
  intros Hglob Hext Hread Hsort Hcols Hdates Hplain.
  assert (Hne : tables ≠ []).
  { intros ->. apply Forall2_nil_inv_r in Hread. done. }
  destruct (concat tables) as [whole|e] eqn:Hcat.
  2:{ unfold concat in Hcat. by destruct tables. }
  assert (Hc : inputFileDateColumnName ∈ columns whole).
  { assert (columns whole = concat_columns tables) as ->.
    { unfold concat in Hcat. destruct tables; [done|]. by injection Hcat as <-. }
    by apply concat_columns_keep. }
  pose proof (concat_dates tables whole Hcat Hcols Hdates) as Hdt.
  unfold generateImportDataFiles.
  apply correctFileExtensions_iff_all_match in Hext. rewrite Hext.
  replace (0 <? length (glob inputFileNames))%nat with true.
  2:{ symmetry. apply Nat.ltb_lt. destruct (glob inputFileNames); [done|cbn; lia]. }
  rewrite bind_run. unfold print at 1. rewrite bind_run.
  erewrite read_all_succeeds by exact Hread.
  rewrite bind_run. unfold lift at 1. rewrite Hcat.
  rewrite bind_run. unfold alloc at 1. cbn [heap files stdout].
  set (w1 := mkWorld (heap w ++ [whole]) _ _).
  assert (Hbase : heap w1 !! length (heap w) = Some whole).
  { unfold w1. cbn. by rewrite lookup_app_r, Nat.sub_diag. }
  destruct (prepareData_run Hsort w1 (length (heap w)) whole Hbase Hc Hdt)
    as (sorted & ks & Hrun & Hperm & Hts & Hks & _).
  rewrite bind_run, Hrun.
  set (prepared := mkDataFrame (columns whole) (normalised <$> sorted)).
  set (w2 := mkWorld (heap w1 ++ [prepared]) _ _).
  destruct (generate_all_plain (length (heap w1)) prepared outputFiles Hc w2)
    as (w3 & Hgen & Hfiles & _); [|done|].
  { unfold w2. cbn. by rewrite lookup_app_r, Nat.sub_diag. }
  rewrite bind_run, Hgen.
  exists (mkWorld (heap w3) (files w3) (stdout w3 ++ ["Done"])),
         whole, prepared, sorted, ks.
  split; [done|]. split; [done|]. cbn [files stdout].
  split; [exact Hfiles|].
  split.
  { intros o Ho Hcol Huniq. rewrite Hfiles. by apply written_lookup. }
  split.
  { intros name Hname. rewrite Hfiles, <- produced_plain by done.
    by apply produced_lookup_other. }
  split; [done|]. split; [done|].
  split; [exact Hperm|]. split; [exact Hts|]. split; [exact Hks|].
  apply last_snoc.
Qed.

End WholeRun.

(** ** The further properties on concrete input *)

Lemma generateImportDataFiles_without_usable_input_witness :
  ∃ lines,
    generateImportDataFiles (E := python_env) "*.xlsx" (world_of prepared)
    = (Ok (), mkWorld [prepared] ∅ lines) ∧
    lines = ["No files found based on : *.xlsx"].
Proof.
  destruct (generateImportDataFiles_without_usable_input (E := python_env)
              "*.xlsx" (world_of prepared)) as (lines & Hrun & Hnone & _).
  - by left.
  - exists lines. split; [exact Hrun|]. by apply Hnone.
Defined.

Lemma generateImportDataFiles_stops_at_a_failing_file_witness :
  generateImportDataFiles (E := disk_env broken_disk eneco_outputFiles)
    "*.xlsx" (world_of prepared)
  = (Raise ValueError,
     mkWorld [prepared] ∅
       ["Found files based on: *.xlsx";
        "Loading data: jan.xlsx"; "Loading data: feb.xlsx"]).
Proof.
  apply (generateImportDataFiles_stops_at_a_failing_file
           (E := disk_env broken_disk eneco_outputFiles)
           "*.xlsx" ["jan.xlsx"] [raw_table] "feb.xlsx" ["mar.xlsx"]
           ValueError (world_of prepared)).
  - reflexivity.
  - by_computation.
  - repeat constructor.
  - reflexivity.
Defined.

Lemma generate_all_writes_only_the_named_files_witness :
  files (generate_all (E := python_env) 0%nat [meter; water]
           (mkWorld [prepared] {[ "notes.txt" := [] ]} [])).2 !! "notes.txt"
  = Some [].
Proof.
  rewrite (generate_all_writes_only_the_named_files (E := python_env)
             0%nat [meter; water]
             (mkWorld [prepared] {[ "notes.txt" := [] ]} []) "notes.txt").
  - reflexivity.
  - by_computation.
Defined.

Lemma generateImportDataFile_keeps_frames_unless_unfiltered_recalculate_witness :
  heap (generateImportDataFile (E := python_env) 0%nat "high.csv" "Meterstand"
          [high_only] true (world_of prepared)).2 !! 0%nat
  = Some prepared.
Proof.
  apply (generateImportDataFile_keeps_frames_unless_unfiltered_recalculate
           (E := python_env) 0%nat "high.csv" "Meterstand" [high_only] true
           (world_of prepared)).
  - by right.
  - reflexivity.
Defined.

Lemma filterData_ignores_filter_order_witness :
  ∃ df1 w1 df2 w2 d',
    filterData (E := python_env) 0%nat [not_low; from_2020] (world_of prepared)
    = (Ok df1, w1) ∧
    filterData (E := python_env) 0%nat [from_2020; not_low] (world_of prepared)
    = (Ok df2, w2) ∧
    heap w1 !! df1 = Some d' ∧
    heap w2 !! df2 = Some d'.
Proof.
  apply (filterData_ignores_filter_order (E := python_env)
           [not_low; from_2020] [from_2020; not_low] 0%nat prepared
           (world_of prepared)).
  - reflexivity.
  - usable_filters.
  - apply Permutation_swap.
Defined.

Lemma filterData_inclusive_and_exclusive_split_the_rows_witness :
  ∃ df1 w1 d1 df2 w2 d2,
    filterData (E := python_env) 0%nat [high_only] (world_of prepared)
    = (Ok df1, w1) ∧
    heap w1 !! df1 = Some d1 ∧
    filterData (E := python_env) 0%nat [not_high] (world_of prepared)
    = (Ok df2, w2) ∧
    heap w2 !! df2 = Some d2 ∧
    rows d1 ++ rows d2 ≡ₚ rows prepared ∧
    (length (rows d1) + length (rows d2) = 3)%nat ∧
    ∀ r, r ∈ rows prepared → (r ∈ rows d1 ↔ r ∉ rows d2).
Proof.
  apply (filterData_inclusive_and_exclusive_split_the_rows (E := python_env)
           "Type" "High" 0%nat prepared (world_of prepared)).
  - reflexivity.
  - split; [by_computation|by eexists].
Defined.

Lemma filterData_rejects_a_bad_pattern_witness :
  ∃ fresh,
    filterData (E := picky_env) 0%nat [high_only; unbalanced; by_tariff]
      (world_of prepared)
    = (Raise (ReError "("), with_heap (world_of prepared) ([prepared] ++ fresh)).
Proof.
  apply (filterData_rejects_a_bad_pattern (E := picky_env)
           [high_only] unbalanced [by_tariff] 0%nat prepared (world_of prepared)).
  - reflexivity.
  - usable_filters.
  - reflexivity.
Defined.

Lemma recalculateData_without_rows_or_without_column_witness :
  (rows prepared ≠ [] → "Water" ∉ columns prepared →
   recalculateData (E := python_env) 0%nat "Water" (world_of prepared)
   = (Raise (KeyError "Water"), world_of prepared)) ∧
  recalculateData (E := python_env) 0%nat "Water"
    (world_of (mkDataFrame ["Meterstand"] []))
  = (Ok 0%nat, world_of (mkDataFrame ["Meterstand"] [])).
Proof.
  split.
  - apply (recalculateData_without_rows_or_without_column (E := python_env)
             (world_of prepared) 0%nat prepared "Water" eq_refl).
  - by apply (recalculateData_without_rows_or_without_column (E := python_env)
                (world_of (mkDataFrame ["Meterstand"] [])) 0%nat
                (mkDataFrame ["Meterstand"] []) "Water" eq_refl).
Defined.

Lemma recalculateData_stops_at_a_cell_that_is_no_number_witness :
  ∃ good',
    recalculateData (E := python_env) 0%nat "v" (world_of mixed_column)
    = (Raise TypeError,
       with_heap (world_of mixed_column)
         [mkDataFrame ["v"]
            (good' ++ (2, {[ "v" := VStr "n/a" ]})
                   :: [(3, {[ "v" := VFloat (of_Z 7) ]})])]) ∧
    good'.*1 = [0; 1] ∧
    cells "v" good' = [VFloat (of_Z 10); VFloat (of_Z 15)].
Proof.
  destruct (recalculateData_stops_at_a_cell_that_is_no_number (E := python_env)
              (world_of mixed_column) 0%nat mixed_column "v"
              [(0, {[ "v" := VFloat (of_Z 10) ]}); (1, {[ "v" := VFloat (of_Z 5) ]})]
              [of_Z 10; of_Z 5] 2 {[ "v" := VStr "n/a" ]}
              [(3, {[ "v" := VFloat (of_Z 7) ]})])
    as (good' & Hrun & Hlabels & Hcells & _).
  - reflexivity.
  - by_computation.
  - by_computation.
  - by_computation.
  - reflexivity.
  - reflexivity.
  - reflexivity.
  - exists good'. split; [exact Hrun|]. split; [exact Hlabels|exact Hcells].
Defined.

Lemma prepareData_rejects_a_frame_without_dates_witness :
  prepareData (E := python_env) 0%nat (world_of undated_table)
  = (Raise TypeError, printed (world_of undated_table) "Preparing data") ∧
  prepareData (E := python_env) 0%nat (world_of scenario_a)
  = (Raise (KeyError inputFileDateColumnName),
     printed (world_of scenario_a) "Preparing data").
Proof.
  split.
  - apply (prepareData_rejects_a_frame_without_dates (E := python_env)
             (world_of undated_table) 0%nat undated_table eq_refl).
    + by_computation.
    + apply Exists_cons_tl, Exists_cons_hd. intros [t Ht]. discriminate Ht.
  - apply (prepareData_rejects_a_frame_without_dates (E := python_env)
             (world_of scenario_a) 0%nat scenario_a eq_refl).
    by_computation.
Defined.

Lemma raw_table_at_midnight :
  Forall (λ r, in_bounds r = true → at_midnight r) (rows raw_table).
Proof.
  repeat constructor; intros _.
  - by exists (days_from_civil 2020 1 2).
  - by exists (days_from_civil 1960 1 1).
  - by exists (days_from_civil 2020 1 1).
Qed.

Lemma prepareData_writes_exact_seconds_for_dates_witness :
  ∃ df w' d',
    prepareData (E := python_env) 0%nat (world_of raw_table) = (Ok df, w') ∧
    heap w' !! df = Some d' ∧
    ∀ r', r' ∈ rows d' →
          ∃ r t, r ∈ rows raw_table ∧ timestamp r = Some t ∧
                 r' = (r.1, <[inputFileDateColumnName := VInt (t / 1000000000)]> r.2).
Proof.
  apply (prepareData_writes_exact_seconds_for_dates (E := python_env)
           (world_of raw_table) 0%nat raw_table).
  - exact stable_argsort_sorts.
  - reflexivity.
  - by_computation.
  - exact raw_table_dates.
  - exact raw_table_at_midnight.
Defined.

Lemma assembly_keeps_every_row_in_bounds_witness :
  ∃ whole,
    concat [same_day_table; later_table] = Ok whole ∧
    ∃ df w' d',
      prepareData (E := python_env) 0%nat (world_of whole) = (Ok df, w') ∧
      heap w' !! df = Some d' ∧
      length (rows d') = 4%nat ∧
      index d' ≡ₚ Z.of_nat <$> seq 0 (length (rows d')).
Proof.
  eexists. split; [reflexivity|].
  eapply (assembly_keeps_every_row_in_bounds (E := python_env)
            [same_day_table; later_table]).
  - exact stable_argsort_sorts.
  - reflexivity.
  - reflexivity.
  - repeat constructor; by_computation.
Defined.

Lemma generateImportDataFile_writes_the_rows_that_pass_witness :
  (∃ w',
     generateImportDataFile (E := python_env) 0%nat "high.csv" "Meterstand"
       [high_only] false (world_of prepared) = (Ok (), w') ∧
     files w' = {[ "high.csv" := [ [VInt 1577836800; VFloat (of_Z 10)];
                                   [VInt 1578009600; VFloat (of_Z 7)] ] ]} ∧
     stdout w' = ["Creating file: high.csv"] ∧
     heap w' !! 0%nat = Some prepared) ∧
  (∃ w',
     generateImportDataFile (E := python_env) 0%nat "dates.csv"
       inputFileDateColumnName [] false (world_of prepared) = (Ok (), w') ∧
     files w' = {[ "dates.csv" := [ [VInt 1577836800]; [VInt 1577923200];
                                    [VInt 1578009600] ] ]}).
Proof.
  split.
  - destruct (generateImportDataFile_writes_the_rows_that_pass (E := python_env)
                (world_of prepared) 0%nat prepared "high.csv" "Meterstand"
                [high_only])
      as (w' & lines & Hrun & Hfiles & Htwo & _ & Hout & Hbase).
    + reflexivity.
    + by_computation.
    + by_computation.
    + usable_filters.
    + exists w'. split; [exact Hrun|]. split; [|split; [exact Hout|exact Hbase]].
      rewrite Hfiles, Htwo by done. reflexivity.
  - destruct (generateImportDataFile_writes_the_rows_that_pass (E := python_env)
                (world_of prepared) 0%nat prepared "dates.csv"
                inputFileDateColumnName [])
      as (w' & lines & Hrun & Hfiles & _ & Hone & _).
    + reflexivity.
    + by_computation.
    + by_computation.
    + constructor.
    + exists w'. split; [exact Hrun|].
      rewrite Hfiles, Hone by done. reflexivity.
Defined.

Lemma generateImportDataFile_writes_running_totals_of_the_rows_that_pass_witness :
  ∃ w',
    generateImportDataFile (E := python_env) 0%nat "high.csv" "Meterstand"
      [high_only] true (world_of prepared) = (Ok (), w') ∧
    files w' = {[ "high.csv" := [ [VInt 1577836800; VFloat (of_Z 10)];
                                  [VInt 1578009600; VFloat (of_Z 17)] ] ]} ∧
    stdout w' = ["Creating file: high.csv"].
Proof.
  destruct (generateImportDataFile_writes_running_totals_of_the_rows_that_pass
              (E := python_env) (world_of prepared) 0%nat prepared "high.csv"
              "Meterstand" [high_only] [of_Z 10; of_Z 7])
    as (w' & Hrun & Hfiles & Hout).
  - reflexivity.
  - by_computation.
  - by_computation.
  - done.
  - split; by_computation.
  - usable_filters.
  - reflexivity.
  - exists w'. split; [exact Hrun|]. split; [|exact Hout].
    rewrite Hfiles. vm_compute. reflexivity.
Defined.

Lemma generateImportDataFiles_with_plain_outputs_witness :
  ∃ w',
    generateImportDataFiles (E := disk_env mixed_disk eneco_outputFiles)
      "*.xlsx" (mkWorld [] ∅ []) = (Ok (), w') ∧
    files w'
    = {[ "gas_high_resolution.csv" :=
           [ [VInt 1577836800; VFloat (of_Z 10)];
             [VInt 1577923200; VFloat (of_Z 5)];
             [VInt 1578009600; VFloat (of_Z 11)];
             [VInt 1578182400; VFloat (of_Z 12)] ] ]} ∧
    last (stdout w') = Some "Done".
Proof.
  destruct (generateImportDataFiles_with_plain_outputs
              (E := disk_env mixed_disk eneco_outputFiles)
              "*.xlsx" [raw_table; whole_number_table] (mkWorld [] ∅ []))
    as (w' & whole & prepared & sorted & ks & _ & Hrun & _ & _ & _ & _ & _ & _
        & _ & _ & Hdone).
  - done.
  - by_computation.
  - repeat constructor.
  - exact stable_argsort_sorts.
  - by_computation.
  - repeat constructor; by eexists.
  - repeat constructor.
  - exists w'. split; [exact Hrun|]. split; [|exact Hdone].
    replace w' with
      (generateImportDataFiles (E := disk_env mixed_disk eneco_outputFiles)
         "*.xlsx" (mkWorld [] ∅ [])).2 by (by rewrite Hrun).
    vm_compute. reflexivity.
Defined.
